(** * drizzle-sqlite-vec: vector codec, vec0 schema builder, query and DML helpers

    A shallow embedding of the TypeScript sources
    ([vector.ts], [virtual-table.ts], [query.ts], [dml.ts], [types.ts])
    together with the properties the specification states about them.

    Conventions of the embedding
    - a JavaScript [number] is an IEEE-754 binary64 value: Rocq's primitive
      [float]; its specification is [Prim2SF] into [spec_float];
    - a count or a dimension (an integral [number]) is a [Z]; a template
      literal prints a safe integer ([Js.isSafeInteger]) in decimal, as
      [pretty] does, and rendered text is stated for safe integers;
    - [throw new Error(msg)] is the result [Throw msg];
    - a [Record<string, unknown>] is a plain object: its own properties are a
      finite map [gmap string value], and reading a name it does not own
      finds the member of [Object.prototype] of that name, if any;
    - typed arrays use the little-endian layout of the platform;
    - a drizzle [SQL] object is its list of query chunks; [toQuery] renders it
      with the SQLite dialect (identifiers in double quotes, parameters as [?]);
    - the column builders are mutable objects: [VirtualTable] works on their
      configs as values, [Builders] keeps the objects in a store. *)

From Stdlib Require Import ZArith List String Ascii Bool Lia Floats.
From Stdlib.Strings Require Import Byte.
From stdpp Require Import gmap strings pretty.
Import ListNotations.
Local Open Scope string_scope.
Set Warnings "-register-all".
#[local] Arguments String.append !s1 s2 : simpl nomatch.


(** ** Results of calls that may throw *)

Inductive result (A : Type) : Type :=
| Ok (value : A)
| Throw (message : string).
Arguments Ok {A} value.
Arguments Throw {A} message.

Definition bind {A B : Type} (r : result A) (k : A -> result B) : result B :=
  match r with
  | Ok a => k a
  | Throw msg => Throw msg
  end.

Definition fmap_result {A B : Type} (f : A -> B) (r : result A) : result B :=
  bind r (fun a => Ok (f a)).

Definition throws {A : Type} (r : result A) : Prop :=
  exists msg, r = Throw msg.

(** [String.prototype.startsWith] *)
Fixpoint starts_with (pat s : string) : bool :=
  match pat, s with
  | EmptyString, _ => true
  | String a pat', String b s' => Ascii.eqb a b && starts_with pat' s'
  | String _ _, EmptyString => false
  end.

(** [String.prototype.includes]: [pat] occurs somewhere in [s]. *)
Fixpoint includes (pat s : string) : bool :=
  starts_with pat s ||
  match s with
  | EmptyString => false
  | String _ rest => includes pat rest
  end.

(** The character [c] occurs in [s]. *)
Fixpoint has_char (c : ascii) (s : string) : bool :=
  match s with
  | EmptyString => false
  | String a rest => Ascii.eqb a c || has_char c rest
  end.

(** [Array.prototype.join] on strings. *)
Fixpoint join (sep : string) (parts : list string) : string :=
  match parts with
  | [] => ""
  | [p] => p
  | p :: rest => p +:+ sep +:+ join sep rest
  end.

(** The number of occurrences of the character [c] in [s]. *)
Fixpoint count_char (c : ascii) (s : string) : nat :=
  match s with
  | EmptyString => 0
  | String a rest => (if Ascii.eqb a c then 1 else 0) + count_char c rest
  end.

(** Scanning for the two characters ["[0"]: [bracket_zero after s] holds when
    they occur in [s], or when [s] starts with ["0"] and [after] says that a
    bracket came just before; [after_bracket] is the state at the end of [s]. *)
Fixpoint bracket_zero (after : bool) (s : string) : bool :=
  match s with
  | EmptyString => false
  | String c rest => (after && Ascii.eqb c "0") || bracket_zero (Ascii.eqb c "[") rest
  end.

Fixpoint after_bracket (after : bool) (s : string) : bool :=
  match s with
  | EmptyString => after
  | String c rest => after_bracket (Ascii.eqb c "[") rest
  end.

(** A text without ["[0"] that does not end in a bracket; a text that stays
    so after a bracket. *)
Definition settled (s : string) : Prop :=
  bracket_zero false s = false /\ after_bracket false s = false.

Definition numeral (s : string) : Prop :=
  forall b, bracket_zero b s = false /\ after_bracket b s = false.

(** ** Plain objects and integral numbers *)

Module Js.

(** [Number.isSafeInteger]: on such an integer [d] the text of [`${d}`] is
    its decimal form, [pretty d]. *)
Definition isSafeInteger (d : Z) : bool := (Z.abs d <=? 2 ^ 53 - 1)%Z.

(** The names of the members of [Object.prototype], which every plain object
    inherits. *)
Definition Object_prototype : list string :=
  [ "constructor"; "__defineGetter__"; "__defineSetter__"; "hasOwnProperty";
    "__lookupGetter__"; "__lookupSetter__"; "isPrototypeOf"; "propertyIsEnumerable";
    "toString"; "valueOf"; "__proto__"; "toLocaleString" ].

Definition inherited (key : string) : bool :=
  existsb (String.eqb key) Object_prototype.

(** The value of a string of decimal digits. *)
Fixpoint digits_value (acc : N) (s : string) : option N :=
  match s with
  | EmptyString => Some acc
  | String c rest =>
      let d := N_of_ascii c in
      if ((48 <=? d) && (d <=? 57))%N then digits_value (10 * acc + (d - 48))%N rest
      else None
  end.

(** An array index: the canonical decimal form of an integer below
    [2^32 - 1]. *)
Definition array_index (key : string) : option N :=
  match key with
  | EmptyString => None
  | _ =>
      match digits_value 0 key with
      | Some n => if String.eqb (pretty n) key && (n <? 2 ^ 32 - 1)%N then Some n else None
      | None => None
      end
  end.

(** Defining the property [key] on the properties [o], kept in order of
    creation: an existing key keeps its place and takes the new value. *)
Fixpoint set_property {A : Type} (key : string) (v : A) (o : list (string * A))
  : list (string * A) :=
  match o with
  | [] => [(key, v)]
  | (k, w) :: rest =>
      if String.eqb k key then (k, v) :: rest else (k, w) :: set_property key v rest
  end.

(** [{ [k1]: v1, [k2]: v2, ... }] *)
Definition object_literal {A : Type} (props : list (string * A)) : list (string * A) :=
  fold_left (fun o '(key, v) => set_property key v o) props [].

Fixpoint insert_by_index {A : Type} (n : N) (entry : string * A)
         (sorted : list (N * (string * A))) : list (N * (string * A)) :=
  match sorted with
  | [] => [(n, entry)]
  | (m, e) :: rest =>
      if (n <? m)%N then (n, entry) :: sorted else (m, e) :: insert_by_index n entry rest
  end.

(** [Object.entries(o)]: the array-index keys in ascending numeric order,
    then the other keys in order of creation. *)
Definition Object_entries {A : Type} (o : list (string * A)) : list (string * A) :=
  let indexed :=
    fold_left (fun acc entry =>
                 match array_index (fst entry) with
                 | Some n => insert_by_index n entry acc
                 | None => acc
                 end) o [] in
  map snd indexed
  ++ List.filter (fun entry => match array_index (fst entry) with
                               | Some _ => false
                               | None => true
                               end) o.

End Js.

(** ** virtual-table.ts: the vec0 schema builder *)

Module VirtualTable.

(** [Vec0ColumnConfig['type']] *)
Inductive ColumnType := float_t | int8_t | bit_t | integer_t | text_t | blob_t.

(** ['L2' | 'cosine'] *)
Inductive Metric := L2 | cosine.

Definition metricName (m : Metric) : string :=
  match m with L2 => "L2" | cosine => "cosine" end.

(** [dimensions], [primaryKey] and [distanceMetric] are optional members:
    [None] (resp. [false]) is the absent member. *)
Record Vec0ColumnConfig := {
  name : string;
  type : ColumnType;
  dimensions : option Z;
  primaryKey : bool;
  distanceMetric : option Metric
}.

(** Truthiness of [col.dimensions]: absent and [0] are falsy. *)
Definition truthy_dimensions (d : option Z) : option Z :=
  match d with
  | Some 0%Z => None
  | other => other
  end.

(** The builder holds the config it mutates. *)
Module Vec0ColumnBuilder.
Definition t := Vec0ColumnConfig.

Definition new (name : string) (type : ColumnType) (dimensions : option Z) : t :=
  {| name := name; type := type; dimensions := dimensions;
     primaryKey := false; distanceMetric := None |}.

Definition primaryKey (b : t) : t :=
  Build_Vec0ColumnConfig (name b) (type b) (dimensions b) true (distanceMetric b).

Definition distanceMetric (metric : Metric) (b : t) : t :=
  Build_Vec0ColumnConfig (name b) (type b) (dimensions b) (VirtualTable.primaryKey b) (Some metric).

Definition build (b : t) : Vec0ColumnConfig := b.
End Vec0ColumnBuilder.

Definition vecFloat (name : string) (dimensions : Z) := Vec0ColumnBuilder.new name float_t (Some dimensions).
Definition vecInt8 (name : string) (dimensions : Z) := Vec0ColumnBuilder.new name int8_t (Some dimensions).
Definition vecBit (name : string) (dimensions : Z) := Vec0ColumnBuilder.new name bit_t (Some dimensions).
Definition vecInteger (name : string) := Vec0ColumnBuilder.new name integer_t None.
Definition vecText (name : string) := Vec0ColumnBuilder.new name text_t None.
Definition vecBlob (name : string) := Vec0ColumnBuilder.new name blob_t None.

Record Vec0Table := {
  table_name : string;
  columns : list Vec0ColumnConfig
}.

(** [if (!config.name) config.name = key] *)
Definition named (key : string) (config : Vec0ColumnConfig) : Vec0ColumnConfig :=
  if String.eqb (name config) "" then
    {| name := key; type := type config; dimensions := dimensions config;
       primaryKey := primaryKey config; distanceMetric := distanceMetric config |}
  else config.

(** [columns] is the object literal as [Object.entries] lists it. *)
Definition vec0Table (name : string) (columns : list (string * Vec0ColumnBuilder.t)) : Vec0Table :=
  {| table_name := name;
     columns := map (fun '(key, builder) => named key (Vec0ColumnBuilder.build builder)) columns |}.

Definition metricSuffix (col : Vec0ColumnConfig) : string :=
  match distanceMetric col with
  | Some m => " distance_metric=" +:+ metricName m
  | None => ""
  end.

(** The body of the [columnConfigs.map] callback of [createSQL];
    [`${col.dimensions}`] is [pretty d] for a safe integer [d]. *)
Definition columnDef (col : Vec0ColumnConfig) : string :=
  let def := name col in
  match type col, truthy_dimensions (dimensions col) with
  | float_t, Some d => def +:+ " float[" +:+ pretty d +:+ "]" +:+ metricSuffix col
  | int8_t, Some d => def +:+ " int8[" +:+ pretty d +:+ "]" +:+ metricSuffix col
  | bit_t, Some d => def +:+ " bit[" +:+ pretty d +:+ "]"
  | integer_t, _ => def +:+ " integer" +:+ (if primaryKey col then " primary key" else "")
  | text_t, _ => def +:+ " text"
  | blob_t, _ => def +:+ " blob"
  | _, _ => def
  end.

Definition createSQL (t : Vec0Table) : string :=
  "CREATE VIRTUAL TABLE IF NOT EXISTS " +:+ table_name t +:+ " USING vec0("
    +:+ join ", " (map columnDef (columns t)) +:+ ")".

Definition dropSQL (t : Vec0Table) : string :=
  "DROP TABLE IF EXISTS " +:+ table_name t.

Record ShadowTableOptions := {
  tableName : string;
  vectorColumn : string;
  shadow_dimensions : Z;
  idColumn : string
}.

(** The columns are an object literal with the computed keys
    [options.idColumn] and [options.vectorColumn]. *)
Definition shadowVec0Table (options : ShadowTableOptions) : Vec0Table :=
  vec0Table (tableName options)
    (Js.Object_entries
       (Js.object_literal
          [ (idColumn options, Vec0ColumnBuilder.primaryKey (vecInteger (idColumn options)));
            (vectorColumn options, vecFloat (vectorColumn options) (shadow_dimensions options)) ])).

Definition isVectorType (t : ColumnType) : bool :=
  match t with float_t | int8_t | bit_t => true | _ => false end.

Definition typeName (t : ColumnType) : string :=
  match t with
  | float_t => "float" | int8_t => "int8" | bit_t => "bit"
  | integer_t => "integer" | text_t => "text" | blob_t => "blob"
  end.

End VirtualTable.

(** ** virtual-table.ts: builders as mutable objects

    [primaryKey()] and [distanceMetric()] assign to the config object of the
    builder and return the builder; [build()] returns that very object;
    [vec0Table] assigns its [name] when it is empty and keeps the objects in
    [columnConfigs]; [createSQL] reads them when it is called. Here the config
    objects live in a store and a builder is a reference into it (references
    are never dangling). *)

Module Builders.
Import VirtualTable.
Local Open Scope list_scope.

Definition store := list Vec0ColumnConfig.
Definition ref := nat.

(** [new Vec0ColumnBuilder(name, type, dimensions)] *)
Definition new (name : string) (type : ColumnType) (dimensions : option Z) (h : store)
  : ref * store :=
  (length h, h ++ [Vec0ColumnBuilder.new name type dimensions]).

(** [this.config.primaryKey = true; return this] *)
Definition primaryKey (r : ref) (h : store) : ref * store :=
  (r, alter Vec0ColumnBuilder.primaryKey r h).

(** [this.config.distanceMetric = metric; return this] *)
Definition distanceMetric (metric : Metric) (r : ref) (h : store) : ref * store :=
  (r, alter (Vec0ColumnBuilder.distanceMetric metric) r h).

(** [return this.config] *)
Definition build (r : ref) : ref := r.

Record Vec0Table := {
  table_name : string;
  columnConfigs : list ref
}.

(** [columns] is the object as [Object.entries] lists it; the callback of
    [map] runs on the entries in order. *)
(** The effect of the callback of [map] on the store: for each entry in
    turn, [if (!config.name) config.name = key]. *)
Definition assign_names (columns : list (string * ref)) (h : store) : store :=
  fold_left (fun h '(key, builder) => alter (named key) (build builder) h) columns h.

Definition vec0Table (name : string) (columns : list (string * ref)) (h : store)
  : Vec0Table * store :=
  ({| table_name := name; columnConfigs := map (fun '(key, builder) => build builder) columns |},
   assign_names columns h).

(** The configs a table holds, as they are in the store. *)
Definition configs (t : Vec0Table) (h : store) : list Vec0ColumnConfig :=
  omap (fun r => h !! r) (columnConfigs t).

Definition createSQL (t : Vec0Table) (h : store) : string :=
  "CREATE VIRTUAL TABLE IF NOT EXISTS " +:+ table_name t +:+ " USING vec0("
    +:+ join ", " (map columnDef (configs t h)) +:+ ")".

Definition dropSQL (t : Vec0Table) : string :=
  "DROP TABLE IF EXISTS " +:+ table_name t.

End Builders.

(** ** vector.ts: the vector codec *)

Module Vector.

(** *** IEEE-754 binary32 as stored in a [Float32Array] *)

(** Storing a [number] into a [Float32Array] element converts the binary64
    value to binary32 with roundTiesToEven (precision 24, infinities at
    exponent 128). *)
Definition fround_SF (x : spec_float) : spec_float :=
  match x with
  | S754_finite s m e => binary_round 24 128 s m e
  | other => other
  end.

Definition sign_bit (s : bool) : Z := if s then 2 ^ 31 else 0.

(** The 32-bit pattern of a binary32 value: sign, biased exponent (8 bits),
    fraction (23 bits). NaN is stored as the quiet NaN [0x7fc00000]. *)
Definition bits_of_b32 (x : spec_float) : Z :=
  match x with
  | S754_zero s => sign_bit s
  | S754_infinity s => sign_bit s + 255 * 2 ^ 23
  | S754_nan => 255 * 2 ^ 23 + 2 ^ 22
  | S754_finite s m e =>
      if Z.pos m <? 2 ^ 23 then sign_bit s + Z.pos m
      else sign_bit s + (e + 150) * 2 ^ 23 + (Z.pos m - 2 ^ 23)
  end%Z.

Definition b32_of_bits (z : Z) : spec_float :=
  let s := Z.testbit z 31 in
  let ex := ((z / 2 ^ 23) mod 256)%Z in
  let mant := (z mod 2 ^ 23)%Z in
  if (ex =? 0)%Z then
    if (mant =? 0)%Z then S754_zero s else S754_finite s (Z.to_pos mant) (-149)
  else if (ex =? 255)%Z then
    if (mant =? 0)%Z then S754_infinity s else S754_nan
  else S754_finite s (Z.to_pos (mant + 2 ^ 23)) (ex - 150).

Definition byte_of_Z (z : Z) : byte :=
  match Byte.of_N (Z.to_N (z mod 256)) with
  | Some b => b
  | None => x00
  end.

Definition Z_of_byte (b : byte) : Z := Z.of_N (Byte.to_N b).

(** Little-endian layout of one element. *)
Definition le_bytes32 (z : Z) : list byte :=
  [ byte_of_Z z; byte_of_Z (z / 2 ^ 8); byte_of_Z (z / 2 ^ 16); byte_of_Z (z / 2 ^ 24) ].

Definition Z_of_le_bytes32 (b0 b1 b2 b3 : byte) : Z :=
  (Z_of_byte b0 + 2 ^ 8 * Z_of_byte b1 + 2 ^ 16 * Z_of_byte b2 + 2 ^ 24 * Z_of_byte b3)%Z.

(** The four bytes one [number] occupies in a [Float32Array]. *)
Definition f32_bytes (x : float) : list byte :=
  le_bytes32 (bits_of_b32 (fround_SF (Prim2SF x))).

(** Reading an element back widens its binary32 value to a [number]. *)
Definition f32_read (b0 b1 b2 b3 : byte) : float :=
  SF2Prim (b32_of_bits (Z_of_le_bytes32 b0 b1 b2 b3)).

(** [Math.fround]: the [number] a value becomes once stored as binary32. *)
Definition fround (x : float) : float := SF2Prim (fround_SF (Prim2SF x)).

(** *** Buffers and typed arrays *)

(** A Node [Buffer] is a view of [byteLength] bytes at [byteOffset] in the
    [ArrayBuffer] [buffer]. *)
Record Buffer := {
  buffer : list byte;
  byteOffset : nat;
  byteLength : nat
}.

Definition wf_Buffer (b : Buffer) : Prop :=
  byteOffset b + byteLength b <= length (buffer b).

(** The bytes the view shows. *)
Definition contents (b : Buffer) : list byte :=
  firstn (byteLength b) (skipn (byteOffset b) (buffer b)).

(** [Buffer.from(arrayBuffer)]: a view of the whole [ArrayBuffer]. *)
Definition Buffer_from (arrayBuffer : list byte) : Buffer :=
  {| buffer := arrayBuffer; byteOffset := 0; byteLength := length arrayBuffer |}.

(** [new Float32Array(vector).buffer] *)
Definition Float32Array_of (vector : list float) : list byte :=
  flat_map f32_bytes vector.

Fixpoint read_elements (n : nat) (bytes : list byte) : list float :=
  match n, bytes with
  | S n', b0 :: b1 :: b2 :: b3 :: rest => f32_read b0 b1 b2 b3 :: read_elements n' rest
  | _, _ => []
  end.

(** [Array.from(new Float32Array(arrayBuffer, byteOffset, length))], where
    [length] has already been truncated to an integer as the constructor
    does. The constructor throws a [RangeError] for a start offset that is
    not a multiple of the element size and for a view that does not fit. *)
Definition Float32Array_view (arrayBuffer : list byte) (byteOffset length : nat)
  : result (list float) :=
  if negb (byteOffset mod 4 =? 0)%nat then
    Throw "start offset of Float32Array should be a multiple of 4"
  else if (List.length arrayBuffer <? byteOffset + 4 * length)%nat then
    Throw ("Invalid typed array length: " +:+ pretty (Z.of_nat length))
  else Ok (read_elements length (skipn byteOffset arrayBuffer)).

Definition BYTES_PER_ELEMENT : nat := 4.

Definition serializeVector (vector : list float) : Buffer :=
  let float32 := Float32Array_of vector in
  Buffer_from float32.

(** [buffer.byteLength / 4] may be fractional; the constructor keeps its
    integer part. *)
Definition deserializeVector (b : Buffer) : result (list float) :=
  Float32Array_view (buffer b) (byteOffset b) (byteLength b / BYTES_PER_ELEMENT).

(** [VectorConfig] *)
Record VectorConfig := { config_dimensions : Z }.

(** The callbacks handed to [customType]. *)
Record CustomType := {
  dataType : VectorConfig -> string;
  toDriver : list float -> Buffer;
  fromDriver : Buffer -> result (list float)
}.

Definition vector : CustomType :=
  {| dataType := fun config => "BLOB";
     toDriver := fun value => serializeVector value;
     fromDriver := fun value => deserializeVector value |}.

Definition vectorType (dimensions : Z) : string :=
  "float[" +:+ pretty dimensions +:+ "]".

(** A binary32 value: canonical significand, exponent within range. *)
Definition valid32 : spec_float -> bool := SpecFloat.valid_binary 24 128.

(** Two [spec_float]s that denote the same number [(-1)^s * m * 2^e]. *)
Definition same_value (a b : spec_float) : Prop :=
  match a, b with
  | S754_zero s, S754_zero s' => s = s'
  | S754_infinity s, S754_infinity s' => s = s'
  | S754_nan, S754_nan => True
  | S754_finite s m e, S754_finite s' m' e' =>
      s = s' /\ (Z.pos m * 2 ^ (e - Z.min e e') = Z.pos m' * 2 ^ (e' - Z.min e e'))%Z
  | _, _ => False
  end.

(** The largest finite binary32 value, [(2^24 - 1) * 2^104]. *)
Definition FLOAT32_MAX : float := 0x1.fffffep+127%float.

(** [2^128 - 2^103], halfway between [FLOAT32_MAX] and [2^128]: the least
    magnitude that roundTiesToEven takes to a binary32 infinity. *)
Definition overflow_threshold : float := 0x1.ffffffp+127%float.

(** [2^-150], half of the least positive binary32 value [2^-149]: the
    greatest magnitude that roundTiesToEven takes to zero. *)
Definition underflow_threshold : float := 0x1p-150%float.

End Vector.

(** ** types.ts: vector construction, validation and distance utilities *)

Module Types.

(** An [unknown] value as [validateVector] inspects it. *)
Inductive jsval :=
| JUndefined
| JNull
| JBoolean (b : bool)
| JNumber (n : float)
| JString (s : string)
| JObject
| JArray (items : list jsval).

(** The message of [typedVector] and [validateVector]; [got] is the length of
    an array, and [`${dimensions}`] is [pretty expected] for a safe integer. *)
Definition dimension_mismatch (expected got : Z) : string :=
  "Vector dimension mismatch: expected " +:+ pretty expected +:+ ", got " +:+ pretty got.

Definition typedVector (dimensions : Z) (values : list float) : result (list float) :=
  if negb (Z.of_nat (length values) =? dimensions)%Z then
    Throw (dimension_mismatch dimensions (Z.of_nat (length values)))
  else Ok values.

(** [for (let i = 0; i < dimensions; i++) values.push(generator(i))] *)
Definition createVector (dimensions : Z) (generator : Z -> float) : list float :=
  map (fun i => generator (Z.of_nat i)) (seq 0 (Z.to_nat dimensions)).

Definition zeroVector (dimensions : Z) : list float :=
  createVector dimensions (fun _ => 0%float).

(** [Math.random()] draws from a source of numbers; [random i] is the draw
    of the [i]-th call, which is the call for index [i]. *)
Definition randomVector (random : Z -> float) (dimensions : Z) : list float :=
  createVector dimensions (fun i => random i).

(** [typeof v === 'number' && !isNaN(v)] *)
Definition valid_number (v : jsval) : bool :=
  match v with
  | JNumber n => negb (is_nan n)
  | _ => false
  end.

Definition validateVector (value : jsval) (dimensions : option Z) : result bool :=
  match value with
  | JArray items =>
      if negb (forallb valid_number items) then
        Throw "Vector must contain only valid numbers"
      else
        match dimensions with
        | Some d =>
            if negb (Z.of_nat (length items) =? d)%Z then
              Throw (dimension_mismatch d (Z.of_nat (length items)))
            else Ok true
        | None => Ok true
        end
  | _ => Throw "Vector must be an array"
  end.

Definition same_dimensions : string := "Vectors must have the same dimensions".

Definition normalizeVector (vector : list float) : list float :=
  let magnitude := sqrt (fold_left (fun sum val => sum + val * val) vector 0)%float in
  if (magnitude =? 0)%float then vector
  else map (fun val => val / magnitude)%float vector.

(** The loops run over [i < a.length] with [a.length = b.length]: they
    visit the pairs [(a[i], b[i])] in order. *)
Definition l2Distance (a b : list float) : result float :=
  if negb (length a =? length b)%nat then Throw same_dimensions
  else
    let sum := fold_left (fun sum '(x, y) => let diff := x - y in sum + diff * diff)%float
                         (combine a b) 0%float in
    Ok (sqrt sum).

Definition cosineSimilarity (a b : list float) : result float :=
  if negb (length a =? length b)%nat then Throw same_dimensions
  else
    let '(dotProduct, normA, normB) :=
      fold_left (fun '(dotProduct, normA, normB) '(x, y) =>
                   (dotProduct + x * y, normA + x * x, normB + y * y))%float
                (combine a b) (0, 0, 0)%float in
    let magnitude := (sqrt normA * sqrt normB)%float in
    Ok (if (magnitude =? 0)%float then 0%float else (dotProduct / magnitude)%float).

Definition cosineDistance (a b : list float) : result float :=
  bind (cosineSimilarity a b) (fun s => Ok (1 - s)%float).

Definition dotProduct (a b : list float) : result float :=
  if negb (length a =? length b)%nat then Throw same_dimensions
  else Ok (fold_left (fun sum '(x, y) => sum + x * y)%float (combine a b) 0%float).

End Types.

(** ** drizzle-orm's [sql] tag, as far as the helpers use it *)

Module Drizzle.

(** A JavaScript value spliced into a template or bound as a parameter:
    the shapes [Vec0ColumnValueType] admits, with [null] and [undefined], and
    [VInherited m], the member [m] of [Object.prototype] that a plain object
    yields for a name it does not own. Such a member is neither an array nor
    an SQL chunk, and is bound as one parameter like any other value. *)
Inductive value :=
| VUndefined
| VNull
| VNumber (n : float)
| VText (s : string)
| VBlob (b : Vector.Buffer)
| VArray (items : list float)
| VInherited (member : string).

Record SQLiteColumn := {
  column_table : string;
  column_name : string
}.

(** A chunk of an [SQL] object: literal text ([StringChunk]), an identifier
    ([Name], from [sql.identifier]), a table column, any other value (bound
    as a parameter when rendered), or a nested [SQL] object. *)
Inductive SQLChunk :=
| StringChunk (text : string)
| Name (identifier : string)
| ColumnChunk (c : SQLiteColumn)
| ValueChunk (v : value)
| SQLChunkOf (chunks : list SQLChunk).

(** [decoder] maps a driver value of the result set; [mapWith] sets it. It
    plays no part in rendering. *)
Record SQL := {
  queryChunks : list SQLChunk;
  decoder : value -> value
}.

Definition noopDecoder : value -> value := fun v => v.

Definition new_SQL (chunks : list SQLChunk) : SQL :=
  {| queryChunks := chunks; decoder := noopDecoder |}.

Definition chunk (q : SQL) : SQLChunk := SQLChunkOf (queryChunks q).

Fixpoint interleave (params : list SQLChunk) (strings : list string) : list SQLChunk :=
  match params, strings with
  | p :: ps, s :: ss => p :: StringChunk s :: interleave ps ss
  | _, _ => []
  end.

(** The template tag: [sql`s0${p0}s1${p1}...sn`] is [sql [s0;...;sn] [p0;...]]. *)
Definition sql (strings : list string) (params : list SQLChunk) : SQL :=
  let head :=
    match strings with
    | s0 :: _ => if (0 <? length params)%nat || negb (String.eqb s0 "") then [StringChunk s0] else []
    | [] => []
    end in
  new_SQL (head ++ interleave params (tl strings)).

Definition sql_raw (str : string) : SQL := new_SQL [StringChunk str].

Definition sql_identifier (name : string) : SQLChunk := Name name.

Fixpoint join_chunks (chunks : list SQLChunk) (separator : SQLChunk) : list SQLChunk :=
  match chunks with
  | [] => []
  | [c] => [c]
  | c :: rest => c :: separator :: join_chunks rest separator
  end.

Definition sql_join (chunks : list SQLChunk) (separator : SQLChunk) : SQL :=
  new_SQL (join_chunks chunks separator).

(** [this.queryChunks.push(...query.queryChunks)] *)
Definition append (this query : SQL) : SQL :=
  {| queryChunks := queryChunks this ++ queryChunks query; decoder := decoder this |}.

Definition mapWith (this : SQL) (decoder : value -> value) : SQL :=
  {| queryChunks := queryChunks this; decoder := decoder |}.

(** A rendered query: text with [?] placeholders and the values bound to
    them, in order. *)
Record Query := {
  text : string;
  params : list value
}.

Definition mergeQueries (queries : list Query) : Query :=
  fold_left (fun result query =>
               {| text := text result +:+ text query;
                  params := params result ++ params query |})
            queries {| text := ""; params := [] |}.

Definition merge2 (q1 q2 : Query) : Query :=
  {| text := text q1 +:+ text q2; params := (params q1 ++ params q2)%list |}.

(** SQLite dialect *)
Definition dquote : string := String "034"%char EmptyString.
Definition escapeName (name : string) : string := dquote +:+ name +:+ dquote.
Definition escapeParam : string := "?".

(** A column renders as its escaped table and column names. *)
Definition columnRef (c : SQLiteColumn) : string :=
  escapeName (column_table c) +:+ "." +:+ escapeName (column_name c).

Definition bound (v : value) : Query := {| text := escapeParam; params := [v] |}.

Fixpoint list_items (items : list float) : list Query :=
  match items with
  | [] => []
  | [x] => [bound (VNumber x)]
  | x :: rest => bound (VNumber x) :: {| text := ", "; params := [] |} :: list_items rest
  end.

(** A spliced value: [undefined] renders as nothing, an array as the
    parenthesised list of its elements, anything else as one parameter. *)
Definition buildValue (v : value) : Query :=
  match v with
  | VUndefined => {| text := ""; params := [] |}
  | VArray items =>
      mergeQueries ({| text := "("; params := [] |} :: list_items items
                      ++ [{| text := ")"; params := [] |}])
  | other => bound other
  end.

(** [buildQueryFromSourceParams], chunk by chunk. *)
Fixpoint buildChunk (c : SQLChunk) : Query :=
  match c with
  | StringChunk s => {| text := s; params := [] |}
  | Name n => {| text := escapeName n; params := [] |}
  | ColumnChunk col => {| text := columnRef col; params := [] |}
  | ValueChunk v => buildValue v
  | SQLChunkOf chunks => mergeQueries (map buildChunk chunks)
  end.

Definition toQuery (q : SQL) : Query :=
  mergeQueries (map buildChunk (queryChunks q)).

End Drizzle.

(** A rendered query is balanced when its text has as many [?] as it binds
    parameters. *)
Definition balanced (q : Drizzle.Query) : Prop :=
  count_char "?" (Drizzle.text q) = length (Drizzle.params q).

(** ** vector.ts: a vector as an SQL parameter *)

Module VectorSql.
Import Drizzle.

(** [sql`${serializeVector(vector)}`] *)
Definition vectorToSql (vector : list float) : SQL :=
  sql [""; ""] [ValueChunk (VBlob (Vector.serializeVector vector))].

End VectorSql.

(** ** query.ts: KNN predicates and vector functions *)

Module Query.
Import Drizzle.

(** [column: string | SQLiteColumn] *)
Inductive ColumnArg :=
| ColumnString (name : string)
| ColumnObject (c : SQLiteColumn).

(** [sql.raw(`${columnName} MATCH ?`).append(sql` AND k = ${k}`).mapWith(() => vectorBuffer)] *)
Definition vectorMatch (column : ColumnArg) (queryVector : list float) (k : float) : SQL :=
  let columnName :=
    match column with
    | ColumnString name => name
    | ColumnObject c => column_name c
    end in
  let vectorBuffer := Vector.serializeVector queryVector in
  mapWith
    (append (sql_raw (columnName +:+ " MATCH ?"))
            (sql [" AND k = "; ""] [ValueChunk (VNumber k)]))
    (fun _ => VBlob vectorBuffer).

(** [sql`${sql.identifier(column)} MATCH ${vectorBuffer} AND k = ${k}`] *)
Definition knnWhere (column : string) (queryVector : list float) (k : float) : SQL :=
  let vectorBuffer := Vector.serializeVector queryVector in
  sql [""; " MATCH "; " AND k = "; ""]
      [sql_identifier column; ValueChunk (VBlob vectorBuffer); ValueChunk (VNumber k)].

(** [SQLiteColumn | number[] | SQL] *)
Inductive VectorOperand :=
| OfColumn (c : SQLiteColumn)
| OfArray (vector : list float)
| OfSQL (q : SQL).

Definition toVectorSql (value : VectorOperand) : SQL :=
  match value with
  | OfArray vector => sql [""; ""] [ValueChunk (VBlob (Vector.serializeVector vector))]
  | OfSQL q => q
  | OfColumn c => sql [""; ""] [ColumnChunk c]
  end.

Definition unary (fn : string) (vec : VectorOperand) : SQL :=
  let v := toVectorSql vec in
  sql [fn +:+ "("; ")"] [chunk v].

Definition binary (fn : string) (vec1 vec2 : VectorOperand) : SQL :=
  let v1 := toVectorSql vec1 in
  let v2 := toVectorSql vec2 in
  sql [fn +:+ "("; ", "; ")"] [chunk v1; chunk v2].

Definition vec_distance_L2 := binary "vec_distance_L2".
Definition vec_distance_cosine := binary "vec_distance_cosine".
Definition vec_length := unary "vec_length".
Definition vec_normalize := unary "vec_normalize".
Definition vec_add := binary "vec_add".
Definition vec_sub := binary "vec_sub".
Definition vec_to_json := unary "vec_to_json".
Definition vec_quantize_i8 := unary "vec_quantize_i8".
Definition vec_quantize_binary := unary "vec_quantize_binary".

Definition vec_slice (vec : VectorOperand) (start end_ : float) : SQL :=
  let v := toVectorSql vec in
  sql ["vec_slice("; ", "; ", "; ")"]
      [chunk v; ValueChunk (VNumber start); ValueChunk (VNumber end_)].


(** [jsonArray: string | SQL] *)
Inductive JsonArrayArg :=
| JsonString (s : string)
| JsonSQL (q : SQL).

Definition vec_f32 (jsonArray : JsonArrayArg) : SQL :=
  sql ["vec_f32("; ")"]
      [match jsonArray with
       | JsonString s => ValueChunk (VText s)
       | JsonSQL q => chunk q
       end].

(** Every member is optional. *)
Record VectorSearchOptions := {
  limit : option float;
  minSimilarity : option float;
  maxDistance : option float;
  metric : option VirtualTable.Metric
}.

(** [options = {}] *)
Definition no_options : VectorSearchOptions :=
  {| limit := None; minSimilarity := None; maxDistance := None; metric := None |}.

(** The line break of the template literals. *)
Definition nl : string := String "010"%char EmptyString.

Definition buildVectorSearchQuery (tableName vectorColumn : string)
           (queryVector : list float) (options : VectorSearchOptions) : SQL :=
  let limit := default 10%float (limit options) in
  let vectorBuffer := Vector.serializeVector queryVector in
  sql [ nl +:+ "    SELECT rowid, distance" +:+ nl +:+ "    FROM ";
        nl +:+ "    WHERE ";
        " MATCH ";
        nl +:+ "      AND k = ";
        nl +:+ "    ORDER BY distance" +:+ nl +:+ "  " ]
      [ sql_identifier tableName; sql_identifier vectorColumn;
        ValueChunk (VBlob vectorBuffer); ValueChunk (VNumber limit) ].

(** [s.replace(/_id$/, '')]: without the [m] flag the pattern matches at the
    end of the string only. *)
Fixpoint replace_id_suffix (s : string) : string :=
  match s with
  | EmptyString => EmptyString
  | String c rest =>
      if String.eqb s "_id" then EmptyString else String c (replace_id_suffix rest)
  end.

(** [joinColumn.replace(/_id$/, '') === joinColumn ? 'id' : joinColumn.replace(/_id$/, '')] *)
Definition joinTarget (joinColumn : string) : string :=
  if String.eqb (replace_id_suffix joinColumn) joinColumn then "id"
  else replace_id_suffix joinColumn.

Definition buildVectorSearchWithJoin (vecTableName dataTableName vectorColumn joinColumn : string)
           (queryVector : list float) (options : VectorSearchOptions) : SQL :=
  let limit := default 10%float (limit options) in
  let vectorBuffer := Vector.serializeVector queryVector in
  sql [ nl +:+ "    SELECT ";
        ".*, vec_results.distance" +:+ nl +:+ "    FROM ";
        nl +:+ "    INNER JOIN (" +:+ nl +:+ "      SELECT rowid, distance" +:+ nl +:+ "      FROM ";
        nl +:+ "      WHERE ";
        " MATCH ";
        nl +:+ "        AND k = ";
        nl +:+ "    ) AS vec_results ON ";
        ".";
        " = vec_results.rowid" +:+ nl +:+ "    ORDER BY vec_results.distance" +:+ nl +:+ "  " ]
      [ sql_identifier dataTableName; sql_identifier dataTableName;
        sql_identifier vecTableName; sql_identifier vectorColumn;
        ValueChunk (VBlob vectorBuffer); ValueChunk (VNumber limit);
        sql_identifier dataTableName; sql_identifier (joinTarget joinColumn) ].

End Query.

(** ** dml.ts: INSERT, UPDATE and DELETE statements for vec0 tables *)

Module Dml.
Import Drizzle VirtualTable.
Local Open Scope list_scope.

(** [values[col.name]] on a plain object whose own properties are [values]:
    an own property wins; a name that is no own property reads as the member
    of [Object.prototype] of that name if there is one, else as [undefined]. *)
Definition get (values : gmap string value) (key : string) : value :=
  match values !! key with
  | Some v => v
  | None => if Js.inherited key then VInherited key else VUndefined
  end.

(** [value !== undefined] *)
Definition defined (v : value) : bool :=
  match v with VUndefined => false | _ => true end.

Definition isVectorColumn (config : Vec0ColumnConfig) : bool :=
  match type config with
  | float_t | int8_t | bit_t => true
  | _ => false
  end.

Definition serializeValue (v : value) (config : Vec0ColumnConfig) : value :=
  match v with
  | VNull | VUndefined => VNull
  | VArray items =>
      if isVectorColumn config then VBlob (Vector.serializeVector items) else v
  | other => other
  end.

(** The declared columns for which [values[col.name] !== undefined]. *)
Definition presentColumns (table : Vec0Table) (values : gmap string value) : list Vec0ColumnConfig :=
  List.filter (fun col => defined (get values (name col))) (columns table).

(** [sql`${serialized}`] *)
Definition value_sql (serialized : value) : SQL :=
  sql [""; ""] [ValueChunk serialized].

Definition no_values_insert := "insertVec0: No values provided for insert".
Definition no_rows_insertMany := "insertManyVec0: No rows provided for insert".
Definition no_values_insertMany := "insertManyVec0: No values provided for insert".
Definition no_values_update := "updateVec0: No values provided for update".

(** [sql`, `] *)
Definition comma : SQLChunk := chunk (sql [", "] []).

Definition insertVec0 (table : Vec0Table) (values : gmap string value) : result SQL :=
  let '(columns, sqlValues) :=
    fold_left
      (fun '(columns, sqlValues) col =>
         let value := get values (name col) in
         if defined value then
           (columns ++ [name col],
            sqlValues ++ [value_sql (serializeValue value col)])
         else (columns, sqlValues))
      (columns table) ([], []) in
  if (length columns =? 0)%nat then Throw no_values_insert
  else
    let columnList := sql_join (map sql_identifier columns) comma in
    let valueList := sql_join (map chunk sqlValues) comma in
    Ok (sql ["INSERT INTO "; " ("; ") VALUES ("; ")"]
            [sql_identifier (table_name table); chunk columnList; chunk valueList]).

Definition insertManyVec0 (table : Vec0Table) (rows : list (gmap string value)) : result SQL :=
  match rows with
  | [] => Throw no_rows_insertMany
  | firstRow :: _ =>
      let '(columns, columnConfigs) :=
        fold_left
          (fun '(columns, columnConfigs) col =>
             if defined (get firstRow (name col)) then
               (columns ++ [name col], columnConfigs ++ [col])
             else (columns, columnConfigs))
          (VirtualTable.columns table) ([], []) in
      if (length columns =? 0)%nat then Throw no_values_insertMany
      else
        let columnList := sql_join (map sql_identifier columns) comma in
        let valueSets :=
          map (fun row =>
                 let sqlValues :=
                   map (fun col =>
                          let value := get row (name col) in
                          let serialized := serializeValue value col in
                          value_sql serialized)
                       columnConfigs in
                 sql ["("; ")"] [chunk (sql_join (map chunk sqlValues) comma)])
              rows in
        Ok (sql ["INSERT INTO "; " ("; ") VALUES "; ""]
                [sql_identifier (table_name table); chunk columnList;
                 chunk (sql_join (map chunk valueSets) comma)])
  end.

(** [Vec0WhereCondition = number | SQL] *)
Inductive Vec0WhereCondition :=
| WhereRowid (rowid : float)
| WhereSQL (condition : SQL).

Definition whereClause (where_ : Vec0WhereCondition) : SQL :=
  match where_ with
  | WhereRowid n => sql ["rowid = "; ""] [ValueChunk (VNumber n)]
  | WhereSQL q => q
  end.

Definition deleteVec0 (table : Vec0Table) (where_ : Vec0WhereCondition) : SQL :=
  sql ["DELETE FROM "; " WHERE "; ""]
      [sql_identifier (table_name table); chunk (whereClause where_)].

Definition updateVec0 (table : Vec0Table) (values : gmap string value)
           (where_ : Vec0WhereCondition) : result SQL :=
  let setClauses :=
    fold_left
      (fun setClauses col =>
         let value := get values (name col) in
         if defined value then
           setClauses ++ [sql [""; " = "; ""]
                              [sql_identifier (name col);
                               ValueChunk (serializeValue value col)]]
         else setClauses)
      (columns table) [] in
  if (length setClauses =? 0)%nat then Throw no_values_update
  else
    let setClause := sql_join (map chunk setClauses) comma in
    Ok (sql ["UPDATE "; " SET "; " WHERE "; ""]
            [sql_identifier (table_name table); chunk setClause;
             chunk (whereClause where_)]).

End Dml.

(** * Properties *)

(** ** Strings *)

Section StringFacts.

Lemma append_empty_r (s : string) : s +:+ "" = s.
Proof. induction s as [|a s IH]; simpl; [reflexivity | now rewrite IH]. Qed.

Lemma append_assoc (a b c : string) : (a +:+ b) +:+ c = a +:+ (b +:+ c).
Proof. induction a as [|x a IH]; simpl; [reflexivity | now rewrite IH]. Qed.

Lemma starts_with_append (pat rest : string) : starts_with pat (pat +:+ rest) = true.
Proof.
  induction pat as [|a pat IH]; simpl; [reflexivity |].
  now rewrite Ascii.eqb_refl, IH.
Qed.

Lemma includes_starts_with (pat s : string) :
  starts_with pat s = true -> includes pat s = true.
Proof. intros H. destruct s; simpl in *; rewrite H; reflexivity. Qed.

Lemma includes_append_l (pat before s : string) :
  includes pat s = true -> includes pat (before +:+ s) = true.
Proof.
  intros H. induction before as [|a before IH]; simpl; [exact H |].
  rewrite IH. apply orb_true_r.
Qed.

(** A pattern placed anywhere in a string is found there. *)
Lemma includes_middle (pat before after : string) :
  includes pat (before +:+ pat +:+ after) = true.
Proof. apply includes_append_l, includes_starts_with, starts_with_append. Qed.

Lemma has_char_append (c : ascii) (a b : string) :
  has_char c (a +:+ b) = has_char c a || has_char c b.
Proof.
  induction a as [|x a IH]; simpl; [reflexivity |].
  rewrite IH. apply orb_assoc.
Qed.

Lemma starts_with_has_char (c : ascii) (pat s : string) :
  has_char c pat = true -> starts_with pat s = true -> has_char c s = true.
Proof.
  revert s. induction pat as [|p pat IH]; intros s Hc H; simpl in *; [discriminate |].
  destruct s as [|a s]; [discriminate |].
  apply andb_true_iff in H as [Hpa H]. apply Ascii.eqb_eq in Hpa as ->.
  simpl. apply orb_true_iff in Hc as [Hc | Hc].
  - now rewrite Hc.
  - rewrite (IH s Hc H). apply orb_true_r.
Qed.

(** A string that contains a pattern contains the pattern's characters. *)
Lemma includes_has_char (c : ascii) (pat s : string) :
  has_char c pat = true -> includes pat s = true -> has_char c s = true.
Proof.
  intros Hc. induction s as [|a s IH]; intros H.
  - simpl in H. rewrite orb_false_r in H. exact (starts_with_has_char c pat "" Hc H).
  - cbn [includes] in H. apply orb_true_iff in H as [H | H].
    + exact (starts_with_has_char c pat _ Hc H).
    + simpl. rewrite (IH H). apply orb_true_r.
Qed.

Lemma not_includes_without_char (c : ascii) (pat s : string) :
  has_char c pat = true -> has_char c s = false -> includes pat s = false.
Proof.
  intros Hc Hs. destruct (includes pat s) eqn:E; [| reflexivity].
  rewrite (includes_has_char c pat s Hc E) in Hs. discriminate.
Qed.

(** A pattern inside one item of a joined list occurs in the whole text. *)
Lemma includes_in_join (pat head tail sep open close : string) (before after : list string) :
  includes pat (open +:+ join sep (before ++ (head +:+ pat +:+ tail) :: after) +:+ close) = true.
Proof.
  assert (H : exists l r, join sep (before ++ (head +:+ pat +:+ tail) :: after) = l +:+ pat +:+ r).
  { induction before as [|x before IH].
    - destruct after as [|y after].
      + exists head, tail. reflexivity.
      + exists head, (tail +:+ sep +:+ join sep (y :: after)).
        cbn [app join]. now rewrite !append_assoc.
    - destruct IH as (l & r & IH).
      exists (x +:+ sep +:+ l), r.
      destruct before; cbn [app join] in *; rewrite IH; now rewrite !append_assoc. }
  destruct H as (l & r & ->).
  replace (open +:+ (l +:+ pat +:+ r) +:+ close) with ((open +:+ l) +:+ pat +:+ (r +:+ close))
    by now rewrite !append_assoc.
  apply includes_middle.
Qed.

End StringFacts.

(** ** The schema builder *)

Section SchemaFacts.
Import VirtualTable.

Lemma columnDef_falsy_dimensions (col : Vec0ColumnConfig) :
  isVectorType (type col) = true ->
  truthy_dimensions (dimensions col) = None ->
  columnDef col = name col.
Proof.
  unfold columnDef. intros Hty ->.
  destruct (type col); simpl in Hty; try discriminate; reflexivity.
Qed.

Lemma columnDef_vector (ty : ColumnType) (cname : string) (d : Z) :
  isVectorType ty = true -> d <> 0%Z ->
  columnDef (Vec0ColumnBuilder.new cname ty (Some d))
  = cname +:+ " " +:+ typeName ty +:+ "[" +:+ pretty d +:+ "]".
Proof.
  intros Hty Hd. unfold columnDef, Vec0ColumnBuilder.new; simpl.
  destruct d; [congruence | |];
    destruct ty; simpl in Hty; try discriminate; simpl;
    rewrite ?append_empty_r; reflexivity.
Qed.

End SchemaFacts.

(** C8. [vec0Table "items_vec" {id: vecInteger('id').primaryKey(),
    embedding: vecFloat('embedding', 128)}] renders exactly the documented
    CREATE VIRTUAL TABLE statement, and [dropSQL] of every table definition is
    [DROP TABLE IF EXISTS <name>]. *)
Theorem C8_create_and_drop_sql :
  VirtualTable.createSQL
    (VirtualTable.vec0Table "items_vec"
       [ ("id", VirtualTable.Vec0ColumnBuilder.primaryKey (VirtualTable.vecInteger "id"));
         ("embedding", VirtualTable.vecFloat "embedding" 128) ])
  = "CREATE VIRTUAL TABLE IF NOT EXISTS items_vec USING vec0(id integer primary key, embedding float[128])"
  /\ forall (name : string) (columns : list (string * VirtualTable.Vec0ColumnBuilder.t)),
       VirtualTable.dropSQL (VirtualTable.vec0Table name columns)
       = "DROP TABLE IF EXISTS " +:+ name.
Proof.
  split; [vm_compute; reflexivity | intros name columns; reflexivity].
Qed.

(** ** Brackets in the rendered DDL

    A bracket of the DDL comes from a name or from a dimensioned vector type,
    where a non-zero number follows it. *)

Section BracketFacts.

Lemma bracket_zero_append (b : bool) (s1 s2 : string) :
  bracket_zero b (s1 +:+ s2) = bracket_zero b s1 || bracket_zero (after_bracket b s1) s2.
Proof.
  revert b. induction s1 as [|c s1 IH]; intros b; simpl; [reflexivity |].
  rewrite IH. now rewrite orb_assoc.
Qed.

Lemma after_bracket_append (b : bool) (s1 s2 : string) :
  after_bracket b (s1 +:+ s2) = after_bracket (after_bracket b s1) s2.
Proof. revert b. induction s1 as [|c s1 IH]; intros b; simpl; [reflexivity | apply IH]. Qed.

Lemma starts_with_bracket_zero (s : string) (b : bool) :
  starts_with "float[0]" s = true -> bracket_zero b s = true.
Proof.
  intros H.
  do 8 (destruct s as [|? s]; [discriminate H |];
        cbn [starts_with] in H; apply andb_true_iff in H as [E H];
        apply Ascii.eqb_eq in E; subst).
  simpl. now rewrite !orb_true_r.
Qed.

Lemma includes_bracket_zero (s : string) (b : bool) :
  includes "float[0]" s = true -> bracket_zero b s = true.
Proof.
  revert b. induction s as [|c s IH]; intros b H.
  - discriminate H.
  - cbn [includes] in H. apply orb_true_iff in H as [H | H].
    + now apply starts_with_bracket_zero.
    + cbn [bracket_zero]. rewrite (IH _ H). apply orb_true_r.
Qed.

Lemma settled_append (s1 s2 : string) : settled s1 -> settled s2 -> settled (s1 +:+ s2).
Proof.
  intros [H1 A1] [H2 A2]. split.
  - now rewrite bracket_zero_append, H1, A1, H2.
  - now rewrite after_bracket_append, A1, A2.
Qed.

Lemma settled_free (s : string) : has_char "["%char s = false -> settled s.
Proof.
  induction s as [|c s IH]; intros H; [split; reflexivity |].
  simpl in H. apply orb_false_iff in H as [Hc Hs].
  destruct (IH Hs) as [H1 H2]. split; simpl; now rewrite Hc.
Qed.

Lemma settled_bracketed (lit n rest : string) :
  bracket_zero false lit = false -> numeral n -> settled rest ->
  settled (lit +:+ n +:+ rest).
Proof.
  intros Hl Hn [Hr Ar]. split.
  - rewrite !bracket_zero_append, Hl.
    destruct (Hn (after_bracket false lit)) as [-> ->]. now rewrite Hr.
  - rewrite !after_bracket_append.
    destruct (Hn (after_bracket false lit)) as [_ ->]. exact Ar.
Qed.

Lemma numeral_intro (c : ascii) (rest : string) :
  Ascii.eqb c "0" = false -> Ascii.eqb c "[" = false -> has_char "["%char rest = false ->
  numeral (String c rest).
Proof.
  intros H0 Hb Hrest b. destruct (settled_free rest Hrest) as [H1 H2].
  simpl. rewrite H0, Hb, H1, H2. now rewrite andb_false_r.
Qed.

Lemma pretty_N_char_free (x : N) : Ascii.eqb (pretty_N_char x) "[" = false.
Proof. unfold pretty_N_char. repeat case_match; reflexivity. Qed.

Lemma pretty_N_go_shape (x : N) (s : string) :
  (0 < x)%N ->
  exists c rest, pretty_N_go x s = String c (rest +:+ s)
                 /\ Ascii.eqb c "0" = false /\ Ascii.eqb c "[" = false
                 /\ has_char "["%char rest = false.
Proof.
  revert s. induction (N.lt_wf_0 x) as [x _ IH]; intros s Hx.
  rewrite pretty_N_go_step by exact Hx.
  destruct (N.eq_0_gt_0_cases (x `div` 10)%N) as [Hz | Hp].
  - rewrite Hz, pretty_N_go_0.
    exists (pretty_N_char (x `mod` 10)), "". split; [reflexivity |].
    split; [| split; [apply pretty_N_char_free | reflexivity]].
    assert (Hlt : (x < 10)%N) by (apply N.div_small_iff in Hz; lia).
    rewrite N.mod_small by exact Hlt.
    assert (x = 1 \/ x = 2 \/ x = 3 \/ x = 4 \/ x = 5 \/ x = 6 \/ x = 7 \/ x = 8 \/ x = 9)%N
      as Hc by lia.
    repeat (destruct Hc as [-> | Hc]; [reflexivity |]). now subst.
  - destruct (IH (x `div` 10)%N (N.div_lt x 10 Hx eq_refl)
                (String (pretty_N_char (x `mod` 10)) s) Hp)
      as (c & rest & -> & H0 & Hb & Hrest).
    exists c, (rest +:+ String (pretty_N_char (x `mod` 10)) "").
    split; [| split; [exact H0 | split; [exact Hb |]]].
    + f_equal. now rewrite append_assoc.
    + rewrite has_char_append, Hrest. simpl. now rewrite pretty_N_char_free.
Qed.

Lemma numeral_pretty (d : Z) : d <> 0%Z -> numeral (pretty d).
Proof.
  intros Hd. destruct d as [| p | p]; [congruence | |].
  - change (pretty (Z.pos p)) with (pretty (N.pos p)).
    unfold pretty, pretty_N. destruct (decide (N.pos p = 0%N)) as [E | _]; [discriminate E |].
    destruct (pretty_N_go_shape (N.pos p) "" eq_refl) as (c & rest & -> & H0 & Hb & Hrest).
    rewrite append_empty_r. now apply numeral_intro.
  - change (pretty (Z.neg p)) with ("-" +:+ pretty (N.pos p)).
    unfold pretty, pretty_N. destruct (decide (N.pos p = 0%N)) as [E | _]; [discriminate E |].
    destruct (pretty_N_go_shape (N.pos p) "" eq_refl) as (c & rest & -> & H0 & Hb & Hrest).
    rewrite append_empty_r. apply numeral_intro; [reflexivity | reflexivity |].
    simpl. rewrite Hrest. now rewrite Hb.
Qed.

Lemma settled_join (sep : string) (parts : list string) :
  settled sep -> Forall settled parts -> settled (join sep parts).
Proof.
  intros Hsep Hall. induction Hall as [| p parts Hp Hall IH]; [split; reflexivity |].
  destruct parts as [| q parts]; [exact Hp |].
  change (join sep (p :: q :: parts)) with (p +:+ sep +:+ join sep (q :: parts)).
  auto using settled_append.
Qed.

Import VirtualTable.

Lemma truthy_nonzero (d : Z) : d <> 0%Z -> truthy_dimensions (Some d) = Some d.
Proof. destruct d; [congruence | reflexivity | reflexivity]. Qed.

Lemma settled_literal (s : string) :
  bracket_zero false s = false -> after_bracket false s = false -> settled s.
Proof. now split. Qed.

Lemma settled_columnDef (col : Vec0ColumnConfig) :
  has_char "["%char (name col) = false -> settled (columnDef col).
Proof.
  intros Hname. apply settled_free in Hname.
  assert (Hsuffix : settled (metricSuffix col)).
  { unfold metricSuffix. destruct (distanceMetric col) as [[|] |]; split; reflexivity. }
  assert (Hvec : forall lit d rest, bracket_zero false lit = false -> d <> 0%Z -> settled rest ->
            settled (name col +:+ lit +:+ pretty d +:+ rest)).
  { intros lit d rest Hlit Hd Hrest. apply settled_append; [exact Hname |].
    apply settled_bracketed; [exact Hlit | now apply numeral_pretty | exact Hrest]. }
  unfold columnDef.
  destruct (dimensions col) as [d |]; [destruct (Z.eq_dec d 0%Z) as [-> | Hd] |];
    rewrite ?(truthy_nonzero _ Hd); cbn [truthy_dimensions];
    destruct (type col); try exact Hname;
    try (apply Hvec; [reflexivity | exact Hd |]);
    try (apply settled_append; [exact Hname |]);
    try (apply settled_append; [now apply settled_literal |]);
    try exact Hsuffix;
    try (destruct (primaryKey col)); now apply settled_literal.
Qed.

Lemma createSQL_without_float_zero (t : Vec0Table) :
  has_char "["%char (table_name t) = false ->
  Forall (fun col => has_char "["%char (name col) = false) (columns t) ->
  includes "float[0]" (createSQL t) = false.
Proof.
  intros Ht Hcols.
  assert (Hs : settled (createSQL t)).
  { unfold createSQL.
    apply settled_append; [split; reflexivity |].
    apply settled_append; [now apply settled_free |].
    apply settled_append; [split; reflexivity |].
    apply settled_append; [| split; reflexivity].
    apply settled_join; [split; reflexivity |].
    apply Forall_map. induction Hcols; constructor; auto using settled_columnDef. }
  destruct (includes "float[0]" (createSQL t)) eqn:E; [| reflexivity].
  destruct Hs as [Hs _]. rewrite (includes_bracket_zero _ false E) in Hs. discriminate Hs.
Qed.

End BracketFacts.

(** C4. For a vector column of any kind (float, int8, bit), at any position
    of the table and whatever modifiers were called on its builder, a
    dimension of 0 is falsy: the column renders as its bare name. The DDL of
    a table whose name and column names hold no bracket never contains
    [float[0]], whatever the columns and their dimensions. A negative
    dimension (a safe integer) is rendered verbatim inside the brackets,
    followed by the distance metric if one is set (never for a bit column),
    and [float[-4]] appears for [vecFloat] with dimension -4. [createSQL] is a
    total function: nothing is raised. *)
Theorem C4_zero_and_negative_dimensions
  (tname key cname : string)
  (before after : list (string * VirtualTable.Vec0ColumnBuilder.t))
  (pk : bool) (metric : option VirtualTable.Metric) (d : Z) :
  (d < 0)%Z ->
  Js.isSafeInteger d = true ->
  let modified (b : VirtualTable.Vec0ColumnBuilder.t) :=
    let b := if pk then VirtualTable.Vec0ColumnBuilder.primaryKey b else b in
    match metric with
    | Some m => VirtualTable.Vec0ColumnBuilder.distanceMetric m b
    | None => b
    end in
  let ddl (b : VirtualTable.Vec0ColumnBuilder.t) :=
    VirtualTable.createSQL
      (VirtualTable.vec0Table tname (before ++ (key, modified b) :: after)) in
  let others (cols : list (string * VirtualTable.Vec0ColumnBuilder.t)) :=
    map VirtualTable.columnDef (VirtualTable.columns (VirtualTable.vec0Table tname cols)) in
  let around (def : string) :=
    "CREATE VIRTUAL TABLE IF NOT EXISTS " +:+ tname +:+ " USING vec0("
      +:+ join ", " (others before ++ def :: others after) +:+ ")" in
  let shown := if String.eqb cname "" then key else cname in
  let suffix :=
    match metric with
    | Some m => " distance_metric=" +:+ VirtualTable.metricName m
    | None => ""
    end in
  (forall col, VirtualTable.isVectorType (VirtualTable.type col) = true ->
               VirtualTable.dimensions col = Some 0%Z ->
               VirtualTable.columnDef col = VirtualTable.name col)
  /\ ddl (VirtualTable.vecFloat cname 0) = around shown
  /\ ddl (VirtualTable.vecInt8 cname 0) = around shown
  /\ ddl (VirtualTable.vecBit cname 0) = around shown
  /\ (has_char "["%char (around shown) = false ->
      includes "float[0]" (ddl (VirtualTable.vecFloat cname 0)) = false
      /\ includes "float[0]" (ddl (VirtualTable.vecInt8 cname 0)) = false
      /\ includes "float[0]" (ddl (VirtualTable.vecBit cname 0)) = false)
  /\ (forall t : VirtualTable.Vec0Table,
        has_char "["%char (VirtualTable.table_name t) = false ->
        Forall (fun col => has_char "["%char (VirtualTable.name col) = false)
               (VirtualTable.columns t) ->
        includes "float[0]" (VirtualTable.createSQL t) = false)
  /\ ddl (VirtualTable.vecFloat cname d)
     = around (shown +:+ " float[" +:+ pretty d +:+ "]" +:+ suffix)
  /\ ddl (VirtualTable.vecInt8 cname d)
     = around (shown +:+ " int8[" +:+ pretty d +:+ "]" +:+ suffix)
  /\ ddl (VirtualTable.vecBit cname d)
     = around (shown +:+ " bit[" +:+ pretty d +:+ "]")
  /\ ddl (VirtualTable.vecFloat cname (-4)) = around (shown +:+ " float[-4]" +:+ suffix)
  /\ includes "float[-4]" (ddl (VirtualTable.vecFloat cname (-4))) = true.
Proof.
  intros Hd Hsafe modified ddl others around shown suffix.
  assert (Hddl : forall b, ddl b
            = around (VirtualTable.columnDef
                        (VirtualTable.named key (VirtualTable.Vec0ColumnBuilder.build (modified b))))).
  { intros b. unfold ddl, around, others, VirtualTable.createSQL, VirtualTable.vec0Table.
    cbn [VirtualTable.columns VirtualTable.table_name].
    now rewrite !map_app, !map_cons. }
  assert (Hzero : forall ty, VirtualTable.isVectorType ty = true ->
            VirtualTable.columnDef
              (VirtualTable.named key
                 (VirtualTable.Vec0ColumnBuilder.build
                    (modified (VirtualTable.Vec0ColumnBuilder.new cname ty (Some 0%Z)))))
            = shown).
  { intros ty Hty. rewrite columnDef_falsy_dimensions.
    - unfold shown, modified. destruct pk, metric, cname; reflexivity.
    - unfold modified. destruct pk, metric, cname; exact Hty.
    - unfold modified. destruct pk, metric, cname; reflexivity. }
  assert (Hneg : forall ty e, VirtualTable.isVectorType ty = true -> (e < 0)%Z ->
            VirtualTable.columnDef
              (VirtualTable.named key
                 (VirtualTable.Vec0ColumnBuilder.build
                    (modified (VirtualTable.Vec0ColumnBuilder.new cname ty (Some e)))))
            = shown +:+ " " +:+ VirtualTable.typeName ty +:+ "[" +:+ pretty e +:+ "]"
                +:+ (match ty with VirtualTable.bit_t => "" | _ => suffix end)).
  { intros ty e Hty He. unfold shown, suffix, modified.
    destruct e as [| e | e]; [lia | lia |].
    destruct ty; try discriminate Hty;
      destruct pk, metric, cname; cbn; rewrite ?append_empty_r; reflexivity. }
  assert (Hfloat0 : ddl (VirtualTable.vecFloat cname 0) = around shown)
    by (rewrite Hddl; unfold VirtualTable.vecFloat; now rewrite Hzero).
  assert (Hint0 : ddl (VirtualTable.vecInt8 cname 0) = around shown)
    by (rewrite Hddl; unfold VirtualTable.vecInt8; now rewrite Hzero).
  assert (Hbit0 : ddl (VirtualTable.vecBit cname 0) = around shown)
    by (rewrite Hddl; unfold VirtualTable.vecBit; now rewrite Hzero).
  assert (Hfour : ddl (VirtualTable.vecFloat cname (-4)) = around (shown +:+ " float[-4]" +:+ suffix)).
  { rewrite Hddl. unfold VirtualTable.vecFloat. rewrite Hneg by (reflexivity || lia).
    reflexivity. }
  split; [| split; [| split; [| split; [| split; [| split; [| split; [| split; [| split; [| split]]]]]]]]].
  - intros col Hty Hdim. apply columnDef_falsy_dimensions; [exact Hty | now rewrite Hdim].
  - exact Hfloat0.
  - exact Hint0.
  - exact Hbit0.
  - intros Hfree. rewrite Hfloat0, Hint0, Hbit0.
    repeat split; apply (not_includes_without_char "["%char); solve [reflexivity | exact Hfree].
  - exact createSQL_without_float_zero.
  - rewrite Hddl. unfold VirtualTable.vecFloat. rewrite Hneg by (reflexivity || lia).
    reflexivity.
  - rewrite Hddl. unfold VirtualTable.vecInt8. rewrite Hneg by (reflexivity || lia).
    reflexivity.
  - rewrite Hddl. unfold VirtualTable.vecBit. rewrite Hneg by (reflexivity || lia).
    now rewrite append_empty_r.
  - exact Hfour.
  - rewrite Hfour.
    replace (around (shown +:+ " float[-4]" +:+ suffix))
      with (("CREATE VIRTUAL TABLE IF NOT EXISTS " +:+ tname +:+ " USING vec0(")
              +:+ join ", " (others before ++ ((shown +:+ " ") +:+ "float[-4]" +:+ suffix)
                                             :: others after) +:+ ")").
    + apply includes_in_join.
    + unfold around. rewrite !append_assoc. reflexivity.
Qed.

Lemma C4_witness :
  VirtualTable.createSQL
    (VirtualTable.vec0Table "neg_test"
       [ ("id", VirtualTable.Vec0ColumnBuilder.primaryKey (VirtualTable.vecInteger "id"));
         ("embedding",
          VirtualTable.Vec0ColumnBuilder.distanceMetric VirtualTable.cosine
            (VirtualTable.vecInt8 "embedding" (-4)));
         ("title", VirtualTable.vecText "title") ])
  = "CREATE VIRTUAL TABLE IF NOT EXISTS neg_test USING vec0(id integer primary key, embedding int8[-4] distance_metric=cosine, title text)"
  /\ VirtualTable.createSQL
       (VirtualTable.vec0Table "neg_test"
          [ ("id", VirtualTable.Vec0ColumnBuilder.primaryKey (VirtualTable.vecInteger "id"));
            ("embedding",
             VirtualTable.Vec0ColumnBuilder.distanceMetric VirtualTable.cosine
               (VirtualTable.vecBit "embedding" (-4)));
            ("title", VirtualTable.vecText "title") ])
     = "CREATE VIRTUAL TABLE IF NOT EXISTS neg_test USING vec0(id integer primary key, embedding bit[-4], title text)"
  /\ includes "float[0]"
       (VirtualTable.createSQL
          (VirtualTable.vec0Table "neg_test"
             [ ("id", VirtualTable.Vec0ColumnBuilder.primaryKey (VirtualTable.vecInteger "id"));
               ("embedding",
                VirtualTable.Vec0ColumnBuilder.distanceMetric VirtualTable.cosine
                  (VirtualTable.vecFloat "embedding" 0));
               ("title", VirtualTable.vecText "title") ])) = false.
Proof.
  pose proof (C4_zero_and_negative_dimensions "neg_test" "embedding" "embedding"
                [("id", VirtualTable.Vec0ColumnBuilder.primaryKey (VirtualTable.vecInteger "id"))]
                [("title", VirtualTable.vecText "title")]
                false (Some VirtualTable.cosine) (-4)%Z eq_refl eq_refl) as H.
  cbv zeta in H. destruct H as (_ & _ & _ & _ & _ & Hno & _ & Hint & Hbit & _).
  split; [exact Hint | split; [exact Hbit |]].
  apply Hno; [reflexivity | repeat constructor].
Defined.

(** ** Distance utilities and validation *)

Section TypesFacts.
Import Types.

Lemma length_differs (a b : list float) :
  length a <> length b -> negb (length a =? length b)%nat = true.
Proof. intros H. apply negb_true_iff, Nat.eqb_neq, H. Qed.

Lemma valid_number_spec (v : jsval) :
  valid_number v = true <-> exists n, v = JNumber n /\ is_nan n = false.
Proof.
  split.
  - destruct v; simpl; try discriminate.
    intros H. exists n. split; [reflexivity | now apply negb_true_iff].
  - intros (n & -> & H). simpl. now rewrite H.
Qed.

Lemma forallb_invalid (items : list jsval) (x : jsval) :
  In x items -> valid_number x = false -> forallb valid_number items = false.
Proof.
  intros Hin Hx. destruct (forallb valid_number items) eqn:E; [| reflexivity].
  rewrite forallb_forall in E. rewrite (E x Hin) in Hx. discriminate.
Qed.

End TypesFacts.

(** C9. [l2Distance], [cosineSimilarity], [cosineDistance] and [dotProduct]
    throw "Vectors must have the same dimensions" whenever their operands
    differ in length, and [typedVector] throws "Vector dimension mismatch:
    expected d, got n" whenever the length [n] of its values differs from
    [d], where [d] is printed in decimal when it is a safe integer. *)
Theorem C9_dimension_mismatch_throws
  (a b values : list float) (dimensions : Z) :
  (length a <> length b ->
     Types.l2Distance a b = Throw "Vectors must have the same dimensions"
     /\ Types.cosineSimilarity a b = Throw "Vectors must have the same dimensions"
     /\ Types.cosineDistance a b = Throw "Vectors must have the same dimensions"
     /\ Types.dotProduct a b = Throw "Vectors must have the same dimensions")
  /\ (Z.of_nat (length values) <> dimensions ->
        throws (Types.typedVector dimensions values)
        /\ exists shown,
             Types.typedVector dimensions values
             = Throw ("Vector dimension mismatch: expected " +:+ shown
                        +:+ ", got " +:+ pretty (Z.of_nat (length values)))
             /\ (Js.isSafeInteger dimensions = true -> shown = pretty dimensions)).
Proof.
  split.
  - intros Hlen. apply length_differs in Hlen.
    unfold Types.cosineDistance, Types.l2Distance, Types.cosineSimilarity, Types.dotProduct.
    rewrite Hlen. repeat split; reflexivity.
  - intros Hdim. unfold Types.typedVector.
    apply Z.eqb_neq in Hdim. rewrite Hdim. cbn [negb].
    split; [eexists; reflexivity |].
    exists (pretty dimensions). split; reflexivity.
Qed.

Lemma C9_witness :
  Types.l2Distance [1; 2]%float [1; 2; 3]%float = Throw "Vectors must have the same dimensions"
  /\ Types.typedVector 4 [1; 2; 3]%float = Throw "Vector dimension mismatch: expected 4, got 3".
Proof.
  destruct (C9_dimension_mismatch_throws [1; 2]%float [1; 2; 3]%float [1; 2; 3]%float 4)
    as [Hdist Htyped].
  split.
  - apply Hdist. simpl. lia.
  - destruct Htyped as [_ (shown & Hthrow & Hshown)]; [simpl; lia |].
    rewrite Hthrow, (Hshown eq_refl). reflexivity.
Defined.

(** C10. [validateVector] throws "Vector must be an array" for every
    non-array; for an array it throws "Vector must contain only valid
    numbers" as soon as one element is not a number or is NaN; for an array of
    valid numbers it throws the dimension mismatch when [dimensions] is given
    and differs from the length (any array of another length throws), with
    the expected dimension printed in decimal when it is a safe integer, and
    returns [true] otherwise. A number is rejected exactly when it is NaN, so
    both infinities are accepted. *)
Theorem C10_validateVector (value : Types.jsval) (dimensions : option Z) :
  ((forall items, value <> Types.JArray items) ->
     Types.validateVector value dimensions = Throw "Vector must be an array")
  /\ (forall items x,
        value = Types.JArray items -> In x items -> Types.valid_number x = false ->
        Types.validateVector value dimensions = Throw "Vector must contain only valid numbers")
  /\ (forall items d,
        value = Types.JArray items -> forallb Types.valid_number items = true ->
        dimensions = Some d -> Z.of_nat (length items) <> d ->
        exists shown,
          Types.validateVector value dimensions
          = Throw ("Vector dimension mismatch: expected " +:+ shown
                     +:+ ", got " +:+ pretty (Z.of_nat (length items)))
          /\ (Js.isSafeInteger d = true -> shown = pretty d))
  /\ (forall items d,
        value = Types.JArray items -> dimensions = Some d -> Z.of_nat (length items) <> d ->
        throws (Types.validateVector value dimensions))
  /\ (forall items,
        value = Types.JArray items -> forallb Types.valid_number items = true ->
        (dimensions = None \/ dimensions = Some (Z.of_nat (length items))) ->
        Types.validateVector value dimensions = Ok true)
  /\ (forall n, Types.valid_number (Types.JNumber n) = negb (is_nan n))
  /\ Types.valid_number (Types.JNumber infinity) = true
  /\ Types.valid_number (Types.JNumber neg_infinity) = true
  /\ (forall v, (forall n, v <> Types.JNumber n) -> Types.valid_number v = false).
Proof.
  repeat split.
  - intros Hna. destruct value; try reflexivity. now elim (Hna items).
  - intros items x -> Hin Hx. simpl.
    now rewrite (forallb_invalid items x Hin Hx).
  - intros items d -> Hall -> Hd. simpl. rewrite Hall. simpl.
    apply Z.eqb_neq in Hd. rewrite Hd.
    exists (pretty d). split; reflexivity.
  - intros items d -> -> Hd. simpl. apply Z.eqb_neq in Hd. rewrite Hd.
    destruct (forallb Types.valid_number items); simpl; eexists; reflexivity.
  - intros items -> Hall [-> | ->]; simpl; rewrite Hall; simpl; [reflexivity |].
    now rewrite Z.eqb_refl.
  - intros v Hv. destruct v; try reflexivity. now elim (Hv n).
Qed.

Lemma C10_witness :
  Types.validateVector (Types.JString "not an array") None = Throw "Vector must be an array"
  /\ Types.validateVector
       (Types.JArray [Types.JNumber 1; Types.JString "two"; Types.JNumber 3]) None
     = Throw "Vector must contain only valid numbers"
  /\ Types.validateVector (Types.JArray [Types.JNumber 1; Types.JNumber 2]) (Some 3%Z)
     = Throw "Vector dimension mismatch: expected 3, got 2"
  /\ Types.validateVector (Types.JArray [Types.JNumber infinity; Types.JNumber neg_infinity])
       (Some 2%Z) = Ok true.
Proof.
  split; [| split; [| split]].
  - apply (C10_validateVector (Types.JString "not an array") None). discriminate.
  - destruct (C10_validateVector
                (Types.JArray [Types.JNumber 1; Types.JString "two"; Types.JNumber 3]) None)
      as (_ & H & _).
    apply (H _ (Types.JString "two") eq_refl); [simpl; tauto | reflexivity].
  - destruct (C10_validateVector (Types.JArray [Types.JNumber 1; Types.JNumber 2]) (Some 3%Z))
      as (_ & _ & H & _).
    destruct (H _ 3%Z eq_refl eq_refl eq_refl) as (shown & Hthrow & Hshown); [simpl; lia |].
    rewrite Hthrow, (Hshown eq_refl). reflexivity.
  - destruct (C10_validateVector
                (Types.JArray [Types.JNumber infinity; Types.JNumber neg_infinity]) (Some 2%Z))
      as (_ & _ & _ & _ & H & _).
    apply (H _ eq_refl eq_refl). right. reflexivity.
Defined.

(** ** Rendering of [SQL] objects *)

Section RenderFacts.
Import Drizzle.
Local Open Scope list_scope.

Lemma mergeQueries_from (queries : list Query) (acc : Query) :
  fold_left (fun result query =>
               {| text := text result +:+ text query;
                  params := params result ++ params query |}) queries acc
  = merge2 acc (mergeQueries queries).
Proof.
  unfold mergeQueries. revert acc.
  induction queries as [|q queries IH]; intros acc; simpl.
  - unfold merge2; simpl. rewrite append_empty_r, app_nil_r. now destruct acc.
  - rewrite IH. rewrite (IH {| text := text q; params := params q |}).
    unfold merge2; simpl. now rewrite append_assoc, app_assoc.
Qed.

Lemma mergeQueries_nil : mergeQueries [] = {| text := ""; params := [] |}.
Proof. reflexivity. Qed.

Lemma mergeQueries_cons (q : Query) (queries : list Query) :
  mergeQueries (q :: queries) = merge2 q (mergeQueries queries).
Proof.
  unfold mergeQueries at 1. simpl. rewrite mergeQueries_from.
  unfold merge2; simpl. reflexivity.
Qed.

Lemma merge2_empty_r (q : Query) : merge2 q {| text := ""; params := [] |} = q.
Proof. unfold merge2; simpl. rewrite append_empty_r, app_nil_r. now destruct q. Qed.

Lemma mergeQueries_single (q : Query) : mergeQueries [q] = q.
Proof. now rewrite mergeQueries_cons, mergeQueries_nil, merge2_empty_r. Qed.

Lemma buildChunk_chunk (q : SQL) : buildChunk (chunk q) = toQuery q.
Proof. reflexivity. Qed.

(** A value spliced alone, [sql`${v}`], renders as the value does. *)
Lemma toQuery_value (v : value) :
  toQuery (sql [""; ""] [ValueChunk v]) = buildValue v.
Proof.
  unfold toQuery, sql; simpl.
  rewrite !mergeQueries_cons, mergeQueries_nil.
  unfold merge2; simpl. rewrite !append_empty_r, !app_nil_r. now destruct (buildValue v).
Qed.

(** [sql.join(chunks, sql`, `)] renders the chunks separated by commas and
    binds their parameters in order. *)
Lemma toQuery_sql_join (chunks : list SQLChunk) :
  toQuery (sql_join chunks (chunk (sql [", "] [])))
  = {| text := join ", " (map (fun c => text (buildChunk c)) chunks);
       params := flat_map (fun c => params (buildChunk c)) chunks |}.
Proof.
  unfold toQuery, sql_join; simpl queryChunks.
  induction chunks as [|c [|c' rest] IH].
  - reflexivity.
  - simpl. rewrite mergeQueries_single, app_nil_r. now destruct (buildChunk c).
  - change (join_chunks (c :: c' :: rest) (chunk (sql [", "] [])))
      with (c :: chunk (sql [", "] []) :: join_chunks (c' :: rest) (chunk (sql [", "] []))).
    rewrite !map_cons, !mergeQueries_cons, IH.
    unfold merge2. cbn [text params join map flat_map]. 
    change (buildChunk (chunk (sql [", "] []))) with {| text := ", "; params := [] |}.
    cbn [text params app]. reflexivity.
Qed.

End RenderFacts.

(** ** The DML helpers *)

Section DmlFacts.
Import Drizzle VirtualTable Dml.
Local Open Scope list_scope.

Lemma fold_present {A B : Type} (pres : Vec0ColumnConfig -> bool)
      (f : Vec0ColumnConfig -> A) (g : Vec0ColumnConfig -> B)
      (cols : list Vec0ColumnConfig) (accA : list A) (accB : list B) :
  fold_left (fun '(xs, ys) col =>
               if pres col then (xs ++ [f col], ys ++ [g col]) else (xs, ys))
            cols (accA, accB)
  = (accA ++ map f (List.filter pres cols), accB ++ map g (List.filter pres cols)).
Proof.
  revert accA accB. induction cols as [|col cols IH]; intros accA accB; simpl.
  - now rewrite !app_nil_r.
  - destruct (pres col); simpl; rewrite IH; [| reflexivity].
    now rewrite <- !app_assoc.
Qed.

Lemma insertVec0_columns (table : Vec0Table) (values : gmap string value) :
  insertVec0 table values =
  let present := presentColumns table values in
  if (length present =? 0)%nat then Throw no_values_insert
  else Ok (sql ["INSERT INTO "; " ("; ") VALUES ("; ")"]
              [sql_identifier (table_name table);
               chunk (sql_join (map sql_identifier (map name present)) comma);
               chunk (sql_join (map chunk (map (fun col => value_sql (serializeValue (get values (name col)) col)) present)) comma)]).
Proof.
  unfold insertVec0.
  rewrite (fold_present (fun col => defined (get values (name col))) name
             (fun col => value_sql (serializeValue (get values (name col)) col))).
  simpl. fold (presentColumns table values). rewrite length_map. reflexivity.
Qed.

Lemma fold_present1 {A : Type} (pres : Vec0ColumnConfig -> bool)
      (f : Vec0ColumnConfig -> A) (cols : list Vec0ColumnConfig) (acc : list A) :
  fold_left (fun xs col => if pres col then xs ++ [f col] else xs) cols acc
  = acc ++ map f (List.filter pres cols).
Proof.
  revert acc. induction cols as [|col cols IH]; intros acc; simpl.
  - now rewrite app_nil_r.
  - destruct (pres col); simpl; rewrite IH; [| reflexivity].
    now rewrite <- app_assoc.
Qed.

Lemma insertManyVec0_columns (table : Vec0Table) (firstRow : gmap string value)
      (rest : list (gmap string value)) :
  insertManyVec0 table (firstRow :: rest) =
  let present := presentColumns table firstRow in
  if (length present =? 0)%nat then Throw no_values_insertMany
  else Ok (sql ["INSERT INTO "; " ("; ") VALUES "; ""]
              [sql_identifier (table_name table);
               chunk (sql_join (map sql_identifier (map name present)) comma);
               chunk (sql_join
                        (map chunk
                           (map (fun row =>
                                   sql ["("; ")"]
                                       [chunk (sql_join
                                                 (map chunk
                                                    (map (fun col => value_sql (serializeValue (get row (name col)) col))
                                                         present)) comma)])
                                (firstRow :: rest))) comma)]).
Proof.
  unfold insertManyVec0.
  rewrite (fold_present (fun col => defined (get firstRow (name col))) name (fun col => col)).
  simpl app. fold (presentColumns table firstRow). rewrite length_map, map_id. reflexivity.
Qed.

Lemma updateVec0_columns (table : Vec0Table) (values : gmap string value)
      (where_ : Vec0WhereCondition) :
  updateVec0 table values where_ =
  let present := presentColumns table values in
  if (length present =? 0)%nat then Throw no_values_update
  else Ok (sql ["UPDATE "; " SET "; " WHERE "; ""]
              [sql_identifier (table_name table);
               chunk (sql_join
                        (map chunk
                           (map (fun col => sql [""; " = "; ""]
                                               [sql_identifier (name col);
                                                ValueChunk (serializeValue (get values (name col)) col)])
                                present)) comma);
               chunk (whereClause where_)]).
Proof.
  unfold updateVec0.
  rewrite (fold_present1 (fun col => defined (get values (name col)))
             (fun col => sql [""; " = "; ""]
                             [sql_identifier (name col);
                              ValueChunk (serializeValue (get values (name col)) col)])).
  simpl app. fold (presentColumns table values). rewrite length_map. reflexivity.
Qed.



Lemma insertVec0_cases (table : Vec0Table) (values : gmap string value) :
  (presentColumns table values = [] /\ insertVec0 table values = Throw no_values_insert)
  \/ (presentColumns table values <> [] /\ exists stmt, insertVec0 table values = Ok stmt).
Proof.
  rewrite insertVec0_columns. cbv zeta.
  destruct (presentColumns table values) as [|col cols]; [left | right]; simpl; [eauto |].
  split; [discriminate | eauto].
Qed.

Lemma updateVec0_cases (table : Vec0Table) (values : gmap string value)
      (where_ : Vec0WhereCondition) :
  (presentColumns table values = [] /\ updateVec0 table values where_ = Throw no_values_update)
  \/ (presentColumns table values <> []
      /\ exists stmt, updateVec0 table values where_ = Ok stmt).
Proof.
  rewrite updateVec0_columns. cbv zeta.
  destruct (presentColumns table values) as [|col cols]; [left | right]; simpl; [eauto |].
  split; [discriminate | eauto].
Qed.

Lemma insertManyVec0_cases (table : Vec0Table) (firstRow : gmap string value)
      (rest : list (gmap string value)) :
  (presentColumns table firstRow = []
   /\ insertManyVec0 table (firstRow :: rest) = Throw no_values_insertMany)
  \/ (presentColumns table firstRow <> []
      /\ exists stmt, insertManyVec0 table (firstRow :: rest) = Ok stmt).
Proof.
  rewrite insertManyVec0_columns. cbv zeta.
  destruct (presentColumns table firstRow) as [|col cols]; [left | right]; simpl; [eauto |].
  split; [discriminate | eauto].
Qed.

(** Reading a property of the value object. *)
Lemma get_own (values : gmap string value) (key : string) (v : value) :
  values !! key = Some v -> get values key = v.
Proof. unfold get. now intros ->. Qed.

Lemma get_inherited (values : gmap string value) (key : string) :
  values !! key = None -> Js.inherited key = true -> get values key = VInherited key.
Proof. unfold get. now intros -> ->. Qed.

Lemma get_missing (values : gmap string value) (key : string) :
  values !! key = None -> Js.inherited key = false -> get values key = VUndefined.
Proof. unfold get. now intros -> ->. Qed.


Lemma defined_get_true (values : gmap string value) (key : string) :
  defined (get values key) = true
  <-> (exists v, values !! key = Some v /\ v <> VUndefined)
      \/ (values !! key = None /\ Js.inherited key = true).
Proof.
  unfold get. destruct (values !! key) as [v |].
  - split.
    + intros H. left. exists v. split; [reflexivity |]. intros ->. discriminate H.
    + intros [(w & [= <-] & Hw) | [[=] _]]. destruct v; try reflexivity. now elim Hw.
  - destruct (Js.inherited key); simpl; split; intros H; try discriminate H.
    + now right.
    + reflexivity.
    + destruct H as [(w & [=] & _) | [_ [=]]].
Qed.

Lemma In_presentColumns_iff (table : Vec0Table) (values : gmap string value)
      (col : Vec0ColumnConfig) :
  In col (presentColumns table values)
  <-> In col (columns table)
      /\ ((exists v, values !! name col = Some v /\ v <> VUndefined)
          \/ (values !! name col = None /\ Js.inherited (name col) = true)).
Proof. unfold presentColumns. now rewrite filter_In, defined_get_true. Qed.




Lemma flat_map_of_map {A B C : Type} (f : A -> B) (g : B -> list C) (l : list A) :
  flat_map g (map f l) = flat_map (fun x => g (f x)) l.
Proof. induction l as [|x l IH]; simpl; [reflexivity | now rewrite IH]. Qed.

Lemma toQuery_join_sqls {A : Type} (f : A -> SQL) (l : list A) :
  toQuery (sql_join (map chunk (map f l)) comma)
  = {| text := join ", " (map (fun x => text (toQuery (f x))) l);
       params := flat_map (fun x => params (toQuery (f x))) l |}.
Proof.
  unfold comma. rewrite toQuery_sql_join, !map_map, flat_map_of_map. reflexivity.
Qed.

Lemma toQuery_identifiers (names : list string) :
  toQuery (sql_join (map sql_identifier names) comma)
  = {| text := join ", " (map escapeName names); params := [] |}.
Proof.
  unfold comma. rewrite toQuery_sql_join, map_map, flat_map_of_map. f_equal.
  induction names; simpl; auto.
Qed.

(** Templates with one, two and three holes. *)
Lemma toQuery_sql1 (s0 s1 : string) (c : SQLChunk) :
  toQuery (sql [s0; s1] [c])
  = {| text := s0 +:+ text (buildChunk c) +:+ s1; params := params (buildChunk c) |}.
Proof.
  unfold toQuery, sql. cbn [length Nat.ltb Nat.leb orb tl interleave app new_SQL queryChunks map].
  rewrite !mergeQueries_cons, mergeQueries_nil. unfold merge2. cbn [text params buildChunk app].
  now rewrite app_nil_r, append_empty_r.
Qed.

Lemma toQuery_sql2 (s0 s1 s2 : string) (c1 c2 : SQLChunk) :
  toQuery (sql [s0; s1; s2] [c1; c2])
  = {| text := s0 +:+ text (buildChunk c1) +:+ s1 +:+ text (buildChunk c2) +:+ s2;
       params := params (buildChunk c1) ++ params (buildChunk c2) |}.
Proof.
  unfold toQuery, sql. cbn [length Nat.ltb Nat.leb orb tl interleave app new_SQL queryChunks map].
  rewrite !mergeQueries_cons, mergeQueries_nil. unfold merge2. cbn [text params buildChunk app].
  now rewrite app_nil_r, append_empty_r.
Qed.

Lemma toQuery_sql3 (s0 s1 s2 s3 : string) (c1 c2 c3 : SQLChunk) :
  toQuery (sql [s0; s1; s2; s3] [c1; c2; c3])
  = {| text := s0 +:+ text (buildChunk c1) +:+ s1 +:+ text (buildChunk c2) +:+ s2
                 +:+ text (buildChunk c3) +:+ s3;
       params := params (buildChunk c1) ++ params (buildChunk c2) ++ params (buildChunk c3) |}.
Proof.
  unfold toQuery, sql. cbn [length Nat.ltb Nat.leb orb tl interleave app new_SQL queryChunks map].
  rewrite !mergeQueries_cons, mergeQueries_nil. unfold merge2. cbn [text params buildChunk app].
  now rewrite app_nil_r, append_empty_r.
Qed.

(** One row of [insertManyVec0]: the parenthesised list of its values. *)
Lemma toQuery_tuple (present : list Vec0ColumnConfig) (row : gmap string value) :
  toQuery (sql ["("; ")"]
               [chunk (sql_join
                         (map chunk
                            (map (fun col => value_sql (serializeValue (get row (name col)) col))
                                 present)) comma)])
  = {| text := "(" +:+ join ", " (map (fun col => text (buildValue (serializeValue (get row (name col)) col))) present) +:+ ")";
       params := flat_map (fun col => params (buildValue (serializeValue (get row (name col)) col))) present |}.
Proof.
  rewrite toQuery_sql1, buildChunk_chunk, toQuery_join_sqls. cbn [text params].
  unfold value_sql.
  rewrite (map_ext _ (fun col => text (buildValue (serializeValue (get row (name col)) col))))
    by (intros col; now rewrite toQuery_value).
  rewrite (flat_map_ext _ (fun col => params (buildValue (serializeValue (get row (name col)) col))))
    by (intros col; now rewrite toQuery_value).
  reflexivity.
Qed.




End DmlFacts.

(** ** The query helpers *)

Section QueryFacts.
Import Drizzle.
Local Open Scope list_scope.

Lemma toQuery_toVectorSql_array (v : list float) :
  toQuery (Query.toVectorSql (Query.OfArray v))
  = {| text := "?"; params := [VBlob (Vector.serializeVector v)] |}.
Proof. unfold Query.toVectorSql. now rewrite toQuery_value. Qed.

Lemma toQuery_toVectorSql_column (c : SQLiteColumn) :
  toQuery (Query.toVectorSql (Query.OfColumn c)) = {| text := columnRef c; params := [] |}.
Proof.
  unfold Query.toVectorSql. rewrite toQuery_sql1. cbn [buildChunk text params].
  now rewrite append_empty_r.
Qed.

(** A two-operand function splices its operands in order. *)
Lemma toQuery_binary (fn : string) (x y : Query.VectorOperand) :
  toQuery (Query.binary fn x y)
  = {| text := (fn +:+ "(") +:+ text (toQuery (Query.toVectorSql x)) +:+ ", "
                 +:+ text (toQuery (Query.toVectorSql y)) +:+ ")";
       params := params (toQuery (Query.toVectorSql x))
                   ++ params (toQuery (Query.toVectorSql y)) |}.
Proof. unfold Query.binary. rewrite toQuery_sql2, !buildChunk_chunk. reflexivity. Qed.

(** C5. [vec_add] and [vec_sub]: two array operands bind two parameters, a
    column and an array bind one (in either order), two columns bind none;
    each array is bound as its serialized bytes at the position of its [?]. *)
Theorem C5_add_sub_parameter_shapes
  (a b : list float) (c1 c2 : SQLiteColumn) :
  let A := VBlob (Vector.serializeVector a) in
  let B := VBlob (Vector.serializeVector b) in
  toQuery (Query.vec_add (Query.OfArray a) (Query.OfArray b))
    = {| text := "vec_add(?, ?)"; params := [A; B] |}
  /\ toQuery (Query.vec_add (Query.OfColumn c1) (Query.OfArray b))
    = {| text := "vec_add(" +:+ columnRef c1 +:+ ", ?)"; params := [B] |}
  /\ toQuery (Query.vec_add (Query.OfArray a) (Query.OfColumn c2))
    = {| text := "vec_add(?, " +:+ columnRef c2 +:+ ")"; params := [A] |}
  /\ toQuery (Query.vec_add (Query.OfColumn c1) (Query.OfColumn c2))
    = {| text := "vec_add(" +:+ columnRef c1 +:+ ", " +:+ columnRef c2 +:+ ")"; params := [] |}
  /\ toQuery (Query.vec_sub (Query.OfArray a) (Query.OfArray b))
    = {| text := "vec_sub(?, ?)"; params := [A; B] |}
  /\ toQuery (Query.vec_sub (Query.OfColumn c1) (Query.OfArray b))
    = {| text := "vec_sub(" +:+ columnRef c1 +:+ ", ?)"; params := [B] |}
  /\ toQuery (Query.vec_sub (Query.OfArray a) (Query.OfColumn c2))
    = {| text := "vec_sub(?, " +:+ columnRef c2 +:+ ")"; params := [A] |}
  /\ toQuery (Query.vec_sub (Query.OfColumn c1) (Query.OfColumn c2))
    = {| text := "vec_sub(" +:+ columnRef c1 +:+ ", " +:+ columnRef c2 +:+ ")"; params := [] |}.
Proof.
  intros A B. unfold Query.vec_add, Query.vec_sub.
  rewrite !toQuery_binary, !toQuery_toVectorSql_array, !toQuery_toVectorSql_column.
  cbn [text params app]. rewrite !append_assoc.
  repeat split.
Qed.

(** C1. [knnWhere] renders [<column> MATCH ? AND k = ?]
    and binds the serialized vector, then [k]. [vectorMatch] renders the same
    two placeholders but binds [k] alone: its first [?] is literal text of
    [sql.raw], and [mapWith] only sets the result decoder, so the serialized
    vector is never bound. *)
Theorem C1_vectorMatch_binds_only_k
  (column : Query.ColumnArg) (name : string) (queryVector : list float) (k : float) :
  let columnName :=
    match column with
    | Query.ColumnString s => s
    | Query.ColumnObject c => column_name c
    end in
  toQuery (Query.vectorMatch column queryVector k)
    = {| text := columnName +:+ " MATCH ? AND k = ?"; params := [VNumber k] |}
  /\ toQuery (Query.knnWhere name queryVector k)
    = {| text := escapeName name +:+ " MATCH ? AND k = ?";
         params := [VBlob (Vector.serializeVector queryVector); VNumber k] |}.
Proof.
  intros columnName. split.
  - unfold Query.vectorMatch, toQuery, mapWith, append, sql_raw, sql.
    cbn [length Nat.ltb Nat.leb orb negb String.eqb Ascii.eqb Bool.eqb tl interleave app new_SQL queryChunks map].
    fold columnName.
    rewrite !mergeQueries_cons, mergeQueries_nil. unfold merge2.
    cbn [text params buildChunk buildValue bound app escapeParam].
    rewrite !append_assoc. reflexivity.
  - unfold Query.knnWhere. rewrite toQuery_sql3.
    cbn [text params buildChunk buildValue bound app escapeParam sql_identifier].
    rewrite ?append_assoc. reflexivity.
Qed.

End QueryFacts.

(** ** The codec: bytes, bit patterns and rounding to binary32 *)

Section CodecArithmetic.
Import Vector.
Local Open Scope Z_scope.

Lemma Z_of_byte_range (b : byte) : 0 <= Z_of_byte b < 256.
Proof.
  unfold Z_of_byte. pose proof (Byte.to_N_bounded b) as H. lia.
Qed.

Lemma Z_of_byte_of_Z (z : Z) : Z_of_byte (byte_of_Z z) = z mod 256.
Proof.
  unfold Z_of_byte, byte_of_Z.
  assert (Hr : 0 <= z mod 256 < 256) by (apply Z.mod_pos_bound; lia).
  destruct (Byte.of_N (Z.to_N (z mod 256))) as [b|] eqn:E.
  - apply Byte.to_of_N in E. rewrite E. lia.
  - apply Byte.of_N_None_iff in E. lia.
Qed.

Lemma byte_of_Z_of_byte (b : byte) : byte_of_Z (Z_of_byte b) = b.
Proof.
  unfold byte_of_Z, Z_of_byte.
  pose proof (Byte.to_N_bounded b) as H.
  rewrite Z.mod_small by lia. rewrite N2Z.id, Byte.of_to_N. reflexivity.
Qed.

(** Four little-endian bytes hold exactly the 32-bit pattern. *)
Lemma Z_of_le_bytes32_le_bytes32 (z : Z) :
  0 <= z < 2 ^ 32 ->
  match le_bytes32 z with
  | [b0; b1; b2; b3] => Z_of_le_bytes32 b0 b1 b2 b3 = z
  | _ => False
  end.
Proof.
  intros Hz. unfold le_bytes32, Z_of_le_bytes32.
  rewrite !Z_of_byte_of_Z.
  change (2 ^ 8) with 256. change (2 ^ 16) with 65536. change (2 ^ 24) with 16777216.
  change (2 ^ 32) with 4294967296 in Hz.
  Z.to_euclidean_division_equations. lia.
Qed.

Lemma Z_of_le_bytes32_range (b0 b1 b2 b3 : byte) :
  0 <= Z_of_le_bytes32 b0 b1 b2 b3 < 2 ^ 32.
Proof.
  unfold Z_of_le_bytes32.
  pose proof (Z_of_byte_range b0). pose proof (Z_of_byte_range b1).
  pose proof (Z_of_byte_range b2). pose proof (Z_of_byte_range b3).
  change (2 ^ 8) with 256. change (2 ^ 16) with 65536. change (2 ^ 24) with 16777216.
  change (2 ^ 32) with 4294967296. lia.
Qed.

(** *** Digits *)

Lemma digits2_pos_size (m : positive) : digits2_pos m = Pos.size m.
Proof. induction m as [m IH | m IH |]; simpl; now rewrite ?IH. Qed.

Lemma digits2_pos_log2 (m : positive) : Z.pos (digits2_pos m) = Z.log2 (Z.pos m) + 1.
Proof.
  rewrite digits2_pos_size. destruct m as [m | m |]; simpl; try reflexivity; lia.
Qed.

Lemma Zdigits2_log2 (m : Z) : 0 < m -> Zdigits2 m = Z.log2 m + 1.
Proof. destruct m as [|m|m]; try lia. intros _. apply digits2_pos_log2. Qed.

(** [m] has [d] binary digits exactly when [2^(d-1) <= m < 2^d]. *)
Lemma digits2_pos_bounds (m : positive) :
  2 ^ (Z.pos (digits2_pos m) - 1) <= Z.pos m < 2 ^ Z.pos (digits2_pos m).
Proof.
  rewrite digits2_pos_log2.
  pose proof (Z.log2_spec (Z.pos m) ltac:(lia)) as H.
  replace (Z.log2 (Z.pos m) + 1 - 1) with (Z.log2 (Z.pos m)) by lia.
  replace (Z.log2 (Z.pos m) + 1) with (Z.succ (Z.log2 (Z.pos m))) by lia. exact H.
Qed.

Lemma Zdigits2_unique (m d : Z) :
  0 < d -> 2 ^ (d - 1) <= m < 2 ^ d -> Zdigits2 m = d.
Proof.
  intros Hd Hm.
  assert (0 < m) by (pose proof (Z.pow_pos_nonneg 2 (d - 1)); lia).
  rewrite Zdigits2_log2 by assumption.
  rewrite (Z.log2_unique m (d - 1)); [lia | lia |].
  replace (Z.succ (d - 1)) with d by lia. exact Hm.
Qed.

Lemma Zdigits2_nonneg (m : Z) : 0 <= Zdigits2 m.
Proof. destruct m; simpl; lia. Qed.

(** *** The bit pattern of a binary32 value *)

Lemma fexp32 (x : Z) : fexp 24 128 x = Z.max (x - 24) (-149).
Proof. reflexivity. Qed.

(** A canonical binary32 significand is either normal, with 24 digits and an
    exponent in [-149, 104], or subnormal, below [2^23] at exponent [-149]. *)
Lemma bounded32_cases (m : positive) (e : Z) :
  bounded 24 128 m e = true ->
  (2 ^ 23 <= Z.pos m < 2 ^ 24 /\ -149 <= e <= 104)
  \/ (Z.pos m < 2 ^ 23 /\ e = -149).
Proof.
  unfold bounded, canonical_mantissa. rewrite fexp32.
  intros H. apply andb_true_iff in H as [Hc He].
  apply Z.eqb_eq in Hc. apply Z.leb_le in He. change (128 - 24) with 104 in He.
  pose proof (digits2_pos_bounds m) as Hm.
  destruct (Z.max_spec (Z.pos (digits2_pos m) + e - 24) (-149)) as [[Hlt Hmax] | [Hle Hmax]];
    rewrite Hmax in Hc.
  - right. split; [| lia].
    assert (Hd : Z.pos (digits2_pos m) <= 23) by lia.
    pose proof (Z.pow_le_mono_r 2 (Z.pos (digits2_pos m)) 23 ltac:(lia) Hd). lia.
  - left. assert (Hd : Z.pos (digits2_pos m) = 24) by lia.
    rewrite Hd in Hm. change (24 - 1) with 23 in Hm. lia.
Qed.

Lemma sign_bit_range (s : bool) : sign_bit s = 0 \/ sign_bit s = 2 ^ 31.
Proof. destruct s; simpl; auto. Qed.

Lemma testbit_31 (s : bool) (r : Z) :
  0 <= r < 2 ^ 31 -> Z.testbit (sign_bit s + r) 31 = s.
Proof.
  intros Hr. rewrite Z.testbit_odd, Z.shiftr_div_pow2 by lia.
  destruct s; unfold sign_bit.
  - replace ((2 ^ 31 + r) / 2 ^ 31) with 1; [reflexivity |].
    apply Z.div_unique with (r := r); lia.
  - rewrite Z.add_0_l, Z.div_small by lia. reflexivity.
Qed.

Lemma bits_of_b32_range (x : spec_float) :
  valid32 x = true -> 0 <= bits_of_b32 x < 2 ^ 32.
Proof.
  destruct x as [s | s | | s m e]; simpl; intros Hv.
  - destruct s; simpl; lia.
  - destruct s; simpl; lia.
  - lia.
  - apply bounded32_cases in Hv.
    change (2 ^ 23) with 8388608 in *. change (2 ^ 24) with 16777216 in *.
    change (2 ^ 32) with 4294967296.
    destruct (Z.pos m <? 8388608) eqn:Hlt; [apply Z.ltb_lt in Hlt | apply Z.ltb_ge in Hlt];
      destruct s; unfold sign_bit; change (2 ^ 31) with 2147483648; lia.
Qed.

(** Decoding the pattern of a binary32 value gives the value back. *)
Lemma b32_of_bits_of_b32 (x : spec_float) :
  valid32 x = true -> b32_of_bits (bits_of_b32 x) = x.
Proof.
  destruct x as [s | s | | s m e]; intros Hv.
  - unfold b32_of_bits, bits_of_b32.
    replace (sign_bit s) with (sign_bit s + 0) by lia. rewrite testbit_31 by lia.
    rewrite Z.add_0_r. destruct s; reflexivity.
  - unfold b32_of_bits, bits_of_b32. rewrite testbit_31 by lia.
    destruct s; reflexivity.
  - reflexivity.
  - apply bounded32_cases in Hv. unfold b32_of_bits, bits_of_b32.
    change (2 ^ 23) with 8388608 in *. change (2 ^ 24) with 16777216 in *.
    destruct (Z.pos m <? 8388608) eqn:Hlt; [apply Z.ltb_lt in Hlt | apply Z.ltb_ge in Hlt].
    + destruct Hv as [Hv | [_ ->]]; [lia |].
      rewrite testbit_31 by (change (2 ^ 31) with 2147483648; lia).
      assert (Hex : (sign_bit s + Z.pos m) / 8388608 mod 256 = 0).
      { destruct s; unfold sign_bit; change (2 ^ 31) with 2147483648;
          Z.to_euclidean_division_equations; lia. }
      assert (Hmant : (sign_bit s + Z.pos m) mod 8388608 = Z.pos m).
      { destruct s; unfold sign_bit; change (2 ^ 31) with 2147483648;
          Z.to_euclidean_division_equations; lia. }
      rewrite Hex, Hmant. simpl. reflexivity.
    + destruct Hv as [[Hm He] | [Hm _]]; [| lia].
      replace (sign_bit s + (e + 150) * 8388608 + (Z.pos m - 8388608))
        with (sign_bit s + ((e + 150) * 8388608 + (Z.pos m - 8388608))) by lia.
      rewrite testbit_31 by (change (2 ^ 31) with 2147483648; lia).
      assert (Hex : (sign_bit s + ((e + 150) * 8388608 + (Z.pos m - 8388608))) / 8388608 mod 256
                    = e + 150).
      { destruct s; unfold sign_bit; change (2 ^ 31) with 2147483648;
          Z.to_euclidean_division_equations; lia. }
      assert (Hmant : (sign_bit s + ((e + 150) * 8388608 + (Z.pos m - 8388608))) mod 8388608
                      = Z.pos m - 8388608).
      { destruct s; unfold sign_bit; change (2 ^ 31) with 2147483648;
          Z.to_euclidean_division_equations; lia. }
      rewrite Hex, Hmant.
      destruct (e + 150 =? 0) eqn:E0; [apply Z.eqb_eq in E0; lia |].
      destruct (e + 150 =? 255) eqn:E1; [apply Z.eqb_eq in E1; lia |].
      f_equal; [| lia].
      replace (Z.pos m - 8388608 + 8388608) with (Z.pos m) by lia. reflexivity.
Qed.

(** *** Right shifts of the rounding procedure *)

Lemma iter_pos_nat {A : Type} (f : A -> A) (p : positive) (x : A) :
  SpecFloat.iter_pos f p x = Nat.iter (Pos.to_nat p) f x.
Proof.
  revert x. induction p as [p IH | p IH |]; intros x; simpl SpecFloat.iter_pos.
  - rewrite !IH, Pos2Nat.inj_xI, Nat.iter_succ_r.
    replace (2 * Pos.to_nat p)%nat with (Pos.to_nat p + Pos.to_nat p)%nat by lia.
    now rewrite Nat.iter_add.
  - rewrite !IH, Pos2Nat.inj_xO.
    replace (2 * Pos.to_nat p)%nat with (Pos.to_nat p + Pos.to_nat p)%nat by lia.
    now rewrite Nat.iter_add.
  - reflexivity.
Qed.

Lemma shr_1_m (mrs : shr_record) :
  0 <= shr_m mrs -> shr_m (shr_1 mrs) = shr_m mrs / 2.
Proof.
  destruct mrs as [m r s]; simpl. intros Hm.
  destruct m as [|[p|p|]|p]; simpl; try lia; try reflexivity.
  - rewrite Pos2Z.inj_xI. apply Z.div_unique with (r := 1); lia.
  - rewrite Pos2Z.inj_xO. apply Z.div_unique with (r := 0); lia.
Qed.

Lemma shr_1_r (mrs : shr_record) :
  0 <= shr_m mrs -> shr_r (shr_1 mrs) = Z.odd (shr_m mrs).
Proof.
  destruct mrs as [m r s]; simpl. intros Hm.
  destruct m as [|[p|p|]|p]; simpl; try lia; reflexivity.
Qed.

Lemma iter_shr_1_m (k : nat) (mrs : shr_record) :
  0 <= shr_m mrs ->
  shr_m (Nat.iter k shr_1 mrs) = shr_m mrs / 2 ^ Z.of_nat k.
Proof.
  intros Hm. induction k as [|k IH].
  - simpl. now rewrite Z.div_1_r.
  - rewrite Nat.iter_succ, shr_1_m, IH.
    + rewrite Z.div_div by lia.
      rewrite Nat2Z.inj_succ, Z.pow_succ_r by lia. f_equal. lia.
    + rewrite IH. apply Z.div_pos; lia.
Qed.

Lemma iter_shr_1_r (k : nat) (mrs : shr_record) :
  0 <= shr_m mrs ->
  shr_r (Nat.iter (S k) shr_1 mrs) = Z.odd (shr_m mrs / 2 ^ Z.of_nat k).
Proof.
  intros Hm. rewrite Nat.iter_succ, shr_1_r, iter_shr_1_m by
    (try rewrite iter_shr_1_m by assumption; try apply Z.div_pos; lia).
  reflexivity.
Qed.

(** Shifting right by [n > 0] bits divides the significand by [2^n] and
    leaves bit [n - 1] as the round bit. *)
Lemma shr_pos (mrs : shr_record) (e n : Z) :
  0 < n -> 0 <= shr_m mrs ->
  exists mrs',
    shr mrs e n = (mrs', e + n)
    /\ shr_m mrs' = shr_m mrs / 2 ^ n
    /\ shr_r mrs' = Z.odd (shr_m mrs / 2 ^ (n - 1)).
Proof.
  intros Hn Hm. destruct n as [|p|p]; try lia.
  unfold shr. eexists. split; [reflexivity |].
  rewrite iter_pos_nat.
  destruct (Pos.to_nat p) as [|k] eqn:Hk; [lia |].
  assert (Hp : Z.pos p = Z.of_nat (S k)) by lia.
  split.
  - rewrite iter_shr_1_m by assumption. now rewrite Hp.
  - rewrite iter_shr_1_r by assumption. rewrite Hp. do 3 f_equal. lia.
Qed.

Lemma shr_nonpos (mrs : shr_record) (e n : Z) :
  n <= 0 -> shr mrs e n = (mrs, e).
Proof. destruct n; try lia; reflexivity. Qed.

Lemma shr_m_record_of_loc (m : Z) (l : location) : shr_m (shr_record_of_loc m l) = m.
Proof. destruct l as [|[]]; reflexivity. Qed.

Lemma round_nearest_even_cases (mx : Z) (lx : location) :
  round_nearest_even mx lx = mx \/ round_nearest_even mx lx = mx + 1.
Proof.
  destruct lx as [|[]]; simpl; auto. destruct (Z.even mx); auto.
Qed.

(** With the round bit set, an odd significand is rounded up. *)
Lemma round_nearest_even_up (mrs : shr_record) :
  shr_r mrs = true -> Z.odd (shr_m mrs) = true ->
  round_nearest_even (shr_m mrs) (loc_of_shr_record mrs) = shr_m mrs + 1.
Proof.
  destruct mrs as [m r s]; simpl. intros -> Hodd.
  destruct s; simpl; [reflexivity |].
  rewrite <- Z.negb_odd, Hodd. reflexivity.
Qed.

(** With the round bit clear, the significand is kept. *)
Lemma round_nearest_even_down (mrs : shr_record) :
  shr_r mrs = false ->
  round_nearest_even (shr_m mrs) (loc_of_shr_record mrs) = shr_m mrs.
Proof.
  destruct mrs as [m r s]; simpl. intros ->. destruct s; reflexivity.
Qed.

(** *** Digits under division *)

Lemma Zdigits2_bounds (m : Z) :
  0 < m -> 2 ^ (Zdigits2 m - 1) <= m < 2 ^ Zdigits2 m.
Proof. destruct m as [|m|m]; try lia. intros _. apply digits2_pos_bounds. Qed.

Lemma Zdigits2_pos (m : Z) : 0 < m -> 0 < Zdigits2 m.
Proof. destruct m; simpl; lia. Qed.

Lemma Zdigits2_le (a b : Z) : 0 <= a <= b -> Zdigits2 a <= Zdigits2 b.
Proof.
  intros [Ha Hab]. destruct (Z.eq_dec a 0) as [-> | Hne].
  - apply Zdigits2_nonneg.
  - rewrite !Zdigits2_log2 by lia.
    pose proof (Z.log2_le_mono a b Hab). lia.
Qed.

Lemma div_pow2_zero (m n : Z) :
  0 < m -> Zdigits2 m <= n -> m / 2 ^ n = 0.
Proof.
  intros Hm Hn. apply Z.div_small.
  pose proof (Zdigits2_bounds m Hm) as [_ Hlt].
  pose proof (Zdigits2_pos m Hm).
  pose proof (Z.pow_le_mono_r 2 (Zdigits2 m) n ltac:(lia) Hn). lia.
Qed.

Lemma div_pow2_bounds (m n : Z) :
  0 < m -> 0 <= n < Zdigits2 m ->
  2 ^ (Zdigits2 m - n - 1) <= m / 2 ^ n < 2 ^ (Zdigits2 m - n).
Proof.
  intros Hm Hn. pose proof (Zdigits2_bounds m Hm) as [Hlo Hhi].
  assert (Hp : 0 < 2 ^ n) by (apply Z.pow_pos_nonneg; lia).
  split.
  - apply Z.div_le_lower_bound; [exact Hp |].
    rewrite <- Z.pow_add_r by lia.
    replace (n + (Zdigits2 m - n - 1)) with (Zdigits2 m - 1) by lia. exact Hlo.
  - apply Z.div_lt_upper_bound; [exact Hp |].
    rewrite <- Z.pow_add_r by lia.
    replace (n + (Zdigits2 m - n)) with (Zdigits2 m) by lia. exact Hhi.
Qed.

Lemma Zdigits2_div_pow2 (m n : Z) :
  0 < m -> 0 <= n < Zdigits2 m -> Zdigits2 (m / 2 ^ n) = Zdigits2 m - n.
Proof.
  intros Hm Hn. apply Zdigits2_unique; [lia |].
  replace (Zdigits2 m - n - 1) with (Zdigits2 m - n - 1) by lia.
  apply div_pow2_bounds; assumption.
Qed.

(** *** Rounding to binary32 yields a binary32 value *)

Lemma shr_fexp_spec (m e : Z) (l : location) :
  0 <= m -> e <= fexp 24 128 (Zdigits2 m + e) ->
  exists mrs,
    shr_fexp 24 128 m e l = (mrs, fexp 24 128 (Zdigits2 m + e))
    /\ shr_m mrs = m / 2 ^ (fexp 24 128 (Zdigits2 m + e) - e)
    /\ (e < fexp 24 128 (Zdigits2 m + e) ->
        shr_r mrs = Z.odd (m / 2 ^ (fexp 24 128 (Zdigits2 m + e) - e - 1))).
Proof.
  intros Hm He. unfold shr_fexp.
  set (e' := fexp 24 128 (Zdigits2 m + e)) in *.
  destruct (Z.eq_dec (e' - e) 0) as [Hz | Hnz].
  - rewrite shr_nonpos by lia. eexists. split; [f_equal; lia |].
    rewrite shr_m_record_of_loc, Hz, Z.div_1_r. split; [reflexivity | lia].
  - destruct (shr_pos (shr_record_of_loc m l) e (e' - e)) as (mrs & Hs & Hmm & Hr);
      [lia | rewrite shr_m_record_of_loc; exact Hm |].
    exists mrs. rewrite Hs, Hmm, Hr, shr_m_record_of_loc.
    split; [f_equal; lia | split; [reflexivity | intros _; reflexivity]].
Qed.

(** Shifting a significand to the exponent [fexp] prescribes leaves a
    canonical significand. *)
Lemma shifted_canonical (m e : Z) :
  0 < m -> e <= fexp 24 128 (Zdigits2 m + e) ->
  0 < m / 2 ^ (fexp 24 128 (Zdigits2 m + e) - e) ->
  fexp 24 128 (Zdigits2 (m / 2 ^ (fexp 24 128 (Zdigits2 m + e) - e))
               + fexp 24 128 (Zdigits2 m + e))
  = fexp 24 128 (Zdigits2 m + e).
Proof.
  intros Hm He Hpos.
  set (e' := fexp 24 128 (Zdigits2 m + e)) in *.
  destruct (Z_lt_le_dec (e' - e) (Zdigits2 m)) as [Hlt | Hge].
  - rewrite Zdigits2_div_pow2 by lia.
    replace (Zdigits2 m - (e' - e) + e') with (Zdigits2 m + e) by lia. reflexivity.
  - rewrite div_pow2_zero in Hpos by lia. lia.
Qed.

Lemma shifted_zero_emin (m e : Z) :
  0 < m -> e <= fexp 24 128 (Zdigits2 m + e) ->
  m / 2 ^ (fexp 24 128 (Zdigits2 m + e) - e) = 0 ->
  fexp 24 128 (Zdigits2 m + e) = -149.
Proof.
  intros Hm He Hz. 
  destruct (Z_lt_le_dec (fexp 24 128 (Zdigits2 m + e) - e) (Zdigits2 m)) as [Hlt | Hge].
  - pose proof (div_pow2_bounds m (fexp 24 128 (Zdigits2 m + e) - e) Hm ltac:(lia)) as [Hlo _].
    rewrite Hz in Hlo.
    pose proof (Z.pow_pos_nonneg 2 (Zdigits2 m - (fexp 24 128 (Zdigits2 m + e) - e) - 1)
                  ltac:(lia) ltac:(lia)). lia.
  - rewrite fexp32 in *. lia.
Qed.

(** The two shifts and the rounding in between, spelled out. *)
Lemma binary_round_aux_spec (s : bool) (mx ex : Z) (lx : location) :
  0 < mx -> ex <= fexp 24 128 (Zdigits2 mx + ex) ->
  let e1 := fexp 24 128 (Zdigits2 mx + ex) in
  let m1 := mx / 2 ^ (e1 - ex) in
  exists m2,
    (m2 = m1 \/ m2 = m1 + 1)
    /\ (ex < e1 -> Z.odd (mx / 2 ^ (e1 - ex - 1)) = true -> Z.odd m1 = true -> m2 = m1 + 1)
    /\ (ex < e1 -> Z.odd (mx / 2 ^ (e1 - ex - 1)) = false -> m2 = m1)
    /\ e1 <= fexp 24 128 (Zdigits2 m2 + e1)
    /\ binary_round_aux 24 128 s mx ex lx
       = match m2 / 2 ^ (fexp 24 128 (Zdigits2 m2 + e1) - e1) with
         | Z0 => S754_zero s
         | Z.pos m =>
             if fexp 24 128 (Zdigits2 m2 + e1) <=? 104
             then S754_finite s m (fexp 24 128 (Zdigits2 m2 + e1))
             else S754_infinity s
         | Z.neg _ => S754_nan
         end.
Proof.
  intros Hmx Hex e1 m1.
  destruct (shr_fexp_spec mx ex lx ltac:(lia) Hex) as (mrs1 & Hs1 & Hm1 & Hr1).
  fold e1 in Hs1, Hm1, Hr1. fold m1 in Hm1.
  assert (Hm1nn : 0 <= m1) by (apply Z.div_pos; [lia | apply Z.pow_pos_nonneg; lia]).
  set (m2 := round_nearest_even (shr_m mrs1) (loc_of_shr_record mrs1)).
  assert (Hm2 : m2 = m1 \/ m2 = m1 + 1).
  { unfold m2. rewrite <- Hm1. apply round_nearest_even_cases. }
  assert (He1 : e1 <= fexp 24 128 (Zdigits2 m2 + e1)).
  { destruct (Z.eq_dec m1 0) as [Hz | Hnz].
    - pose proof (shifted_zero_emin mx ex Hmx Hex Hz) as Hemin. fold e1 in Hemin.
      rewrite Hemin, fexp32. lia.
    - pose proof (shifted_canonical mx ex Hmx Hex ltac:(fold e1 m1; lia)) as Hc.
      fold e1 m1 in Hc.
      pose proof (Zdigits2_le m1 m2 ltac:(lia)) as Hd.
      rewrite fexp32 in Hc |- *. lia. }
  exists m2. split; [exact Hm2 |]. split; [| split; [| split; [exact He1 |]]].
  - intros Hlt Hodd1 Hodd2. unfold m2. rewrite <- Hm1.
    apply round_nearest_even_up; [rewrite Hr1 by exact Hlt; exact Hodd1 | now rewrite Hm1].
  - intros Hlt Heven. unfold m2. rewrite <- Hm1.
    apply round_nearest_even_down. rewrite Hr1 by exact Hlt. exact Heven.
  - destruct (shr_fexp_spec m2 e1 loc_Exact ltac:(lia) He1) as (mrs2 & Hs2 & Hm2' & _).
    unfold binary_round_aux. rewrite Hs1. fold m2. rewrite Hs2, Hm2'. reflexivity.
Qed.

Lemma binary_round_aux_valid (s : bool) (mx ex : Z) (lx : location) :
  0 < mx -> ex <= fexp 24 128 (Zdigits2 mx + ex) ->
  valid32 (binary_round_aux 24 128 s mx ex lx) = true.
Proof.
  intros Hmx Hex.
  destruct (binary_round_aux_spec s mx ex lx Hmx Hex) as (m2 & Hm2 & _ & _ & He1 & ->).
  set (e1 := fexp 24 128 (Zdigits2 mx + ex)) in *.
  assert (Hm2nn : 0 <= m2).
  { assert (0 <= mx / 2 ^ (e1 - ex)) by (apply Z.div_pos; [lia | apply Z.pow_pos_nonneg; lia]).
    lia. }
  destruct (m2 / 2 ^ (fexp 24 128 (Zdigits2 m2 + e1) - e1)) as [|m|m] eqn:Hm3;
    try reflexivity.
  destruct (fexp 24 128 (Zdigits2 m2 + e1) <=? 104) eqn:Hle; [| reflexivity].
  unfold valid32, SpecFloat.valid_binary, bounded, canonical_mantissa.
  apply andb_true_iff. split; [| exact Hle].
  apply Z.eqb_eq.
  assert (Hm2pos : 0 < m2).
  { destruct (Z.eq_dec m2 0) as [-> |]; [| lia]. rewrite Z.div_0_l in Hm3; [discriminate |].
    apply Z.pow_nonzero; lia. }
  pose proof (shifted_canonical m2 e1 Hm2pos He1) as Hc.
  rewrite Hm3 in Hc. apply Hc. lia.
Qed.

Lemma Pos_iter_xO (m d : positive) :
  Z.pos (Pos.iter xO m d) = Z.pos m * 2 ^ Z.pos d.
Proof.
  induction d as [|d IH] using Pos.peano_ind.
  - simpl. lia.
  - rewrite Pos.iter_succ, Pos2Z.inj_xO, IH, Pos2Z.inj_succ, Z.pow_succ_r by lia. lia.
Qed.

Lemma Zdigits2_mul_pow2 (m d : Z) :
  0 < m -> 0 <= d -> Zdigits2 (m * 2 ^ d) = Zdigits2 m + d.
Proof.
  intros Hm Hd. pose proof (Zdigits2_bounds m Hm) as [Hlo Hhi].
  pose proof (Zdigits2_pos m Hm).
  assert (Hp : 0 < 2 ^ d) by (apply Z.pow_pos_nonneg; lia).
  apply Zdigits2_unique; [lia |].
  replace (Zdigits2 m + d - 1) with ((Zdigits2 m - 1) + d) by lia.
  rewrite !Z.pow_add_r by lia. nia.
Qed.

(** [binary_round] first aligns the significand so that the precondition of
    [binary_round_aux] holds. *)
Lemma shl_align_spec (m : positive) (e : Z) :
  exists mz ez,
    shl_align m e (fexp 24 128 (Z.pos (digits2_pos m) + e)) = (mz, ez)
    /\ ez <= fexp 24 128 (Zdigits2 (Z.pos mz) + ez)
    /\ (e <= fexp 24 128 (Z.pos (digits2_pos m) + e) -> mz = m /\ ez = e).
Proof.
  unfold shl_align.
  set (e' := fexp 24 128 (Z.pos (digits2_pos m) + e)).
  destruct (e' - e) as [|d|d] eqn:Hd.
  - exists m, e. split; [reflexivity |]. split; [| auto].
    change (Zdigits2 (Z.pos m)) with (Z.pos (digits2_pos m)). fold e'. lia.
  - exists m, e. split; [reflexivity |]. split; [| auto].
    change (Zdigits2 (Z.pos m)) with (Z.pos (digits2_pos m)). fold e'. lia.
  - exists (Pos.iter xO m d), e'. split; [reflexivity |]. split; [| lia].
    rewrite Pos_iter_xO, Zdigits2_mul_pow2 by lia.
    change (Zdigits2 (Z.pos m)) with (Z.pos (digits2_pos m)).
    replace (Z.pos (digits2_pos m) + Z.pos d + e') with (Z.pos (digits2_pos m) + e) by lia.
    fold e'. lia.
Qed.

Lemma binary_round_valid (s : bool) (m : positive) (e : Z) :
  valid32 (binary_round 24 128 s m e) = true.
Proof.
  unfold binary_round.
  destruct (shl_align_spec m e) as (mz & ez & -> & Hez & _).
  apply binary_round_aux_valid; [lia | exact Hez].
Qed.

(** Whatever is stored in a [Float32Array] element is a binary32 value. *)
Lemma fround_SF_valid (x : spec_float) : valid32 (fround_SF x) = true.
Proof. destruct x; try reflexivity. apply binary_round_valid. Qed.

(** *** Overflow *)

(** A binary64 significand at exponent [e >= 75] has 53 digits. *)
Lemma valid64_large (m : positive) (e : Z) :
  SpecFloat.valid_binary 53 1024 (S754_finite false m e) = true -> 75 <= e ->
  Zdigits2 (Z.pos m) = 53.
Proof.
  unfold SpecFloat.valid_binary, bounded, canonical_mantissa.
  intros H He. apply andb_true_iff in H as [Hc _]. apply Z.eqb_eq in Hc.
  change (fexp 53 1024 (Z.pos (digits2_pos m) + e))
    with (Z.max (Z.pos (digits2_pos m) + e - 53) (-1074)) in Hc.
  simpl Zdigits2. lia.
Qed.

(** A binary64 value of magnitude at least [2^128 - 2^103], that is
    [(2^53 - 2^28) * 2^75], rounds to the binary32 infinity of its sign. *)
Lemma fround_SF_overflow (s : bool) (m : positive) (e : Z) :
  Zdigits2 (Z.pos m) = 53 ->
  75 < e \/ (e = 75 /\ 2 ^ 53 - 2 ^ 28 <= Z.pos m) ->
  fround_SF (S754_finite s m e) = S754_infinity s.
Proof.
  intros Hd Hbig. unfold fround_SF, binary_round.
  assert (Hfexp : fexp 24 128 (Zdigits2 (Z.pos m) + e) = e + 29).
  { rewrite Hd, fexp32. lia. }
  destruct (shl_align_spec m e) as (mz & ez & -> & _ & Hsame).
  destruct Hsame as [-> ->]; [change (Z.pos (digits2_pos m)) with (Zdigits2 (Z.pos m)); lia |].
  destruct (binary_round_aux_spec s (Z.pos m) e loc_Exact ltac:(lia) ltac:(lia))
    as (m2 & Hm2 & Hup & _ & _ & ->).
  rewrite Hfexp in *. replace (e + 29 - e) with 29 in * by lia.
  replace (29 - 1) with 28 in Hup by lia.
  pose proof (div_pow2_bounds (Z.pos m) 29 ltac:(lia) ltac:(lia)) as Hm1.
  rewrite Hd in Hm1. change (53 - 29 - 1) with 23 in Hm1. change (53 - 29) with 24 in Hm1.
  pose proof (Zdigits2_bounds (Z.pos m) ltac:(lia)) as Hm. rewrite Hd in Hm.
  change (2 ^ 23) with 8388608 in *. change (2 ^ 24) with 16777216 in *.
  change (2 ^ 29) with 536870912 in *. change (2 ^ 28) with 268435456 in *.
  change (2 ^ 53) with 9007199254740992 in *. change (2 ^ (53 - 1)) with 4503599627370496 in *.
  assert (Hcases : (m2 < 16777216 /\ Zdigits2 m2 = 24) \/ (m2 = 16777216 /\ Zdigits2 m2 = 25)).
  { destruct (Z_lt_le_dec m2 16777216) as [Hlt | Hge]; [left | right].
    - split; [exact Hlt |]. apply Zdigits2_unique; [lia |].
      change (2 ^ (24 - 1)) with 8388608. change (2 ^ 24) with 16777216. lia.
    - assert (m2 = 16777216) as -> by lia. split; reflexivity. }
  destruct Hcases as [[Hlt Hdig] | [-> Hdig]]; rewrite Hdig, fexp32.
  - assert (He : 75 < e).
    { destruct Hbig as [He | [-> Hm53]]; [exact He |].
      exfalso.
      assert (Hm1v : Z.pos m / 536870912 = 16777215)
        by (Z.to_euclidean_division_equations; lia).
      assert (Ho : Z.pos m / 268435456 = 33554431)
        by (Z.to_euclidean_division_equations; lia).
      rewrite Hm1v, Ho in Hup. specialize (Hup ltac:(lia) eq_refl eq_refl). lia. }
    replace (Z.max (24 + (e + 29) - 24) (-149)) with (e + 29) by lia.
    replace (e + 29 - (e + 29)) with 0 by lia. rewrite Z.div_1_r.
    destruct m2 as [|p|p]; try lia.
    destruct (e + 29 <=? 104) eqn:Hle; [apply Z.leb_le in Hle; lia | reflexivity].
  - replace (Z.max (25 + (e + 29) - 24) (-149)) with (e + 30) by lia.
    replace (e + 30 - (e + 29)) with 1 by lia.
    change (16777216 / 2 ^ 1) with 8388608.
    destruct (e + 30 <=? 104) eqn:Hle; [apply Z.leb_le in Hle; lia | reflexivity].
Qed.

(** A binary64 value from [FLOAT32_MAX] up to, but excluding, [2^128 - 2^103]
    rounds down to the largest binary32 value. *)
Lemma fround_SF_near_max (s : bool) (m : positive) :
  (2 ^ 24 - 1) * 2 ^ 29 <= Z.pos m < 2 ^ 53 - 2 ^ 28 ->
  fround_SF (S754_finite s m 75) = S754_finite s 16777215 104.
Proof.
  intros Hm.
  change ((2 ^ 24 - 1) * 2 ^ 29) with 9007198717870080 in Hm.
  change (2 ^ 53 - 2 ^ 28) with 9007198986305536 in Hm.
  assert (Hd : Zdigits2 (Z.pos m) = 53).
  { apply Zdigits2_unique; [lia |].
    change (2 ^ (53 - 1)) with 4503599627370496. change (2 ^ 53) with 9007199254740992. lia. }
  unfold fround_SF, binary_round.
  assert (Hfexp : fexp 24 128 (Zdigits2 (Z.pos m) + 75) = 104) by (rewrite Hd; reflexivity).
  destruct (shl_align_spec m 75) as (mz & ez & -> & _ & Hsame).
  destruct Hsame as [-> ->]; [change (Z.pos (digits2_pos m)) with (Zdigits2 (Z.pos m)); lia |].
  destruct (binary_round_aux_spec s (Z.pos m) 75 loc_Exact ltac:(lia) ltac:(lia))
    as (m2 & _ & _ & Hdown & _ & ->).
  rewrite Hfexp in *. change (104 - 75 - 1) with 28 in Hdown. change (104 - 75) with 29 in *.
  change (2 ^ 29) with 536870912 in *. change (2 ^ 28) with 268435456 in *.
  assert (Hm1 : Z.pos m / 536870912 = 16777215) by (Z.to_euclidean_division_equations; lia).
  assert (Hr : Z.pos m / 268435456 = 33554430) by (Z.to_euclidean_division_equations; lia).
  rewrite Hr, Hm1 in Hdown. rewrite (Hdown ltac:(lia) eq_refl). reflexivity.
Qed.

(** *** Widening a binary32 value to a [number] is exact *)

Section AnyFormat.
Variables prec emax : Z.

(** A canonical significand within range is left as it is. *)
Lemma binary_round_aux_canonical (s : bool) (m : positive) (e : Z) :
  canonical_mantissa prec emax m e = true -> e <= emax - prec ->
  binary_round_aux prec emax s (Z.pos m) e loc_Exact = S754_finite s m e.
Proof.
  unfold canonical_mantissa. intros Hc He. apply Z.eqb_eq in Hc.
  unfold binary_round_aux, shr_fexp. cbn [Zdigits2].
  rewrite Hc, Z.sub_diag. cbn [shr shr_record_of_loc shr_m loc_of_shr_record round_nearest_even].
  cbn [Zdigits2]. rewrite Hc, Z.sub_diag. cbn [shr shr_record_of_loc shr_m].
  apply Z.leb_le in He. now rewrite He.
Qed.

Lemma binary_round_canonical (s : bool) (m : positive) (e : Z) :
  canonical_mantissa prec emax m e = true -> e <= emax - prec ->
  binary_round prec emax s m e = S754_finite s m e.
Proof.
  intros Hc He. unfold binary_round, shl_align.
  pose proof Hc as Hc'. unfold canonical_mantissa in Hc'. apply Z.eqb_eq in Hc'.
  rewrite Hc', Z.sub_diag. now apply binary_round_aux_canonical.
Qed.

(** A significand that is too short is shifted left, exactly. *)
Lemma binary_round_short (s : bool) (m k : positive) (e : Z) :
  fexp prec emax (Z.pos (digits2_pos m) + e) = e - Z.pos k ->
  e - Z.pos k <= emax - prec ->
  binary_round prec emax s m e = S754_finite s (Pos.iter xO m k) (e - Z.pos k).
Proof.
  intros Hf He. unfold binary_round, shl_align. rewrite Hf.
  replace (e - Z.pos k - e) with (Z.neg k) by lia.
  apply binary_round_aux_canonical; [| exact He].
  unfold canonical_mantissa. apply Z.eqb_eq.
  change (Z.pos (digits2_pos (Pos.iter xO m k))) with (Zdigits2 (Z.pos (Pos.iter xO m k))).
  rewrite Pos_iter_xO, Zdigits2_mul_pow2 by lia. cbn [Zdigits2].
  replace (Z.pos (digits2_pos m) + Z.pos k + (e - Z.pos k)) with (Z.pos (digits2_pos m) + e) by lia.
  exact Hf.
Qed.

End AnyFormat.

Lemma Prim2SF_of_significand (m : positive) :
  Z.pos m < 2 ^ 24 ->
  Prim2SF (of_uint63 (Uint63Axioms.of_Z (Z.pos m)))
  = S754_finite false (Pos.iter xO m (Z.to_pos (53 - Z.pos (digits2_pos m))))
                (Z.pos (digits2_pos m) - 53).
Proof.
  intros Hm. rewrite of_uint63_spec, Uint63.of_Z_spec.
  rewrite Z.mod_small
    by (change Uint63Axioms.wB with (2 ^ 63); change (2 ^ 24) with 16777216 in Hm;
        change (2 ^ 63) with 9223372036854775808; lia).
  cbn [binary_normalize].
  assert (Hd : Z.pos (digits2_pos m) <= 24).
  { pose proof (digits2_pos_bounds m) as [Hlo _].
    destruct (Z_le_gt_dec (Z.pos (digits2_pos m)) 24) as [H | H]; [exact H | exfalso].
    pose proof (Z.pow_le_mono_r 2 24 (Z.pos (digits2_pos m) - 1) ltac:(lia) ltac:(lia)). lia. }
  rewrite (binary_round_short prec emax false m (Z.to_pos (53 - Z.pos (digits2_pos m))) 0).
  - f_equal. rewrite Z2Pos.id by lia. lia.
  - rewrite Z2Pos.id by lia.
    change (fexp prec emax (Z.pos (digits2_pos m) + 0))
      with (Z.max (Z.pos (digits2_pos m) + 0 - 53) (-1074)). lia.
  - rewrite Z2Pos.id by lia. change (emax - prec) with 971. lia.
Qed.

(** Read as a [number], a binary32 value keeps its sign and its magnitude
    [m * 2^e]; only the significand is renormalised to 53 digits. *)
Lemma Prim2SF_SF2Prim_b32 (s : bool) (m : positive) (e : Z) :
  valid32 (S754_finite s m e) = true ->
  Prim2SF (SF2Prim (S754_finite s m e))
  = S754_finite s (Pos.iter xO m (Z.to_pos (53 - Z.pos (digits2_pos m))))
                (e - (53 - Z.pos (digits2_pos m))).
Proof.
  intros Hv. apply bounded32_cases in Hv.
  assert (Hm : Z.pos m < 2 ^ 24) by (change (2 ^ 23) with 8388608 in Hv;
                                     change (2 ^ 24) with 16777216 in *; lia).
  assert (He : -149 <= e <= 104) by lia.
  assert (Hd : Z.pos (digits2_pos m) <= 24).
  { pose proof (digits2_pos_bounds m) as [Hlo _].
    destruct (Z_le_gt_dec (Z.pos (digits2_pos m)) 24) as [H | H]; [exact H | exfalso].
    pose proof (Z.pow_le_mono_r 2 24 (Z.pos (digits2_pos m) - 1) ltac:(lia) ltac:(lia)). lia. }
  set (k := Z.to_pos (53 - Z.pos (digits2_pos m))).
  assert (Hk : Z.pos k = 53 - Z.pos (digits2_pos m)) by (unfold k; rewrite Z2Pos.id; lia).
  assert (Hl : Prim2SF (Z.ldexp (of_uint63 (Uint63Axioms.of_Z (Z.pos m))) e)
               = S754_finite false (Pos.iter xO m k) (e - (53 - Z.pos (digits2_pos m)))).
  { rewrite Z_ldexp_spec, (Prim2SF_of_significand m Hm). fold k. cbn [SFldexp].
    rewrite binary_round_canonical.
    - f_equal. lia.
    - unfold canonical_mantissa. apply Z.eqb_eq.
      change (Z.pos (digits2_pos (Pos.iter xO m k))) with (Zdigits2 (Z.pos (Pos.iter xO m k))).
      rewrite Pos_iter_xO, Zdigits2_mul_pow2 by lia. cbn [Zdigits2].
      change (fexp prec emax (Z.pos (digits2_pos m) + Z.pos k + (Z.pos (digits2_pos m) - 53 + e)))
        with (Z.max (Z.pos (digits2_pos m) + Z.pos k + (Z.pos (digits2_pos m) - 53 + e) - 53) (-1074)).
      lia.
    - change (emax - prec) with 971. lia. }
  unfold SF2Prim. destruct s.
  - rewrite opp_spec, Hl. reflexivity.
  - exact Hl.
Qed.

Lemma same_value_widened (s : bool) (m k : positive) (e : Z) :
  same_value (S754_finite s m e) (S754_finite s (Pos.iter xO m k) (e - Z.pos k)).
Proof.
  simpl. split; [reflexivity |].
  rewrite Pos_iter_xO. replace (Z.min e (e - Z.pos k)) with (e - Z.pos k) by lia.
  replace (e - (e - Z.pos k)) with (Z.pos k) by lia.
  rewrite Z.sub_diag. simpl (2 ^ 0). lia.
Qed.

(** The [number] read back denotes exactly the binary32 rounding of the
    [number] that was stored. *)
Lemma fround_exact (x : float) :
  same_value (fround_SF (Prim2SF x)) (Prim2SF (fround x)).
Proof.
  unfold fround. pose proof (fround_SF_valid (Prim2SF x)) as Hv.
  destruct (fround_SF (Prim2SF x)) as [s | s | | s m e].
  - destruct s; vm_compute; reflexivity.
  - destruct s; vm_compute; reflexivity.
  - vm_compute. exact I.
  - rewrite (Prim2SF_SF2Prim_b32 s m e Hv).
    assert (Hd : Z.pos (digits2_pos m) <= 24).
    { apply bounded32_cases in Hv.
      pose proof (digits2_pos_bounds m) as [Hlo _].
      destruct (Z_le_gt_dec (Z.pos (digits2_pos m)) 24) as [H | H]; [exact H | exfalso].
      pose proof (Z.pow_le_mono_r 2 24 (Z.pos (digits2_pos m) - 1) ltac:(lia) ltac:(lia)).
      change (2 ^ 23) with 8388608 in Hv. change (2 ^ 24) with 16777216 in *. lia. }
    replace (53 - Z.pos (digits2_pos m)) with (Z.pos (Z.to_pos (53 - Z.pos (digits2_pos m))))
      at 2 by (rewrite Z2Pos.id; lia).
    apply same_value_widened.
Qed.

End CodecArithmetic.

Section CodecFacts.
Import Vector.
Local Open Scope float_scope.

(** *** Back to [number]s *)


Lemma SFcompare_refl (y : spec_float) : y <> S754_nan -> SFcompare y y = Some Eq.
Proof.
  destruct y as [s | s | | s m e]; intros Hy; try congruence; simpl.
  - reflexivity.
  - destruct s; reflexivity.
  - rewrite Z.compare_refl, Pos.compare_cont_refl. destruct s; reflexivity.
Qed.

Lemma Prim2SF_nan (x : float) : is_nan x = true -> Prim2SF x = S754_nan.
Proof.
  unfold is_nan. rewrite FloatAxioms.eqb_spec. unfold SFeqb. intros H.
  destruct (Prim2SF x) eqn:E; try reflexivity;
    rewrite SFcompare_refl in H by discriminate; discriminate.
Qed.

Lemma fround_nan (x : float) : is_nan x = true -> fround x = nan.
Proof. intros H. unfold fround. now rewrite (Prim2SF_nan x H). Qed.

Lemma valid64_digits (s : bool) (m : positive) (e : Z) :
  SpecFloat.valid_binary 53 1024 (S754_finite s m e) = true -> (75 <= e)%Z ->
  Zdigits2 (Z.pos m) = 53%Z.
Proof. intros H. now apply valid64_large. Qed.

Lemma SFleb_threshold (m : positive) (e : Z) :
  SFleb (S754_finite false 9007198986305536 75) (S754_finite false m e) = true ->
  (75 < e)%Z \/ (e = 75%Z /\ (2 ^ 53 - 2 ^ 28 <= Z.pos m)%Z).
Proof.
  unfold SFleb, SFcompare.
  destruct (Z.compare_spec 75 e) as [<- | Hlt | Hgt]; [| auto | discriminate].
  intros H. right. split; [reflexivity |].
  change (2 ^ 53 - 2 ^ 28)%Z with (Z.pos 9007198986305536).
  change (Pos.compare_cont Eq 9007198986305536 m) with (9007198986305536 ?= m)%positive in H.
  destruct (Pos.compare_spec 9007198986305536 m) as [Heq | Hlt | Hgt]; [lia | lia | discriminate].
Qed.

Lemma fround_overflow (x : float) :
  (overflow_threshold <=? abs x) = true ->
  fround x = if x <? 0 then neg_infinity else infinity.
Proof.
  rewrite FloatAxioms.leb_spec, FloatAxioms.abs_spec, FloatAxioms.ltb_spec. unfold fround.
  replace (Prim2SF overflow_threshold) with (S754_finite false 9007198986305536 75)
    by (vm_compute; reflexivity).
  replace (Prim2SF 0) with (S754_zero false) by (vm_compute; reflexivity).
  pose proof (Prim2SF_valid x) as Hv.
  destruct (Prim2SF x) as [s | s | | s m e].
  - discriminate.
  - intros _. destruct s; reflexivity.
  - discriminate.
  - intros H. apply SFleb_threshold in H as Hbig.
    assert (Hd : Zdigits2 (Z.pos m) = 53%Z) by (apply (valid64_digits s m e Hv); lia).
    rewrite (fround_SF_overflow s m e Hd Hbig). destruct s; reflexivity.
Qed.

(** Order of two positive finite values, read off the comparison. *)
Lemma SFleb_finite (m1 m2 : positive) (e1 e2 : Z) :
  SFleb (S754_finite false m1 e1) (S754_finite false m2 e2) = true ->
  (e1 < e2)%Z \/ (e1 = e2 /\ (Z.pos m1 <= Z.pos m2)%Z).
Proof.
  unfold SFleb, SFcompare.
  destruct (Z.compare_spec e1 e2) as [Heq | Hlt | Hgt]; [| auto | discriminate].
  intros H. right. split; [exact Heq |].
  change (Pos.compare_cont Eq m1 m2) with (m1 ?= m2)%positive in H.
  destruct (Pos.compare_spec m1 m2) as [Hm | Hm | Hm]; [lia | lia | discriminate].
Qed.

Lemma SFltb_finite (m1 m2 : positive) (e1 e2 : Z) :
  SFltb (S754_finite false m1 e1) (S754_finite false m2 e2) = true ->
  (e1 < e2)%Z \/ (e1 = e2 /\ (Z.pos m1 < Z.pos m2)%Z).
Proof.
  unfold SFltb, SFcompare.
  destruct (Z.compare_spec e1 e2) as [Heq | Hlt | Hgt]; [| auto | discriminate].
  intros H. right. split; [exact Heq |].
  change (Pos.compare_cont Eq m1 m2) with (m1 ?= m2)%positive in H.
  destruct (Pos.compare_spec m1 m2) as [Hm | Hm | Hm]; [discriminate | lia | discriminate].
Qed.

(** A [number] from [FLOAT32_MAX] up to the overflow threshold rounds to
    [FLOAT32_MAX] with its sign. *)
Lemma fround_near_max (x : float) :
  (FLOAT32_MAX <=? abs x) = true -> (abs x <? overflow_threshold) = true ->
  fround x = if x <? 0 then - FLOAT32_MAX else FLOAT32_MAX.
Proof.
  rewrite FloatAxioms.leb_spec, !FloatAxioms.ltb_spec, FloatAxioms.abs_spec. unfold fround.
  replace (Prim2SF FLOAT32_MAX) with (S754_finite false 9007198717870080 75)
    by (vm_compute; reflexivity).
  replace (Prim2SF overflow_threshold) with (S754_finite false 9007198986305536 75)
    by (vm_compute; reflexivity).
  replace (Prim2SF 0) with (S754_zero false) by (vm_compute; reflexivity).
  destruct (Prim2SF x) as [s | s | | s m e].
  - discriminate.
  - intros _. discriminate.
  - discriminate.
  - intros Hle Hlt.
    apply SFleb_finite in Hle. apply SFltb_finite in Hlt.
    assert (He : e = 75%Z) by lia. subst e.
    assert (Hm : ((2 ^ 24 - 1) * 2 ^ 29 <= Z.pos m < 2 ^ 53 - 2 ^ 28)%Z).
    { change ((2 ^ 24 - 1) * 2 ^ 29)%Z with 9007198717870080%Z.
      change (2 ^ 53 - 2 ^ 28)%Z with 9007198986305536%Z. lia. }
    rewrite (fround_SF_near_max s m Hm). destruct s; vm_compute; reflexivity.
Qed.

Lemma f32_read_f32_bytes (x : float) :
  exists b0 b1 b2 b3,
    f32_bytes x = [b0; b1; b2; b3]
    /\ Z_of_le_bytes32 b0 b1 b2 b3 = bits_of_b32 (fround_SF (Prim2SF x))
    /\ f32_read b0 b1 b2 b3 = fround x.
Proof.
  pose proof (fround_SF_valid (Prim2SF x)) as Hv.
  pose proof (Z_of_le_bytes32_le_bytes32 _ (bits_of_b32_range _ Hv)) as Hb.
  unfold f32_bytes, le_bytes32 in *. do 4 eexists. split; [reflexivity |].
  split; [exact Hb |].
  unfold f32_read, fround. rewrite Hb, b32_of_bits_of_b32 by exact Hv. reflexivity.
Qed.

Lemma length_f32_bytes (x : float) : length (f32_bytes x) = 4%nat.
Proof. reflexivity. Qed.

Lemma length_Float32Array_of (v : list float) :
  length (Float32Array_of v) = (4 * length v)%nat.
Proof.
  unfold Float32Array_of. induction v as [|x v IH]; [reflexivity |].
  cbn [flat_map]. rewrite length_app, IH, length_f32_bytes. simpl. lia.
Qed.

Lemma read_elements_Float32Array_of (v : list float) :
  read_elements (length v) (Float32Array_of v) = map fround v.
Proof.
  unfold Float32Array_of. induction v as [|x v IH]; [reflexivity |].
  destruct (f32_read_f32_bytes x) as (b0 & b1 & b2 & b3 & Hb & _ & Hr).
  cbn [flat_map length map]. rewrite Hb. cbn [app read_elements].
  now rewrite Hr, IH.
Qed.

(** Decoding an encoded vector gives each element rounded to binary32. *)
Lemma deserialize_serialize (v : list float) :
  deserializeVector (serializeVector v) = Ok (map fround v).
Proof.
  unfold deserializeVector, serializeVector, Buffer_from, Float32Array_view, BYTES_PER_ELEMENT.
  cbn [buffer byteOffset byteLength].
  rewrite length_Float32Array_of.
  replace (4 * length v / 4)%nat with (length v)
    by (symmetry; rewrite Nat.mul_comm; apply Nat.div_mul; lia).
  change (0 mod 4 =? 0)%nat with true. cbn [negb].
  replace (4 * length v <? 0 + 4 * length v)%nat with false
    by (symmetry; apply Nat.ltb_ge; lia).
  cbn [skipn]. now rewrite read_elements_Float32Array_of.
Qed.

Lemma length_read_elements (n : nat) (bytes : list byte) :
  (4 * n <= length bytes)%nat -> length (read_elements n bytes) = n.
Proof.
  revert bytes. induction n as [|n IH]; intros bytes Hlen; [reflexivity |].
  destruct bytes as [|b0 [|b1 [|b2 [|b3 rest]]]]; simpl in Hlen; try lia.
  cbn [read_elements length]. rewrite IH; [reflexivity | lia].
Qed.

(** On an aligned view, decoding yields [floor(byteLength / 4)] elements. *)
Lemma deserialize_aligned (b : Buffer) :
  wf_Buffer b -> (byteOffset b mod 4 = 0)%nat ->
  deserializeVector b
  = Ok (read_elements (byteLength b / 4) (skipn (byteOffset b) (buffer b)))
  /\ length (read_elements (byteLength b / 4) (skipn (byteOffset b) (buffer b)))
     = (byteLength b / 4)%nat.
Proof.
  unfold wf_Buffer, deserializeVector, Float32Array_view, BYTES_PER_ELEMENT.
  intros Hwf Hal. rewrite Hal. cbn [Nat.eqb negb].
  pose proof (Nat.div_mod_eq (byteLength b) 4) as Hdm.
  replace (length (buffer b) <? byteOffset b + 4 * (byteLength b / 4))%nat with false
    by (symmetry; apply Nat.ltb_ge; lia).
  split; [reflexivity |].
  apply length_read_elements. rewrite length_skipn. lia.
Qed.

Lemma deserialize_unaligned (b : Buffer) :
  (byteOffset b mod 4 <> 0)%nat ->
  deserializeVector b = Throw "start offset of Float32Array should be a multiple of 4".
Proof.
  unfold deserializeVector, Float32Array_view. intros Hal.
  apply Nat.eqb_neq in Hal. now rewrite Hal.
Qed.

End CodecFacts.

(** ** The codec claims *)

(** The layout the serialization test pins down: [1.0] is [00 00 80 3f]. *)
Example serializeVector_one :
  Vector.contents (Vector.serializeVector [1%float]) = [x00; x00; x80; x3f].
Proof. vm_compute. reflexivity. Qed.

(** C3. [serializeVector] writes, in input order, four bytes per
    element: the little-endian IEEE-754 binary32 pattern of the element
    rounded to single precision; the output has [4 * n] bytes and is empty for
    the empty vector. On a Buffer whose [byteOffset] is a multiple of 4,
    [deserializeVector] returns exactly [floor(byteLength / 4)] elements and
    ignores a trailing remainder of 1 to 3 bytes. *)
Theorem C3_layout_and_element_count (v : list float) (b : Vector.Buffer) :
  Vector.wf_Buffer b ->
  (Vector.byteOffset b mod 4 = 0)%nat ->
  Vector.contents (Vector.serializeVector v) = flat_map Vector.f32_bytes v
  /\ (forall x, exists b0 b1 b2 b3,
        Vector.f32_bytes x = [b0; b1; b2; b3]
        /\ Vector.Z_of_le_bytes32 b0 b1 b2 b3
           = Vector.bits_of_b32 (Vector.fround_SF (Prim2SF x))
        /\ Vector.b32_of_bits (Vector.Z_of_le_bytes32 b0 b1 b2 b3)
           = Vector.fround_SF (Prim2SF x))
  /\ Vector.byteLength (Vector.serializeVector v) = (4 * length v)%nat
  /\ Vector.byteLength (Vector.serializeVector []) = 0%nat
  /\ exists elements,
       Vector.deserializeVector b = Ok elements
       /\ length elements = (Vector.byteLength b / 4)%nat
       /\ Vector.deserializeVector
            {| Vector.buffer := Vector.buffer b;
               Vector.byteOffset := Vector.byteOffset b;
               Vector.byteLength := 4 * (Vector.byteLength b / 4) |}
          = Ok elements.
Proof.
  intros Hwf Hal.
  assert (Hlen : Vector.byteLength (Vector.serializeVector v) = (4 * length v)%nat).
  { unfold Vector.serializeVector, Vector.Buffer_from. cbn [Vector.byteLength].
    apply length_Float32Array_of. }
  split; [| split; [| split; [exact Hlen | split; [reflexivity |]]]].
  - unfold Vector.contents, Vector.serializeVector, Vector.Buffer_from.
    cbn [Vector.byteLength Vector.byteOffset Vector.buffer skipn].
    apply firstn_all.
  - intros x. destruct (f32_read_f32_bytes x) as (b0 & b1 & b2 & b3 & Hb & Hz & _).
    exists b0, b1, b2, b3. split; [exact Hb |]. split; [exact Hz |].
    rewrite Hz. apply b32_of_bits_of_b32, fround_SF_valid.
  - destruct (deserialize_aligned b Hwf Hal) as [Hd Hn].
    eexists. split; [exact Hd |]. split; [exact Hn |].
    unfold Vector.deserializeVector, Vector.BYTES_PER_ELEMENT in *.
    cbn [Vector.buffer Vector.byteOffset Vector.byteLength].
    replace (4 * (Vector.byteLength b / 4) / 4)%nat with (Vector.byteLength b / 4)%nat
      by (symmetry; rewrite Nat.mul_comm; apply Nat.div_mul; lia).
    exact Hd.
Qed.

Lemma C3_witness :
  exists elements,
    Vector.deserializeVector
      {| Vector.buffer := [x00; x00; x80; x3f; x00; x00]; Vector.byteOffset := 0;
         Vector.byteLength := 6 |} = Ok elements
    /\ length elements = 1%nat.
Proof.
  destruct (C3_layout_and_element_count []
              {| Vector.buffer := [x00; x00; x80; x3f; x00; x00]; Vector.byteOffset := 0;
                 Vector.byteLength := 6 |})
    as (_ & _ & _ & _ & elements & Hd & Hn & _).
  - unfold Vector.wf_Buffer. simpl. lia.
  - reflexivity.
  - exists elements. split; [exact Hd | exact Hn].
Defined.

(** C3, the limit of the element count: a Buffer viewing its ArrayBuffer from
    offset 1 is a byte sequence of length 4, and decoding it throws a
    RangeError instead of returning one element. *)
Lemma C3_counterexample :
  ~ (forall b : Vector.Buffer,
       Vector.wf_Buffer b ->
       exists elements,
         Vector.deserializeVector b = Ok elements
         /\ length elements = (Vector.byteLength b / 4)%nat).
Proof.
  intros H.
  destruct (H {| Vector.buffer := [x00; x00; x00; x80; x3f]; Vector.byteOffset := 1;
                 Vector.byteLength := 4 |}) as (elements & Hd & _).
  - unfold Vector.wf_Buffer. simpl. lia.
  - vm_compute in Hd. discriminate.
Qed.

(** C2. Decoding an encoded vector returns a vector of the same
    length whose elements are the inputs rounded to binary32 (roundTiesToEven):
    each rounded element is a binary32 value and is read back with exactly
    that value; NaN comes back NaN, each infinity comes back as itself, and a value of
    magnitude at least [2^128 - 2^103] comes back as the infinity of its
    sign. Finite values between [FLOAT32_MAX] and that threshold are beyond the
    float32 range but come back as [FLOAT32_MAX] in magnitude. *)
Theorem C2_roundtrip_to_float32 (v : list float) :
  Vector.deserializeVector (Vector.serializeVector v) = Ok (map Vector.fround v)
  /\ length (map Vector.fround v) = length v
  /\ (forall x, Vector.valid32 (Vector.fround_SF (Prim2SF x)) = true)
  /\ (forall x, Vector.same_value (Vector.fround_SF (Prim2SF x)) (Prim2SF (Vector.fround x)))
  /\ (forall x, is_nan x = true -> is_nan (Vector.fround x) = true)
  /\ Vector.fround infinity = infinity
  /\ Vector.fround neg_infinity = neg_infinity
  /\ (forall x, (Vector.overflow_threshold <=? abs x)%float = true ->
                Vector.fround x = if (x <? 0)%float then neg_infinity else infinity)
  /\ (forall x, (Vector.FLOAT32_MAX <=? abs x)%float = true ->
                (abs x <? Vector.overflow_threshold)%float = true ->
                Vector.fround x
                = if (x <? 0)%float then (- Vector.FLOAT32_MAX)%float else Vector.FLOAT32_MAX).
Proof.
  split; [apply deserialize_serialize |].
  split; [apply length_map |].
  split; [intros x; apply fround_SF_valid |].
  split; [intros x; apply fround_exact |].
  split; [intros x Hx; now rewrite (fround_nan x Hx) |].
  split; [vm_compute; reflexivity |].
  split; [vm_compute; reflexivity |].
  split; [exact fround_overflow | exact fround_near_max].
Qed.

Lemma C2_witness :
  Vector.deserializeVector
    (Vector.serializeVector
       [nan; 0x1.78287f49c4a1dp+129%float; (-0x1.78287f49c4a1dp+129)%float;
        0x1.fffffe54daff8p+127%float])
  = Ok [Vector.fround nan; infinity; neg_infinity; Vector.FLOAT32_MAX]
  /\ is_nan (Vector.fround nan) = true.
Proof.
  destruct (C2_roundtrip_to_float32
              [nan; 0x1.78287f49c4a1dp+129%float; (-0x1.78287f49c4a1dp+129)%float;
               0x1.fffffe54daff8p+127%float])
    as (Hrt & _ & _ & _ & Hnan & _ & _ & Hover & Hnear).
  split.
  - rewrite Hrt. cbn [map].
    rewrite (Hover 0x1.78287f49c4a1dp+129%float eq_refl),
      (Hover (-0x1.78287f49c4a1dp+129)%float eq_refl),
      (Hnear 0x1.fffffe54daff8p+127%float eq_refl eq_refl).
    reflexivity.
  - apply Hnan. reflexivity.
Defined.

(** C2, the limit of overflow: [3.4028235e38] (the [FLOAT32_MAX] constant of
    the serialization tests) is a finite double above the largest float32,
    and it round-trips to the largest float32, not to infinity. *)
Lemma C2_counterexample :
  ~ (forall x : float,
       is_finite x = true ->
       (Vector.FLOAT32_MAX <? abs x)%float = true ->
       Vector.deserializeVector (Vector.serializeVector [x])
       = Ok [if (x <? 0)%float then neg_infinity else infinity]).
Proof.
  intros H. specialize (H 0x1.fffffe54daff8p+127%float eq_refl eq_refl).
  apply (f_equal (fun r => match r with Ok [y] => is_infinity y | _ => true end)) in H.
  vm_compute in H. discriminate.
Qed.

(** * Further properties of the code

    Properties of the functions around the ones above: the rest of the schema
    builder and its mutable builders, the vector utilities, the remaining
    query and DML helpers, and more of the codec. *)

Section ShadowFacts.
Import VirtualTable.
Local Open Scope list_scope.

Lemma object_literal_two_distinct {A : Type} (k1 k2 : string) (v1 v2 : A) :
  k1 <> k2 -> Js.object_literal [(k1, v1); (k2, v2)] = [(k1, v1); (k2, v2)].
Proof.
  intros Hne. unfold Js.object_literal. simpl.
  destruct (String.eqb_spec k1 k2) as [E | _]; [contradiction | reflexivity].
Qed.

Lemma object_literal_two_same {A : Type} (k : string) (v1 v2 : A) :
  Js.object_literal [(k, v1); (k, v2)] = [(k, v2)].
Proof. unfold Js.object_literal. simpl. now rewrite String.eqb_refl. Qed.

Lemma Object_entries_two {A : Type} (k1 k2 : string) (v1 v2 : A) :
  Js.array_index k2 = None ->
  Js.Object_entries [(k1, v1); (k2, v2)] = [(k1, v1); (k2, v2)].
Proof.
  intros H2. unfold Js.Object_entries. simpl. rewrite H2.
  destruct (Js.array_index k1); reflexivity.
Qed.

Lemma Object_entries_two_swapped {A : Type} (k1 k2 : string) (v1 v2 : A) :
  Js.array_index k1 = None -> Js.array_index k2 <> None ->
  Js.Object_entries [(k1, v1); (k2, v2)] = [(k2, v2); (k1, v1)].
Proof.
  intros H1 H2. unfold Js.Object_entries. simpl. rewrite H1.
  destruct (Js.array_index k2); [reflexivity | contradiction].
Qed.

Lemma Object_entries_one {A : Type} (k : string) (v : A) :
  Js.Object_entries [(k, v)] = [(k, v)].
Proof. unfold Js.Object_entries. simpl. destruct (Js.array_index k); reflexivity. Qed.

Lemma named_same_key (col : Vec0ColumnConfig) : named (name col) col = col.
Proof.
  unfold named. destruct (String.eqb_spec (name col) "") as [E | _]; [| reflexivity].
  destruct col as [n t d p m]. simpl in *. now subst.
Qed.

Lemma columnDef_integer_key (cname : string) :
  columnDef (Vec0ColumnBuilder.primaryKey (vecInteger cname)) = cname +:+ " integer primary key".
Proof. reflexivity. Qed.

Lemma columnDef_float (cname : string) (d : Z) :
  d <> 0%Z -> columnDef (vecFloat cname d) = cname +:+ " float[" +:+ pretty d +:+ "]".
Proof. intros Hd. unfold vecFloat. now rewrite columnDef_vector. Qed.

Lemma named_vecInteger (cname : string) :
  named cname (Vec0ColumnBuilder.build (Vec0ColumnBuilder.primaryKey (vecInteger cname)))
  = Vec0ColumnBuilder.primaryKey (vecInteger cname).
Proof. apply (named_same_key (Vec0ColumnBuilder.primaryKey (vecInteger cname))). Qed.

Lemma named_vecFloat (cname : string) (d : Z) :
  named cname (Vec0ColumnBuilder.build (vecFloat cname d)) = vecFloat cname d.
Proof. apply (named_same_key (vecFloat cname d)). Qed.

End ShadowFacts.

(** X1. [shadowVec0Table] with two different column names, the vector column
    not an array index, and a dimension that is a non-zero safe integer
    renders the id column as an integer primary key followed by the float
    vector column. *)
Theorem X1_shadow_table_createSQL (options : VirtualTable.ShadowTableOptions) :
  VirtualTable.idColumn options <> VirtualTable.vectorColumn options ->
  Js.array_index (VirtualTable.vectorColumn options) = None ->
  VirtualTable.shadow_dimensions options <> 0%Z ->
  Js.isSafeInteger (VirtualTable.shadow_dimensions options) = true ->
  VirtualTable.createSQL (VirtualTable.shadowVec0Table options)
  = "CREATE VIRTUAL TABLE IF NOT EXISTS " +:+ VirtualTable.tableName options
      +:+ " USING vec0(" +:+ VirtualTable.idColumn options +:+ " integer primary key, "
      +:+ VirtualTable.vectorColumn options +:+ " float["
      +:+ pretty (VirtualTable.shadow_dimensions options) +:+ "])"
  /\ VirtualTable.dropSQL (VirtualTable.shadowVec0Table options)
     = "DROP TABLE IF EXISTS " +:+ VirtualTable.tableName options.
Proof.
  intros Hne Hidx Hd Hsafe. split; [| reflexivity].
  unfold VirtualTable.shadowVec0Table.
  rewrite object_literal_two_distinct by assumption.
  rewrite Object_entries_two by assumption.
  unfold VirtualTable.createSQL, VirtualTable.vec0Table. cbn [map VirtualTable.columns VirtualTable.table_name].
  rewrite named_vecInteger, named_vecFloat, columnDef_integer_key, columnDef_float by assumption.
  cbn [join]. now rewrite !append_assoc.
Qed.

Lemma X1_witness :
  VirtualTable.createSQL
    (VirtualTable.shadowVec0Table
       {| VirtualTable.tableName := "documents_vec"; VirtualTable.vectorColumn := "embedding";
          VirtualTable.shadow_dimensions := 384; VirtualTable.idColumn := "document_id" |})
  = "CREATE VIRTUAL TABLE IF NOT EXISTS documents_vec USING vec0(document_id integer primary key, embedding float[384])".
Proof.
  apply (X1_shadow_table_createSQL
           {| VirtualTable.tableName := "documents_vec"; VirtualTable.vectorColumn := "embedding";
              VirtualTable.shadow_dimensions := 384; VirtualTable.idColumn := "document_id" |}).
  - discriminate.
  - reflexivity.
  - discriminate.
  - reflexivity.
Defined.

(** X2. Edge cases of the computed keys of [shadowVec0Table], for a dimension
    that is a non-zero safe integer: when the id column and the vector column
    have the same name the second property replaces the first, so the table
    has the vector column only; when the vector column is an array index and
    the id column is not, the vector column is listed first. *)
Theorem X2_shadow_table_key_edge_cases (options : VirtualTable.ShadowTableOptions) :
  VirtualTable.shadow_dimensions options <> 0%Z ->
  Js.isSafeInteger (VirtualTable.shadow_dimensions options) = true ->
  (VirtualTable.idColumn options = VirtualTable.vectorColumn options ->
   VirtualTable.createSQL (VirtualTable.shadowVec0Table options)
   = "CREATE VIRTUAL TABLE IF NOT EXISTS " +:+ VirtualTable.tableName options
       +:+ " USING vec0(" +:+ VirtualTable.vectorColumn options +:+ " float["
       +:+ pretty (VirtualTable.shadow_dimensions options) +:+ "])")
  /\ (Js.array_index (VirtualTable.idColumn options) = None ->
      Js.array_index (VirtualTable.vectorColumn options) <> None ->
      VirtualTable.createSQL (VirtualTable.shadowVec0Table options)
      = "CREATE VIRTUAL TABLE IF NOT EXISTS " +:+ VirtualTable.tableName options
          +:+ " USING vec0(" +:+ VirtualTable.vectorColumn options +:+ " float["
          +:+ pretty (VirtualTable.shadow_dimensions options) +:+ "], "
          +:+ VirtualTable.idColumn options +:+ " integer primary key)").
Proof.
  intros Hd Hsafe. split.
  - intros Hsame. unfold VirtualTable.shadowVec0Table. rewrite Hsame.
    rewrite object_literal_two_same, Object_entries_one.
    unfold VirtualTable.createSQL, VirtualTable.vec0Table.
    cbn [map VirtualTable.columns VirtualTable.table_name].
    rewrite named_vecFloat, columnDef_float by assumption.
    cbn [join]. now rewrite !append_assoc.
  - intros Hid Hvec.
    assert (Hne : VirtualTable.idColumn options <> VirtualTable.vectorColumn options)
      by (intros E; rewrite E in Hid; contradiction).
    unfold VirtualTable.shadowVec0Table.
    rewrite object_literal_two_distinct by assumption.
    rewrite Object_entries_two_swapped by assumption.
    unfold VirtualTable.createSQL, VirtualTable.vec0Table.
    cbn [map VirtualTable.columns VirtualTable.table_name].
    rewrite named_vecInteger, named_vecFloat, columnDef_integer_key, columnDef_float by assumption.
    cbn [join]. now rewrite !append_assoc.
Qed.

Lemma X2_witness :
  VirtualTable.createSQL
    (VirtualTable.shadowVec0Table
       {| VirtualTable.tableName := "t"; VirtualTable.vectorColumn := "v";
          VirtualTable.shadow_dimensions := 4; VirtualTable.idColumn := "v" |})
  = "CREATE VIRTUAL TABLE IF NOT EXISTS t USING vec0(v float[4])"
  /\ VirtualTable.createSQL
       (VirtualTable.shadowVec0Table
          {| VirtualTable.tableName := "t"; VirtualTable.vectorColumn := "0";
             VirtualTable.shadow_dimensions := 4; VirtualTable.idColumn := "id" |})
     = "CREATE VIRTUAL TABLE IF NOT EXISTS t USING vec0(0 float[4], id integer primary key)".
Proof.
  split.
  - destruct (X2_shadow_table_key_edge_cases
                {| VirtualTable.tableName := "t"; VirtualTable.vectorColumn := "v";
                   VirtualTable.shadow_dimensions := 4; VirtualTable.idColumn := "v" |})
      as [Hsame _]; [discriminate | reflexivity |].
    apply Hsame. reflexivity.
  - destruct (X2_shadow_table_key_edge_cases
                {| VirtualTable.tableName := "t"; VirtualTable.vectorColumn := "0";
                   VirtualTable.shadow_dimensions := 4; VirtualTable.idColumn := "id" |})
      as [_ Hidx]; [discriminate | reflexivity |].
    apply Hidx; [reflexivity | discriminate].
Defined.

Section ModifierFacts.
Import VirtualTable.
Local Open Scope list_scope.

Lemma columnDef_named_primaryKey (key : string) (b : Vec0ColumnConfig) :
  type b <> integer_t ->
  columnDef (named key (Vec0ColumnBuilder.build (Vec0ColumnBuilder.primaryKey b)))
  = columnDef (named key (Vec0ColumnBuilder.build b)).
Proof.
  intros Hty. destruct b as [n t d p m]. unfold named, Vec0ColumnBuilder.build,
    Vec0ColumnBuilder.primaryKey. cbn [name type dimensions VirtualTable.primaryKey
                                        VirtualTable.distanceMetric].
  destruct (String.eqb n ""); destruct t; try (now contradiction Hty); reflexivity.
Qed.

Lemma columnDef_named_distanceMetric (key : string) (metric : Metric) (b : Vec0ColumnConfig) :
  type b <> float_t -> type b <> int8_t ->
  columnDef (named key (Vec0ColumnBuilder.build (Vec0ColumnBuilder.distanceMetric metric b)))
  = columnDef (named key (Vec0ColumnBuilder.build b)).
Proof.
  intros Hf Hi. destruct b as [n t d p m]. unfold named, Vec0ColumnBuilder.build,
    Vec0ColumnBuilder.distanceMetric. cbn [name type dimensions VirtualTable.primaryKey
                                            VirtualTable.distanceMetric].
  destruct (String.eqb n ""); destruct t; try (now contradiction Hf); try (now contradiction Hi);
    reflexivity.
Qed.

Lemma createSQL_one_column (tname : string) (before after : list (string * Vec0ColumnBuilder.t))
      (key : string) (b b' : Vec0ColumnBuilder.t) :
  columnDef (named key (Vec0ColumnBuilder.build b'))
  = columnDef (named key (Vec0ColumnBuilder.build b)) ->
  createSQL (vec0Table tname (before ++ (key, b') :: after))
  = createSQL (vec0Table tname (before ++ (key, b) :: after)).
Proof.
  intros H. unfold createSQL, vec0Table. cbn [table_name columns].
  rewrite !map_app. cbn [map]. now rewrite H.
Qed.

End ModifierFacts.

(** X3. Modifiers that do not apply to a column are dropped from the DDL:
    [primaryKey()] shows on integer columns only, and [distanceMetric()] on
    float and int8 columns only; on any other column of any table the
    rendered statement is the one without the modifier. *)
Theorem X3_modifiers_without_effect (tname key : string)
        (before after : list (string * VirtualTable.Vec0ColumnBuilder.t))
        (b : VirtualTable.Vec0ColumnBuilder.t) (metric : VirtualTable.Metric) :
  (VirtualTable.type b <> VirtualTable.integer_t ->
   VirtualTable.createSQL
     (VirtualTable.vec0Table tname
        (before ++ (key, VirtualTable.Vec0ColumnBuilder.primaryKey b) :: after))
   = VirtualTable.createSQL (VirtualTable.vec0Table tname (before ++ (key, b) :: after)))
  /\ (VirtualTable.type b <> VirtualTable.float_t ->
      VirtualTable.type b <> VirtualTable.int8_t ->
      VirtualTable.createSQL
        (VirtualTable.vec0Table tname
           (before ++ (key, VirtualTable.Vec0ColumnBuilder.distanceMetric metric b) :: after))
      = VirtualTable.createSQL (VirtualTable.vec0Table tname (before ++ (key, b) :: after))).
Proof.
  split.
  - intros Hty. apply createSQL_one_column, columnDef_named_primaryKey, Hty.
  - intros Hf Hi. apply createSQL_one_column, columnDef_named_distanceMetric; assumption.
Qed.

Lemma X3_witness :
  VirtualTable.createSQL
    (VirtualTable.vec0Table "t"
       [("embedding", VirtualTable.Vec0ColumnBuilder.primaryKey (VirtualTable.vecFloat "embedding" 4))])
  = "CREATE VIRTUAL TABLE IF NOT EXISTS t USING vec0(embedding float[4])"
  /\ VirtualTable.createSQL
       (VirtualTable.vec0Table "t"
          [("bits",
            VirtualTable.Vec0ColumnBuilder.distanceMetric VirtualTable.cosine
              (VirtualTable.vecBit "bits" 8))])
     = "CREATE VIRTUAL TABLE IF NOT EXISTS t USING vec0(bits bit[8])".
Proof.
  split.
  - refine (eq_trans (proj1 (X3_modifiers_without_effect "t" "embedding" [] []
                               (VirtualTable.vecFloat "embedding" 4) VirtualTable.L2) _) _);
      [discriminate | reflexivity].
  - refine (eq_trans (proj2 (X3_modifiers_without_effect "t" "bits" [] []
                               (VirtualTable.vecBit "bits" 8) VirtualTable.cosine) _ _) _);
      [discriminate | discriminate | reflexivity].
Defined.

Section BuilderFacts.
Import VirtualTable.
Local Open Scope list_scope.

Lemma assign_names_cons (key : string) (r : Builders.ref)
      (columns : list (string * Builders.ref)) (h : Builders.store) :
  Builders.assign_names ((key, r) :: columns) h = Builders.assign_names columns (alter (named key) r h).
Proof. reflexivity. Qed.

(** Naming other builders leaves the builder [r] as it is. *)
Lemma assign_names_other (columns : list (string * Builders.ref)) (h : Builders.store)
      (r : Builders.ref) :
  ~ In r (map snd columns) -> Builders.assign_names columns h !! r = h !! r.
Proof.
  revert h. induction columns as [| [key r'] columns IH]; intros h Hnot; [reflexivity |].
  rewrite assign_names_cons, IH by (intros Hin; apply Hnot; now right).
  apply list_lookup_alter_ne. intros ->. apply Hnot. now left.
Qed.

Lemma In_snd_combine {A B : Type} (xs : list A) (ys : list B) (y : B) :
  In y (map snd (combine xs ys)) -> In y ys.
Proof.
  intros H. apply in_map_iff in H as ([x y'] & <- & Hin). simpl.
  eapply in_combine_r, Hin.
Qed.

Lemma Forall2_lookup_alter_other (f : Vec0ColumnConfig -> Vec0ColumnConfig)
      (r : Builders.ref) (rs : list Builders.ref)
      (entries : list (string * Vec0ColumnConfig)) (h : Builders.store) :
  ~ In r rs ->
  Forall2 (fun r' entry => h !! r' = Some (snd entry)) rs entries ->
  Forall2 (fun r' entry => alter f r h !! r' = Some (snd entry)) rs entries.
Proof.
  intros Hnot Hall. induction Hall as [| r' entry rs entries Hr Hall IH]; constructor.
  - cbn beta. unfold Builders.ref, Builders.store in *. rewrite list_lookup_alter_ne; [exact Hr |]. intros ->. apply Hnot. now left.
  - apply IH. intros Hin. apply Hnot. now right.
Qed.

(** When every builder is used once, [vec0Table] leaves in the store, for
    each entry, the config of its builder named after the rule. *)
Lemma assign_names_lookup (rs : list Builders.ref) :
  List.NoDup rs ->
  forall (entries : list (string * Vec0ColumnConfig)) (h : Builders.store),
  Forall2 (fun r entry => h !! r = Some (snd entry)) rs entries ->
  Forall2 (fun r entry =>
             Builders.assign_names (combine (map fst entries) rs) h !! r
             = Some (named (fst entry) (Vec0ColumnBuilder.build (snd entry))))
          rs entries.
Proof.
  induction 1 as [| r rs Hnot Hnd IH]; intros entries h Hall.
  - inversion Hall; subst. constructor.
  - inversion Hall as [| r0 [key b] rs0 entries' Hr Hrest]; subst.
    cbn [map fst combine]. constructor.
    + cbn beta. rewrite assign_names_cons.
      rewrite assign_names_other by (intros Hin; apply Hnot; eapply In_snd_combine, Hin).
      unfold Builders.ref, Builders.store in *.
      rewrite list_lookup_alter_eq, Hr. reflexivity.
    + specialize (IH entries' (alter (named key) r h)
                     (Forall2_lookup_alter_other _ _ _ _ _ Hnot Hrest)).
      eapply Forall2_impl; [exact IH |]. intros r' entry Hl. exact Hl.
Qed.

Lemma omap_lookup_all {A : Type} (h : Builders.store) (rs : list Builders.ref)
      (entries : list A) (f : A -> Vec0ColumnConfig) :
  Forall2 (fun r entry => h !! r = Some (f entry)) rs entries ->
  omap (fun r => h !! r) rs = map f entries.
Proof.
  induction 1 as [| r entry rs entries Hr Hall IH]; [reflexivity |].
  cbn. rewrite Hr. cbn. f_equal. exact IH.
Qed.

End BuilderFacts.

(** X4. With every builder used for one column, building the table from
    builder objects renders the same DDL as building it from their configs:
    the assignment of names to the shared config objects cannot be observed. *)
Theorem X4_builders_used_once_agree (name : string)
        (entries : list (string * VirtualTable.Vec0ColumnConfig))
        (rs : list Builders.ref) (h : Builders.store) :
  List.NoDup rs ->
  Forall2 (fun r entry => h !! r = Some (snd entry)) rs entries ->
  let '(table, h') := Builders.vec0Table name (combine (map fst entries) rs) h in
  Builders.configs table h' = VirtualTable.columns (VirtualTable.vec0Table name entries)
  /\ Builders.createSQL table h' = VirtualTable.createSQL (VirtualTable.vec0Table name entries)
  /\ Builders.dropSQL table = VirtualTable.dropSQL (VirtualTable.vec0Table name entries).
Proof.
  intros Hnd Hall.
  pose proof (assign_names_lookup rs Hnd entries h Hall) as Hnamed.
  assert (Hlen : length rs = length entries) by (eapply Forall2_length, Hall).
  unfold Builders.vec0Table.
  assert (Hcfg :
    Builders.configs
      {| Builders.table_name := name;
         Builders.columnConfigs :=
           map (fun '(key, builder) => Builders.build builder) (combine (map fst entries) rs) |}
      (Builders.assign_names (combine (map fst entries) rs) h)
    = VirtualTable.columns (VirtualTable.vec0Table name entries)).
  { unfold Builders.configs. cbn [Builders.columnConfigs].
    replace (map (fun '(key, builder) => Builders.build builder) (combine (map fst entries) rs))
      with rs.
    - unfold VirtualTable.vec0Table. cbn [VirtualTable.columns].
      rewrite (omap_lookup_all _ rs entries
                 (fun entry => VirtualTable.named (fst entry)
                                 (VirtualTable.Vec0ColumnBuilder.build (snd entry))) Hnamed).
      apply map_ext. now intros [key b].
    - clear - Hlen. revert entries Hlen.
      induction rs as [| r rs IH]; intros [| e entries] Hlen; try discriminate; [reflexivity |].
      cbn. f_equal. apply IH. now injection Hlen. }
  split; [exact Hcfg |]. split; [| reflexivity].
  unfold Builders.createSQL. rewrite Hcfg. reflexivity.
Qed.

Lemma X4_witness :
  let '(id, h1) := Builders.new "" VirtualTable.integer_t None [] in
  let '(_, h2) := Builders.primaryKey id h1 in
  let '(embedding, h3) := Builders.new "" VirtualTable.float_t (Some 4%Z) h2 in
  let '(_, h4) := Builders.distanceMetric VirtualTable.cosine embedding h3 in
  let '(table, h') := Builders.vec0Table "items_vec" [("id", id); ("embedding", embedding)] h4 in
  Builders.createSQL table h'
  = "CREATE VIRTUAL TABLE IF NOT EXISTS items_vec USING vec0(id integer primary key, embedding float[4] distance_metric=cosine)".
Proof.
  refine (proj1 (proj2 (X4_builders_used_once_agree "items_vec"
                [ ("id", VirtualTable.Vec0ColumnBuilder.primaryKey (VirtualTable.vecInteger ""));
                  ("embedding",
                   VirtualTable.Vec0ColumnBuilder.distanceMetric VirtualTable.cosine
                     (VirtualTable.vecFloat "" 4)) ]
                [0%nat; 1%nat]
                [ VirtualTable.Vec0ColumnBuilder.primaryKey (VirtualTable.vecInteger "");
                  VirtualTable.Vec0ColumnBuilder.distanceMetric VirtualTable.cosine
                    (VirtualTable.vecFloat "" 4) ] _ _))).
  - repeat constructor; simpl; intuition discriminate.
  - repeat constructor.
Defined.

(** X5. Builders are shared objects. A builder without a name that is used
    for two columns is named after the first key, so both columns carry that
    name; and a builder modified after the table was defined changes the DDL
    the table renders. *)
Theorem X5_builders_are_shared (name key1 key2 : string) (r : Builders.ref)
        (h : Builders.store) (b : VirtualTable.Vec0ColumnConfig) :
  h !! r = Some b ->
  VirtualTable.name b = "" ->
  key1 <> "" ->
  (let '(table, h') := Builders.vec0Table name [(key1, r); (key2, r)] h in
   map VirtualTable.name (Builders.configs table h') = [key1; key1])
  /\ (let '(table, h1) := Builders.vec0Table name [(key1, r)] h in
      let '(_, h2) := Builders.primaryKey r h1 in
      VirtualTable.type b = VirtualTable.integer_t ->
      VirtualTable.primaryKey b = false ->
      Builders.createSQL table h1
      = "CREATE VIRTUAL TABLE IF NOT EXISTS " +:+ name +:+ " USING vec0(" +:+ key1 +:+ " integer)"
      /\ Builders.createSQL table h2
         = "CREATE VIRTUAL TABLE IF NOT EXISTS " +:+ name +:+ " USING vec0(" +:+ key1
             +:+ " integer primary key)").
Proof.
  intros Hr Hname Hkey.
  assert (Hnamed : VirtualTable.name (VirtualTable.named key1 b) = key1).
  { unfold VirtualTable.named. rewrite Hname. reflexivity. }
  assert (Hkeep : VirtualTable.named key2 (VirtualTable.named key1 b) = VirtualTable.named key1 b).
  { unfold VirtualTable.named at 1. rewrite Hnamed.
    destruct (String.eqb_spec key1 "") as [E | _]; [contradiction | reflexivity]. }
  unfold Builders.vec0Table, Builders.assign_names, Builders.primaryKey, Builders.configs,
    Builders.createSQL, Builders.build, Builders.ref, Builders.store in *.
  cbn [fold_left map Builders.columnConfigs Builders.table_name].
  split.
  - cbn [omap list_omap]. rewrite !list_lookup_alter_eq, Hr. cbn [fmap option_fmap option_map].
    rewrite Hkeep. cbn [map]. now rewrite Hnamed.
  - intros Hty Hpk. split.
    { unfold Builders.configs. cbn [Builders.columnConfigs omap list_omap].
      unfold Builders.ref, Builders.store.
      rewrite list_lookup_alter_eq, Hr. cbn [fmap option_fmap option_map map join].
      unfold VirtualTable.columnDef.
      replace (VirtualTable.type (VirtualTable.named key1 b)) with VirtualTable.integer_t
        by (unfold VirtualTable.named; rewrite Hname; simpl; now rewrite Hty).
      replace (VirtualTable.primaryKey (VirtualTable.named key1 b)) with false
        by (unfold VirtualTable.named; rewrite Hname; simpl; now rewrite Hpk).
      rewrite Hnamed. cbn. now rewrite !append_assoc. }
    unfold Builders.configs. cbn [Builders.columnConfigs omap list_omap].
    unfold Builders.ref, Builders.store.
    rewrite !list_lookup_alter_eq, Hr. cbn [fmap option_fmap option_map map join].
    unfold VirtualTable.columnDef.
    replace (VirtualTable.type (VirtualTable.Vec0ColumnBuilder.primaryKey (VirtualTable.named key1 b)))
      with VirtualTable.integer_t
      by (unfold VirtualTable.named; rewrite Hname; simpl; now rewrite Hty).
    replace (VirtualTable.name (VirtualTable.Vec0ColumnBuilder.primaryKey (VirtualTable.named key1 b)))
      with key1 by (unfold VirtualTable.named; rewrite Hname; reflexivity).
    cbn. now rewrite !append_assoc.
Qed.

Lemma X5_witness :
  (let '(table, h') :=
     Builders.vec0Table "t" [("a", 0%nat); ("b", 0%nat)] [VirtualTable.vecText ""] in
   map VirtualTable.name (Builders.configs table h') = ["a"; "a"])
  /\ (let '(table, h1) := Builders.vec0Table "t" [("id", 0%nat)] [VirtualTable.vecInteger ""] in
      let '(_, h2) := Builders.primaryKey 0%nat h1 in
      Builders.createSQL table h1 = "CREATE VIRTUAL TABLE IF NOT EXISTS t USING vec0(id integer)"
      /\ Builders.createSQL table h2
         = "CREATE VIRTUAL TABLE IF NOT EXISTS t USING vec0(id integer primary key)").
Proof.
  split.
  - refine (proj1 (X5_builders_are_shared "t" "a" "b" 0%nat [VirtualTable.vecText ""]
                     (VirtualTable.vecText "") _ _ _));
      [reflexivity | reflexivity | discriminate].
  - refine (proj2 (X5_builders_are_shared "t" "id" "id" 0%nat [VirtualTable.vecInteger ""]
                     (VirtualTable.vecInteger "") _ _ _) _ _);
      [reflexivity | reflexivity | discriminate | reflexivity | reflexivity].
Defined.

Section CreateFacts.
Import Types.
Local Open Scope list_scope.

Lemma length_createVector (dimensions : Z) (generator : Z -> float) :
  length (createVector dimensions generator) = Z.to_nat dimensions.
Proof. unfold createVector. now rewrite length_map, length_seq. Qed.

Lemma nth_createVector (dimensions : Z) (generator : Z -> float) (i : Z) :
  (0 <= i < dimensions)%Z ->
  nth_error (createVector dimensions generator) (Z.to_nat i) = Some (generator i).
Proof.
  intros Hi. unfold createVector.
  rewrite nth_error_map, nth_error_seq.
  destruct (Nat.ltb_spec (Z.to_nat i) (Z.to_nat dimensions)) as [_ | Hge]; [| lia].
  cbn. now rewrite Z2Nat.id by lia.
Qed.

Lemma createVector_nonpositive (dimensions : Z) (generator : Z -> float) :
  (dimensions <= 0)%Z -> createVector dimensions generator = [].
Proof.
  intros Hd. unfold createVector. now replace (Z.to_nat dimensions) with 0%nat by lia.
Qed.

Lemma forallb_valid_createVector (dimensions : Z) (generator : Z -> float) :
  forallb valid_number (map JNumber (createVector dimensions generator)) = true
  <-> forall i, (0 <= i < dimensions)%Z -> is_nan (generator i) = false.
Proof.
  unfold createVector. rewrite forallb_forall. split.
  - intros H i Hi.
    specialize (H (JNumber (generator i))). simpl in H.
    apply negb_true_iff, H.
    apply in_map, in_map_iff. exists (Z.to_nat i). split; [now rewrite Z2Nat.id by lia |].
    apply in_seq. lia.
  - intros H x Hin.
    apply in_map_iff in Hin as (y & <- & Hin).
    apply in_map_iff in Hin as (n & <- & Hin). apply in_seq in Hin.
    simpl. apply negb_true_iff, H. lia.
Qed.

End CreateFacts.

(** X6. [createVector] runs the generator on the indices [0 .. dimensions - 1]
    in order, so for [dimensions >= 0] the result has exactly [dimensions]
    elements and is accepted by [typedVector]; for a negative [dimensions] the
    loop does not run, the result is empty and [typedVector] rejects it with
    the dimension mismatch (the dimension printed in decimal when it is a safe
    integer). *)
Theorem X6_createVector_dimensions (dimensions : Z) (generator : Z -> float) :
  ((0 <= dimensions)%Z ->
   Z.of_nat (length (Types.createVector dimensions generator)) = dimensions
   /\ (forall i, (0 <= i < dimensions)%Z ->
                 nth_error (Types.createVector dimensions generator) (Z.to_nat i)
                 = Some (generator i))
   /\ Types.typedVector dimensions (Types.createVector dimensions generator)
      = Ok (Types.createVector dimensions generator))
  /\ ((dimensions < 0)%Z ->
      Types.createVector dimensions generator = []
      /\ throws (Types.typedVector dimensions (Types.createVector dimensions generator))
      /\ exists shown,
           Types.typedVector dimensions (Types.createVector dimensions generator)
           = Throw ("Vector dimension mismatch: expected " +:+ shown +:+ ", got 0")
           /\ (Js.isSafeInteger dimensions = true -> shown = pretty dimensions)).
Proof.
  split.
  - intros Hd.
    assert (Hlen : Z.of_nat (length (Types.createVector dimensions generator)) = dimensions)
      by (rewrite length_createVector; lia).
    split; [exact Hlen |]. split; [intros i Hi; now apply nth_createVector |].
    unfold Types.typedVector. rewrite Hlen, Z.eqb_refl. reflexivity.
  - intros Hd. rewrite createVector_nonpositive by lia. split; [reflexivity |].
    unfold Types.typedVector. cbn [length].
    destruct (Z.eqb_spec (Z.of_nat 0) dimensions) as [E | _]; [lia |].
    split; [eexists; reflexivity |].
    exists (pretty dimensions). split; reflexivity.
Qed.

Lemma X6_witness :
  Types.typedVector 3 (Types.createVector 3 (fun i => 0%float)) = Ok [0; 0; 0]%float
  /\ Types.typedVector (-1) (Types.createVector (-1) (fun i => 0%float))
     = Throw "Vector dimension mismatch: expected -1, got 0".
Proof.
  split.
  - refine (proj2 (proj2 (proj1 (X6_createVector_dimensions 3 (fun i => 0%float)) _))). lia.
  - destruct (proj2 (X6_createVector_dimensions (-1) (fun i => 0%float)))
      as (_ & _ & shown & Hthrow & Hshown); [lia |].
    rewrite Hthrow, (Hshown eq_refl). reflexivity.
Defined.

(** X7. A vector made by [createVector] passes [validateVector] for the same
    dimensions exactly when the generator yields no NaN on the indices it is
    run on; [zeroVector] always passes, and [randomVector] passes when no draw
    is NaN. *)
Theorem X7_generated_vectors_validate (dimensions : Z) (generator random : Z -> float) :
  (0 <= dimensions)%Z ->
  (Types.validateVector (Types.JArray (map Types.JNumber (Types.createVector dimensions generator)))
                        (Some dimensions) = Ok true
   <-> forall i, (0 <= i < dimensions)%Z -> is_nan (generator i) = false)
  /\ Types.validateVector (Types.JArray (map Types.JNumber (Types.zeroVector dimensions)))
                          (Some dimensions) = Ok true
  /\ ((forall i, is_nan (random i) = false) ->
      Types.validateVector (Types.JArray (map Types.JNumber (Types.randomVector random dimensions)))
                           (Some dimensions) = Ok true).
Proof.
  intros Hd.
  assert (Hgen : forall g,
            Types.validateVector (Types.JArray (map Types.JNumber (Types.createVector dimensions g)))
                                 (Some dimensions) = Ok true
            <-> forall i, (0 <= i < dimensions)%Z -> is_nan (g i) = false).
  { intros g. rewrite <- forallb_valid_createVector. unfold Types.validateVector.
    rewrite length_map, length_createVector, Z2Nat.id, Z.eqb_refl by lia.
    destruct (forallb Types.valid_number _); simpl; split; intros H; congruence. }
  split; [apply Hgen |]. split.
  - apply Hgen. intros i _. reflexivity.
  - intros Hr. apply Hgen. intros i _. apply Hr.
Qed.

Lemma X7_witness :
  Types.validateVector (Types.JArray (map Types.JNumber (Types.zeroVector 4))) (Some 4%Z) = Ok true.
Proof.
  refine (proj1 (proj2 (X7_generated_vectors_validate 4 (fun _ => 0%float) (fun _ => 0%float) _))).
  lia.
Defined.

Section NumberFacts.
Local Open Scope float_scope.

(** Multiplication of [number]s is commutative. *)
Lemma SF64mul_comm (x y : spec_float) : SF64mul x y = SF64mul y x.
Proof.
  unfold SF64mul, SFmul.
  destruct x as [sx | sx | | sx mx ex], y as [sy | sy | | sy my ey];
    try reflexivity; try (now rewrite xorb_comm).
  now rewrite xorb_comm, Pos.mul_comm, Z.add_comm.
Qed.

Lemma mul_comm (x y : float) : x * y = y * x.
Proof. apply Prim2SF_inj. rewrite !mul_spec. apply SF64mul_comm. Qed.

(** The magnitude of a rounded value does not depend on its sign. *)
Lemma SFabs_binary_round_aux (s s' : bool) (mx ex : Z) (lx : location) :
  SFabs (binary_round_aux prec emax s mx ex lx) = SFabs (binary_round_aux prec emax s' mx ex lx).
Proof.
  unfold binary_round_aux.
  destruct (shr_fexp prec emax mx ex lx) as [mrs e'].
  destruct (shr_fexp prec emax _ e' loc_Exact) as [mrs' e''].
  destruct (shr_m mrs'); [reflexivity | | reflexivity].
  destruct (e'' <=? emax - prec)%Z; reflexivity.
Qed.

Lemma SFabs_binary_round (s s' : bool) (m : positive) (e : Z) :
  SFabs (binary_round prec emax s m e) = SFabs (binary_round prec emax s' m e).
Proof.
  unfold binary_round. destruct (shl_align m e _) as [mz ez]. apply SFabs_binary_round_aux.
Qed.

Lemma SFabs_binary_normalize_opp (z e : Z) :
  SFabs (binary_normalize prec emax (- z) e false) = SFabs (binary_normalize prec emax z e false).
Proof. destruct z; [reflexivity | |]; apply SFabs_binary_round. Qed.

(** Swapping the operands of a subtraction changes the sign only. *)
Lemma SFabs_SF64sub (x y : spec_float) : SFabs (SF64sub x y) = SFabs (SF64sub y x).
Proof.
  unfold SF64sub, SFsub.
  destruct x as [sx | sx | | sx mx ex], y as [sy | sy | | sy my ey]; try reflexivity;
    try (destruct sx, sy; reflexivity).
  rewrite (Z.min_comm ey ex), <- SFabs_binary_normalize_opp. f_equal. f_equal. lia.
Qed.

Lemma SF64mul_square (d : spec_float) : SF64mul d d = SF64mul (SFabs d) (SFabs d).
Proof.
  unfold SF64mul, SFmul. destruct d as [s | s | | s m e]; try reflexivity; now destruct s.
Qed.

Lemma square_diff_sym (x y : float) : (x - y) * (x - y) = (y - x) * (y - x).
Proof.
  apply Prim2SF_inj. rewrite !mul_spec, !sub_spec.
  rewrite SF64mul_square, (SF64mul_square (SF64sub (Prim2SF y) (Prim2SF x))).
  now rewrite SFabs_SF64sub.
Qed.

(** A finite [number] is a zero or has a significand. *)
Lemma is_finite_spec (x : float) :
  is_finite x = true ->
  (exists s, Prim2SF x = S754_zero s) \/ (exists s m e, Prim2SF x = S754_finite s m e).
Proof.
  unfold is_finite, is_nan, is_infinity.
  rewrite !FloatAxioms.eqb_spec, abs_spec.
  replace (Prim2SF infinity) with (S754_infinity false) by (vm_compute; reflexivity).
  destruct (Prim2SF x) as [s | s | | s m e]; intros H.
  - left. now exists s.
  - exfalso. destruct s; vm_compute in H; discriminate.
  - discriminate.
  - right. now exists s, m, e.
Qed.

Lemma sub_diag_finite (x : float) : is_finite x = true -> x - x = 0.
Proof.
  intros H. apply Prim2SF_inj. rewrite sub_spec.
  replace (Prim2SF 0) with (S754_zero false) by (vm_compute; reflexivity).
  destruct (is_finite_spec x H) as [[s ->] | (s & m & e & ->)].
  - now destruct s.
  - unfold SF64sub, SFsub. now rewrite Z.sub_diag.
Qed.

(** [x == 0] holds for the two zeros only. *)
Lemma eqb_zero_spec (x : float) :
  (x =? 0) = true -> exists s, Prim2SF x = S754_zero s.
Proof.
  rewrite FloatAxioms.eqb_spec.
  replace (Prim2SF 0) with (S754_zero false) by (vm_compute; reflexivity).
  destruct (Prim2SF x) as [s | s | | s m e]; intros H; try discriminate.
  - now exists s.
  - destruct s; discriminate.
  - destruct s; discriminate.
Qed.

Lemma square_zero (x : float) : (x =? 0) = true -> x * x = 0.
Proof.
  intros H. apply Prim2SF_inj. rewrite mul_spec.
  destruct (eqb_zero_spec x H) as [s ->]. now destruct s.
Qed.

End NumberFacts.

Section DistanceFacts.
Import Types.
Local Open Scope float_scope.
Local Open Scope list_scope.

Lemma dot_fold_sym (a b : list float) (acc : float) :
  fold_left (fun sum '(x, y) => sum + x * y) (combine a b) acc
  = fold_left (fun sum '(x, y) => sum + x * y) (combine b a) acc.
Proof.
  revert b acc. induction a as [| x a IH]; intros [| y b] acc; try reflexivity.
  cbn [combine fold_left]. rewrite (mul_comm x y). apply IH.
Qed.

Lemma l2_fold_sym (a b : list float) (acc : float) :
  fold_left (fun sum '(x, y) => sum + (x - y) * (x - y)) (combine a b) acc
  = fold_left (fun sum '(x, y) => sum + (x - y) * (x - y)) (combine b a) acc.
Proof.
  revert b acc. induction a as [| x a IH]; intros [| y b] acc; try reflexivity.
  cbn [combine fold_left]. rewrite (square_diff_sym x y). apply IH.
Qed.

Lemma cosine_fold_sym (a b : list float) (d na nb : float) :
  fold_left (fun '(dotProduct, normA, normB) '(x, y) =>
               (dotProduct + x * y, normA + x * x, normB + y * y))
            (combine b a) (d, nb, na)
  = let '(d', na', nb') :=
      fold_left (fun '(dotProduct, normA, normB) '(x, y) =>
                   (dotProduct + x * y, normA + x * x, normB + y * y))
                (combine a b) (d, na, nb) in
    (d', nb', na').
Proof.
  revert b d na nb. induction a as [| x a IH]; intros [| y b] d na nb; try reflexivity.
  cbn [combine fold_left]. rewrite (mul_comm y x). apply IH.
Qed.

Lemma l2_fold_diag (a : list float) :
  Forall (fun x => is_finite x = true) a ->
  fold_left (fun sum '(x, y) => sum + (x - y) * (x - y)) (combine a a) 0 = 0.
Proof.
  induction 1 as [| x a Hx Ha IH]; [reflexivity |].
  cbn [combine fold_left]. rewrite (sub_diag_finite x Hx).
  replace (0 + 0 * 0) with 0 by reflexivity. exact IH.
Qed.

Lemma norm_fold_zero (v : list float) :
  Forall (fun x => (x =? 0) = true) v ->
  fold_left (fun sum val => sum + val * val) v 0 = 0.
Proof.
  induction 1 as [| x v Hx Hv IH]; [reflexivity |].
  cbn [fold_left]. rewrite (square_zero x Hx).
  replace (0 + 0) with 0 by reflexivity. exact IH.
Qed.

End DistanceFacts.

(** X8. The dot product and the cosine similarity (and distance) do not depend
    on the order of their two operands, whatever the operands: equal results
    for equal lengths, the same error otherwise. *)
Theorem X8_dot_and_cosine_symmetric (a b : list float) :
  Types.dotProduct a b = Types.dotProduct b a
  /\ Types.cosineSimilarity a b = Types.cosineSimilarity b a
  /\ Types.cosineDistance a b = Types.cosineDistance b a.
Proof.
  assert (Hcos : Types.cosineSimilarity a b = Types.cosineSimilarity b a).
  { unfold Types.cosineSimilarity. rewrite (Nat.eqb_sym (length b) (length a)).
    destruct (length a =? length b)%nat; [| reflexivity]. cbn [negb].
    rewrite (cosine_fold_sym a b 0 0 0).
    destruct (fold_left _ (combine a b) (0, 0, 0)%float) as [[d na] nb].
    now rewrite (mul_comm (sqrt nb) (sqrt na)). }
  split; [| split; [exact Hcos |]].
  - unfold Types.dotProduct. rewrite (Nat.eqb_sym (length b) (length a)).
    destruct (length a =? length b)%nat; [| reflexivity]. cbn [negb].
    now rewrite dot_fold_sym.
  - unfold Types.cosineDistance. now rewrite Hcos.
Qed.

(** X9. The Euclidean distance does not depend on the order of its operands,
    and the distance of a vector of finite numbers to itself is 0. *)
Theorem X9_l2Distance_symmetric_and_zero (a b : list float) :
  Types.l2Distance a b = Types.l2Distance b a
  /\ (Forall (fun x => is_finite x = true) a -> Types.l2Distance a a = Ok 0%float).
Proof.
  split.
  - unfold Types.l2Distance. rewrite (Nat.eqb_sym (length b) (length a)).
    destruct (length a =? length b)%nat; [| reflexivity]. cbn [negb]. cbv zeta.
    now rewrite l2_fold_sym.
  - intros Hfin. unfold Types.l2Distance. rewrite Nat.eqb_refl. cbn [negb].
        rewrite (l2_fold_diag a Hfin). reflexivity.
Qed.

Lemma X9_witness :
  Types.l2Distance [1; -2.5; 0]%float [1; -2.5; 0]%float = Ok 0%float.
Proof.
  refine (proj2 (X9_l2Distance_symmetric_and_zero [1; -2.5; 0]%float []) _).
  repeat constructor.
Defined.

(** X10. [normalizeVector] keeps the number of elements, and returns a vector
    whose elements are all zero (of either sign) as it is, without dividing;
    in particular [zeroVector] of any dimension. *)
Theorem X10_normalizeVector_length_and_zero (v : list float) (dimensions : Z) :
  length (Types.normalizeVector v) = length v
  /\ (Forall (fun x => (x =? 0)%float = true) v -> Types.normalizeVector v = v)
  /\ Types.normalizeVector (Types.zeroVector dimensions) = Types.zeroVector dimensions.
Proof.
  assert (Hzero : forall w, Forall (fun x => (x =? 0)%float = true) w -> Types.normalizeVector w = w).
  { intros w Hw. unfold Types.normalizeVector. rewrite (norm_fold_zero w Hw). reflexivity. }
  split; [| split; [apply Hzero |]].
  - unfold Types.normalizeVector. destruct (_ =? 0)%float; [reflexivity | apply length_map].
  - apply Hzero. unfold Types.zeroVector, Types.createVector.
    apply List.Forall_forall. intros x Hin. apply in_map_iff in Hin as (n & <- & _). reflexivity.
Qed.

Lemma X10_witness :
  Types.normalizeVector [0; -0; 0]%float = [0; -0; 0]%float.
Proof.
  refine (proj1 (proj2 (X10_normalizeVector_length_and_zero [0; -0; 0]%float 0)) _).
  repeat constructor.
Defined.

Section FunctionFacts.
Import Drizzle.
Local Open Scope list_scope.

Lemma toQuery_unary (fn : string) (vec : Query.VectorOperand) :
  toQuery (Query.unary fn vec)
  = {| text := (fn +:+ "(") +:+ text (toQuery (Query.toVectorSql vec)) +:+ ")";
       params := params (toQuery (Query.toVectorSql vec)) |}.
Proof. unfold Query.unary. rewrite toQuery_sql1, buildChunk_chunk. reflexivity. Qed.

Lemma toQuery_sql4 (s0 s1 s2 s3 s4 : string) (c1 c2 c3 c4 : SQLChunk) :
  toQuery (sql [s0; s1; s2; s3; s4] [c1; c2; c3; c4])
  = {| text := s0 +:+ text (buildChunk c1) +:+ s1 +:+ text (buildChunk c2) +:+ s2
                 +:+ text (buildChunk c3) +:+ s3 +:+ text (buildChunk c4) +:+ s4;
       params := params (buildChunk c1) ++ params (buildChunk c2) ++ params (buildChunk c3)
                   ++ params (buildChunk c4) |}.
Proof.
  unfold toQuery, sql. cbn [length Nat.ltb Nat.leb orb tl interleave app new_SQL queryChunks map].
  rewrite !mergeQueries_cons, mergeQueries_nil. unfold merge2. cbn [text params buildChunk app].
  now rewrite app_nil_r, append_empty_r.
Qed.

Lemma toQuery_sql8 (s0 s1 s2 s3 s4 s5 s6 s7 s8 : string) (c1 c2 c3 c4 c5 c6 c7 c8 : SQLChunk) :
  toQuery (sql [s0; s1; s2; s3; s4; s5; s6; s7; s8] [c1; c2; c3; c4; c5; c6; c7; c8])
  = {| text := s0 +:+ text (buildChunk c1) +:+ s1 +:+ text (buildChunk c2) +:+ s2
                 +:+ text (buildChunk c3) +:+ s3 +:+ text (buildChunk c4) +:+ s4
                 +:+ text (buildChunk c5) +:+ s5 +:+ text (buildChunk c6) +:+ s6
                 +:+ text (buildChunk c7) +:+ s7 +:+ text (buildChunk c8) +:+ s8;
       params := params (buildChunk c1) ++ params (buildChunk c2) ++ params (buildChunk c3)
                   ++ params (buildChunk c4) ++ params (buildChunk c5) ++ params (buildChunk c6)
                   ++ params (buildChunk c7) ++ params (buildChunk c8) |}.
Proof.
  unfold toQuery, sql. cbn [length Nat.ltb Nat.leb orb tl interleave app new_SQL queryChunks map].
  rewrite !mergeQueries_cons, mergeQueries_nil. unfold merge2. cbn [text params buildChunk app].
  now rewrite app_nil_r, append_empty_r.
Qed.

End FunctionFacts.

(** X11. Every vector function of one operand renders as its name applied to
    the rendered operand and binds exactly the operand's parameters: an array
    operand is one [?] bound to its serialized bytes, a column is its escaped
    reference with no parameter, and a nested expression is spliced with its
    own text and parameters. *)
Theorem X11_unary_functions_lowering (vec : Query.VectorOperand) :
  let operand := Drizzle.toQuery (Query.toVectorSql vec) in
  let call fn :=
    {| Drizzle.text := fn +:+ "(" +:+ Drizzle.text operand +:+ ")";
       Drizzle.params := Drizzle.params operand |} in
  Drizzle.toQuery (Query.vec_length vec) = call "vec_length"
  /\ Drizzle.toQuery (Query.vec_normalize vec) = call "vec_normalize"
  /\ Drizzle.toQuery (Query.vec_to_json vec) = call "vec_to_json"
  /\ Drizzle.toQuery (Query.vec_quantize_i8 vec) = call "vec_quantize_i8"
  /\ Drizzle.toQuery (Query.vec_quantize_binary vec) = call "vec_quantize_binary"
  /\ (forall v, vec = Query.OfArray v ->
        operand = {| Drizzle.text := "?";
                     Drizzle.params := [Drizzle.VBlob (Vector.serializeVector v)] |})
  /\ (forall c, vec = Query.OfColumn c ->
        operand = {| Drizzle.text := Drizzle.columnRef c; Drizzle.params := [] |})
  /\ (forall q, vec = Query.OfSQL q -> operand = Drizzle.toQuery q).
Proof.
  cbv zeta.
  unfold Query.vec_length, Query.vec_normalize, Query.vec_to_json, Query.vec_quantize_i8,
    Query.vec_quantize_binary.
  rewrite !toQuery_unary.
  repeat (split; [reflexivity |]).
  split; [intros v ->; apply toQuery_toVectorSql_array |].
  split; [intros c ->; apply toQuery_toVectorSql_column |].
  intros q ->. reflexivity.
Qed.

Lemma X11_witness :
  Drizzle.toQuery (Query.vec_length (Query.OfSQL (Query.vec_normalize (Query.OfArray [3; 4]%float))))
  = {| Drizzle.text := "vec_length(vec_normalize(?))";
       Drizzle.params := [Drizzle.VBlob (Vector.serializeVector [3; 4]%float)] |}.
Proof.
  destruct (X11_unary_functions_lowering
              (Query.OfSQL (Query.vec_normalize (Query.OfArray [3; 4]%float))))
    as (Hlen & _ & _ & _ & _ & _ & _ & Hsql).
  rewrite Hlen, (Hsql _ eq_refl).
  destruct (X11_unary_functions_lowering (Query.OfArray [3; 4]%float))
    as (_ & Hnorm & _ & _ & _ & Harr & _ & _).
  rewrite Hnorm, (Harr _ eq_refl). reflexivity.
Defined.

(** X12. The two distance functions render as [name(left, right)] and bind the
    parameters of the left operand followed by those of the right one, for
    every pair of operands; with nested expressions the parameters keep the
    order in which their placeholders appear. *)
Theorem X12_distance_functions_lowering (vec1 vec2 : Query.VectorOperand) :
  let left := Drizzle.toQuery (Query.toVectorSql vec1) in
  let right := Drizzle.toQuery (Query.toVectorSql vec2) in
  Drizzle.toQuery (Query.vec_distance_L2 vec1 vec2)
  = {| Drizzle.text := "vec_distance_L2(" +:+ Drizzle.text left +:+ ", "
                         +:+ Drizzle.text right +:+ ")";
       Drizzle.params := Drizzle.params left ++ Drizzle.params right |}
  /\ Drizzle.toQuery (Query.vec_distance_cosine vec1 vec2)
     = {| Drizzle.text := "vec_distance_cosine(" +:+ Drizzle.text left +:+ ", "
                            +:+ Drizzle.text right +:+ ")";
          Drizzle.params := Drizzle.params left ++ Drizzle.params right |}
  /\ forall (c : Drizzle.SQLiteColumn) (a b : list float),
       Drizzle.toQuery
         (Query.vec_distance_L2 (Query.OfSQL (Query.vec_sub (Query.OfArray a) (Query.OfColumn c)))
                                (Query.OfArray b))
       = {| Drizzle.text := "vec_distance_L2(vec_sub(?, " +:+ Drizzle.columnRef c +:+ "), ?)";
            Drizzle.params := [ Drizzle.VBlob (Vector.serializeVector a);
                                Drizzle.VBlob (Vector.serializeVector b) ] |}.
Proof.
  cbv zeta. unfold Query.vec_distance_L2, Query.vec_distance_cosine.
  rewrite !toQuery_binary. split; [reflexivity |]. split; [reflexivity |].
  intros c a b. unfold Query.vec_sub. rewrite !toQuery_binary.
  cbn [Query.toVectorSql]. rewrite toQuery_binary.
  rewrite !toQuery_toVectorSql_array, toQuery_toVectorSql_column.
  cbn [Drizzle.text Drizzle.params app]. f_equal.
  cbn. now rewrite !append_assoc.
Qed.

(** X13. Scalar arguments are bound, not spliced: [vec_slice] binds the
    operand's parameters followed by [start] and [end]; [vec_f32] binds a
    string argument as one parameter and splices an SQL argument. *)
Theorem X13_scalar_arguments_are_bound (vec : Query.VectorOperand) (start end_ : float)
        (json : string) (q : Drizzle.SQL) :
  let operand := Drizzle.toQuery (Query.toVectorSql vec) in
  Drizzle.toQuery (Query.vec_slice vec start end_)
  = {| Drizzle.text := "vec_slice(" +:+ Drizzle.text operand +:+ ", ?, ?)";
       Drizzle.params := Drizzle.params operand
                           ++ [Drizzle.VNumber start; Drizzle.VNumber end_] |}
  /\ Drizzle.toQuery (Query.vec_f32 (Query.JsonString json))
     = {| Drizzle.text := "vec_f32(?)"; Drizzle.params := [Drizzle.VText json] |}
  /\ Drizzle.toQuery (Query.vec_f32 (Query.JsonSQL q))
     = {| Drizzle.text := "vec_f32(" +:+ Drizzle.text (Drizzle.toQuery q) +:+ ")";
          Drizzle.params := Drizzle.params (Drizzle.toQuery q) |}.
Proof.
  cbv zeta. split; [| split].
  - unfold Query.vec_slice. rewrite toQuery_sql3, buildChunk_chunk.
    cbn [Drizzle.buildChunk Drizzle.buildValue Drizzle.bound Drizzle.text Drizzle.params
         Drizzle.escapeParam app].
    reflexivity.
  - unfold Query.vec_f32. rewrite toQuery_sql1. reflexivity.
  - unfold Query.vec_f32. rewrite toQuery_sql1, buildChunk_chunk. reflexivity.
Qed.

Section SearchFacts.
Import Drizzle.
Local Open Scope list_scope.

Lemma length_append (a b : string) :
  String.length (a +:+ b) = (String.length a + String.length b)%nat.
Proof. induction a as [| c a IH]; simpl; [reflexivity | now rewrite IH]. Qed.

Lemma count_char_append (c : ascii) (a b : string) :
  count_char c (a +:+ b) = (count_char c a + count_char c b)%nat.
Proof. induction a as [| x a IH]; simpl; [reflexivity | rewrite IH; lia]. Qed.

Lemma count_char_escapeName (name : string) :
  count_char "?" (escapeName name) = count_char "?" name.
Proof. unfold escapeName, dquote. rewrite !count_char_append. simpl. lia. Qed.

Lemma has_char_count (c : ascii) (s : string) :
  has_char c s = false -> count_char c s = 0%nat.
Proof.
  induction s as [| a s IH]; simpl; [reflexivity |].
  destruct (Ascii.eqb a c); simpl; [discriminate | exact IH].
Qed.

Lemma replace_id_suffix_strip (base : string) :
  Query.replace_id_suffix (base +:+ "_id") = base.
Proof.
  induction base as [| c base IH]; [reflexivity |].
  cbn [String.append Query.replace_id_suffix].
  destruct (String.eqb_spec (String c (base +:+ "_id")) "_id") as [E | _].
  - apply (f_equal String.length) in E. cbn [String.length] in E.
    rewrite length_append in E. cbn in E. lia.
  - now rewrite IH.
Qed.

Lemma replace_id_suffix_keep (s : string) :
  (forall base, s <> base +:+ "_id") -> Query.replace_id_suffix s = s.
Proof.
  induction s as [| c s IH]; intros Hno; [reflexivity |].
  cbn [Query.replace_id_suffix].
  destruct (String.eqb_spec (String c s) "_id") as [E | _].
  - exfalso. apply (Hno ""). exact E.
  - rewrite IH; [reflexivity |]. intros base ->. apply (Hno (String c base)). reflexivity.
Qed.

Lemma joinTarget_strip (base : string) : Query.joinTarget (base +:+ "_id") = base.
Proof.
  unfold Query.joinTarget. rewrite replace_id_suffix_strip.
  destruct (String.eqb_spec base (base +:+ "_id")) as [E | _]; [| reflexivity].
  apply (f_equal String.length) in E. rewrite length_append in E. cbn in E. lia.
Qed.

Lemma joinTarget_default (joinColumn : string) :
  (forall base, joinColumn <> base +:+ "_id") -> Query.joinTarget joinColumn = "id".
Proof.
  intros Hno. unfold Query.joinTarget. rewrite replace_id_suffix_keep by exact Hno.
  now rewrite String.eqb_refl.
Qed.

End SearchFacts.

(** X14. [buildVectorSearchQuery] selects [rowid] and [distance] from the
    escaped table, matches the escaped vector column, and binds exactly two
    parameters: the serialized query vector, then the limit, which is 10 when
    the options give none. The other options ([minSimilarity], [maxDistance],
    [metric]) have no effect on the query. *)
Theorem X14_buildVectorSearchQuery_renders (tableName vectorColumn : string)
        (queryVector : list float) (options : Query.VectorSearchOptions) :
  let k := match Query.limit options with Some l => l | None => 10%float end in
  let q := Drizzle.toQuery (Query.buildVectorSearchQuery tableName vectorColumn queryVector options) in
  Drizzle.text q
  = Query.nl +:+ "    SELECT rowid, distance" +:+ Query.nl
      +:+ "    FROM " +:+ Drizzle.escapeName tableName +:+ Query.nl
      +:+ "    WHERE " +:+ Drizzle.escapeName vectorColumn +:+ " MATCH ?" +:+ Query.nl
      +:+ "      AND k = ?" +:+ Query.nl
      +:+ "    ORDER BY distance" +:+ Query.nl +:+ "  "
  /\ Drizzle.params q
     = [Drizzle.VBlob (Vector.serializeVector queryVector); Drizzle.VNumber k]
  /\ (forall options',
        Query.limit options' = Query.limit options ->
        Query.buildVectorSearchQuery tableName vectorColumn queryVector options'
        = Query.buildVectorSearchQuery tableName vectorColumn queryVector options)
  /\ (has_char "?" tableName = false -> has_char "?" vectorColumn = false ->
      count_char "?" (Drizzle.text q) = length (Drizzle.params q)).
Proof.
  cbv zeta. unfold Query.buildVectorSearchQuery. rewrite toQuery_sql4.
  cbn [Drizzle.buildChunk Drizzle.buildValue Drizzle.bound Drizzle.text Drizzle.params
       Drizzle.sql_identifier Drizzle.escapeParam app].
  split; [now rewrite !append_assoc |].
  split; [reflexivity |].
  split; [intros options' Hl; now rewrite Hl |].
  intros Ht Hc. rewrite !count_char_append, !count_char_escapeName.
  rewrite (has_char_count _ _ Ht), (has_char_count _ _ Hc). reflexivity.
Qed.

Lemma X14_witness :
  Drizzle.params
    (Drizzle.toQuery (Query.buildVectorSearchQuery "items_vec" "embedding" [1; 0]%float
                                                  Query.no_options))
  = [Drizzle.VBlob (Vector.serializeVector [1; 0]%float); Drizzle.VNumber 10]
  /\ count_char "?"
       (Drizzle.text
          (Drizzle.toQuery (Query.buildVectorSearchQuery "items_vec" "embedding" [1; 0]%float
                                                        Query.no_options)))
     = 2%nat.
Proof.
  destruct (X14_buildVectorSearchQuery_renders "items_vec" "embedding" [1; 0]%float Query.no_options)
    as (_ & Hp & _ & Hc).
  split; [exact Hp |]. rewrite (Hc eq_refl eq_refl), Hp. reflexivity.
Defined.

(** X15. [buildVectorSearchWithJoin] joins the data table on the column named
    by the join column without its [_id] suffix, and on [id] when the join
    column has no such suffix; like the plain search it binds the serialized
    query vector, then the limit (10 by default), and nothing else. *)
Theorem X15_buildVectorSearchWithJoin_renders (vecTableName dataTableName vectorColumn joinColumn : string)
        (queryVector : list float) (options : Query.VectorSearchOptions) :
  let k := match Query.limit options with Some l => l | None => 10%float end in
  let q := Drizzle.toQuery
             (Query.buildVectorSearchWithJoin vecTableName dataTableName vectorColumn joinColumn
                                              queryVector options) in
  Drizzle.text q
  = Query.nl +:+ "    SELECT " +:+ Drizzle.escapeName dataTableName
      +:+ ".*, vec_results.distance" +:+ Query.nl
      +:+ "    FROM " +:+ Drizzle.escapeName dataTableName +:+ Query.nl
      +:+ "    INNER JOIN (" +:+ Query.nl
      +:+ "      SELECT rowid, distance" +:+ Query.nl
      +:+ "      FROM " +:+ Drizzle.escapeName vecTableName +:+ Query.nl
      +:+ "      WHERE " +:+ Drizzle.escapeName vectorColumn +:+ " MATCH ?" +:+ Query.nl
      +:+ "        AND k = ?" +:+ Query.nl
      +:+ "    ) AS vec_results ON " +:+ Drizzle.escapeName dataTableName +:+ "."
      +:+ Drizzle.escapeName (Query.joinTarget joinColumn) +:+ " = vec_results.rowid" +:+ Query.nl
      +:+ "    ORDER BY vec_results.distance" +:+ Query.nl +:+ "  "
  /\ Drizzle.params q
     = [Drizzle.VBlob (Vector.serializeVector queryVector); Drizzle.VNumber k]
  /\ (forall base, joinColumn = base +:+ "_id" -> Query.joinTarget joinColumn = base)
  /\ ((forall base, joinColumn <> base +:+ "_id") -> Query.joinTarget joinColumn = "id").
Proof.
  cbv zeta. unfold Query.buildVectorSearchWithJoin. rewrite toQuery_sql8.
  cbn [Drizzle.buildChunk Drizzle.buildValue Drizzle.bound Drizzle.text Drizzle.params
       Drizzle.sql_identifier Drizzle.escapeParam app].
  split; [now rewrite !append_assoc |].
  split; [reflexivity |].
  split; [intros base ->; apply joinTarget_strip | apply joinTarget_default].
Qed.

Lemma X15_witness :
  Query.joinTarget "document_id" = "document" /\ Query.joinTarget "id" = "id".
Proof.
  split.
  - destruct (X15_buildVectorSearchWithJoin_renders "documents_vec" "documents" "embedding"
                "document_id" [] Query.no_options) as (_ & _ & Hstrip & _).
    apply (Hstrip "document"). reflexivity.
  - destruct (X15_buildVectorSearchWithJoin_renders "documents_vec" "documents" "embedding"
                "id" [] Query.no_options) as (_ & _ & _ & Hdef).
    apply Hdef. intros base E.
    apply (f_equal String.length) in E. rewrite length_append in E. cbn in E. lia.
Defined.

Section StatementFacts.
Import Drizzle VirtualTable Dml.
Local Open Scope list_scope.

Lemma toQuery_join_values {A : Type} (f : A -> value) (l : list A) :
  toQuery (sql_join (map chunk (map (fun x => value_sql (f x)) l)) comma)
  = {| text := join ", " (map (fun x => text (buildValue (f x))) l);
       params := flat_map (fun x => params (buildValue (f x))) l |}.
Proof.
  rewrite toQuery_join_sqls.
  f_equal; [f_equal; apply map_ext | apply flat_map_ext]; intros x; unfold value_sql;
    now rewrite toQuery_value.
Qed.

Lemma toQuery_insertVec0 (table : Vec0Table) (values : gmap string value) (stmt : SQL) :
  insertVec0 table values = Ok stmt ->
  toQuery stmt
  = {| text := "INSERT INTO " +:+ escapeName (table_name table) +:+ " ("
                 +:+ join ", " (map (fun col => escapeName (name col)) (presentColumns table values))
                 +:+ ") VALUES ("
                 +:+ join ", " (map (fun col => text (buildValue (serializeValue (get values (name col)) col)))
                                    (presentColumns table values))
                 +:+ ")";
       params := flat_map (fun col => params (buildValue (serializeValue (get values (name col)) col)))
                          (presentColumns table values) |}.
Proof.
  rewrite insertVec0_columns. cbv zeta.
  destruct (length (presentColumns table values) =? 0)%nat; [discriminate |].
  intros [= <-].
  rewrite toQuery_sql3, !buildChunk_chunk, toQuery_identifiers,
    (toQuery_join_values (fun col => serializeValue (get values (name col)) col)).
  cbn [text params buildChunk app sql_identifier]. now rewrite map_map.
Qed.

Lemma toQuery_insertManyVec0 (table : Vec0Table) (firstRow : gmap string value)
      (rest : list (gmap string value)) (stmt : SQL) :
  insertManyVec0 table (firstRow :: rest) = Ok stmt ->
  toQuery stmt
  = {| text := "INSERT INTO " +:+ escapeName (table_name table) +:+ " ("
                 +:+ join ", " (map (fun col => escapeName (name col)) (presentColumns table firstRow))
                 +:+ ") VALUES "
                 +:+ join ", "
                       (map (fun row =>
                               "(" +:+ join ", " (map (fun col => text (buildValue (serializeValue (get row (name col)) col)))
                                                      (presentColumns table firstRow)) +:+ ")")
                            (firstRow :: rest));
       params := flat_map (fun row =>
                             flat_map (fun col => params (buildValue (serializeValue (get row (name col)) col)))
                                      (presentColumns table firstRow))
                          (firstRow :: rest) |}.
Proof.
  rewrite insertManyVec0_columns. cbv zeta.
  generalize (firstRow :: rest). intros rows.
  set (cols := presentColumns table firstRow).
  destruct (length cols =? 0)%nat; [discriminate |].
  intros [= <-].
  rewrite toQuery_sql3, !buildChunk_chunk, toQuery_identifiers, toQuery_join_sqls.
  cbn [text params buildChunk app sql_identifier]. rewrite append_empty_r, map_map.
  rewrite (map_ext _ (fun row => "(" +:+ join ", " (map (fun col => text (buildValue (serializeValue (get row (name col)) col))) cols) +:+ ")"))
    by (intros row; now rewrite toQuery_tuple).
  rewrite (flat_map_ext _ (fun row => flat_map (fun col => params (buildValue (serializeValue (get row (name col)) col))) cols))
    by (intros row; now rewrite toQuery_tuple).
  reflexivity.
Qed.

Lemma toQuery_updateVec0 (table : Vec0Table) (values : gmap string value)
      (where_ : Vec0WhereCondition) (stmt : SQL) :
  updateVec0 table values where_ = Ok stmt ->
  toQuery stmt
  = {| text := "UPDATE " +:+ escapeName (table_name table) +:+ " SET "
                 +:+ join ", "
                       (map (fun col => escapeName (name col) +:+ " = "
                                          +:+ text (buildValue (serializeValue (get values (name col)) col)))
                            (presentColumns table values))
                 +:+ " WHERE " +:+ text (toQuery (whereClause where_));
       params := flat_map (fun col => params (buildValue (serializeValue (get values (name col)) col)))
                          (presentColumns table values)
                 ++ params (toQuery (whereClause where_)) |}.
Proof.
  rewrite updateVec0_columns. cbv zeta.
  destruct (length (presentColumns table values) =? 0)%nat; [discriminate |].
  intros [= <-].
  rewrite toQuery_sql3, !buildChunk_chunk, toQuery_join_sqls.
  cbn [text params buildChunk app sql_identifier]. rewrite append_empty_r.
  rewrite (map_ext _ (fun col => escapeName (name col) +:+ " = "
                                   +:+ text (buildValue (serializeValue (get values (name col)) col))))
    by (intros col; rewrite toQuery_sql2; cbn [text params buildChunk sql_identifier];
        now rewrite append_empty_r).
  rewrite (flat_map_ext _ (fun col => params (buildValue (serializeValue (get values (name col)) col))))
    by (intros col; rewrite toQuery_sql2; reflexivity).
  reflexivity.
Qed.

Lemma toQuery_whereClause_rowid (rowid : float) :
  toQuery (whereClause (WhereRowid rowid)) = {| text := "rowid = ?"; params := [VNumber rowid] |}.
Proof. unfold whereClause. rewrite toQuery_sql1. reflexivity. Qed.

Lemma toQuery_deleteVec0 (table : Vec0Table) (where_ : Vec0WhereCondition) :
  toQuery (deleteVec0 table where_)
  = {| text := "DELETE FROM " +:+ escapeName (table_name table) +:+ " WHERE "
                 +:+ text (toQuery (whereClause where_));
       params := params (toQuery (whereClause where_)) |}.
Proof.
  unfold deleteVec0. rewrite toQuery_sql2, buildChunk_chunk.
  cbn [text params buildChunk app sql_identifier]. now rewrite append_empty_r.
Qed.

(** What [serializeValue] hands to the statement is bound as one parameter,
    unless it is an array left as it is. *)
Lemma buildValue_serialized (v : value) (col : Vec0ColumnConfig) :
  (forall items, v = VArray items -> isVectorColumn col = true) ->
  buildValue (serializeValue v col) = {| text := "?"; params := [serializeValue v col] |}.
Proof.
  intros Harr. destruct v; try reflexivity.
  unfold serializeValue. rewrite (Harr items eq_refl). reflexivity.
Qed.

End StatementFacts.

Section KeyFacts.
Import Drizzle VirtualTable Dml.
Local Open Scope list_scope.

Lemma get_insert_other (values : gmap string value) (key : string) (v : value) (k : string) :
  k <> key -> get (<[key := v]> values) k = get values k.
Proof. intros Hne. unfold get. now rewrite lookup_insert_ne by congruence. Qed.

Lemma presentColumns_insert_other (table : Vec0Table) (values : gmap string value)
      (key : string) (v : value) :
  (forall col, In col (columns table) -> name col <> key) ->
  presentColumns table (<[key := v]> values) = presentColumns table values.
Proof.
  intros Hno. unfold presentColumns. apply filter_ext_in.
  intros col Hin. now rewrite get_insert_other by (apply Hno, Hin).
Qed.

Lemma In_presentColumns (table : Vec0Table) (values : gmap string value) (col : Vec0ColumnConfig) :
  In col (presentColumns table values) ->
  In col (columns table) /\ defined (get values (name col)) = true.
Proof. unfold presentColumns. intros H. now apply filter_In in H. Qed.

(** Rows that agree on the declared columns give the same statement. *)
Lemma insertManyVec0_ext (table : Vec0Table) (rows rows' : list (gmap string value)) :
  Forall2 (fun row row' => forall col, In col (columns table) ->
                                       get row (name col) = get row' (name col)) rows rows' ->
  insertManyVec0 table rows = insertManyVec0 table rows'.
Proof.
  intros Hall. destruct Hall as [| firstRow firstRow' rest rest' Hfirst Hrest]; [reflexivity |].
  rewrite !insertManyVec0_columns. cbv zeta.
  assert (Hpres : presentColumns table firstRow = presentColumns table firstRow').
  { unfold presentColumns. apply filter_ext_in. intros col Hin. now rewrite (Hfirst col Hin). }
  rewrite <- Hpres. set (cols := presentColumns table firstRow).
  set (tuple := fun row : gmap string value =>
                  sql ["("; ")"]
                      [chunk (sql_join
                                (map chunk
                                   (map (fun col => value_sql (serializeValue (get row (name col)) col))
                                        cols)) comma)]).
  assert (Htuple : forall row row',
            (forall col, In col (columns table) -> get row (name col) = get row' (name col)) ->
            tuple row = tuple row').
  { intros row row' Hrow. unfold tuple.
    assert (Hm : map (fun col => value_sql (serializeValue (get row (name col)) col)) cols
                 = map (fun col => value_sql (serializeValue (get row' (name col)) col)) cols).
    { apply map_ext_in. intros col Hin. apply In_presentColumns in Hin as [Hin _].
      now rewrite (Hrow col Hin). }
    now rewrite Hm. }
  assert (Hrows : map tuple (firstRow :: rest) = map tuple (firstRow' :: rest')).
  { cbn [map]. rewrite (Htuple firstRow firstRow' Hfirst). f_equal.
    clear - Hrest Htuple. induction Hrest as [| row row' rest rest' Hrow Hrest IH]; [reflexivity |].
    cbn [map]. now rewrite (Htuple row row' Hrow), IH. }
  now rewrite Hrows.
Qed.

(** Cells that are one placeholder each. *)
Lemma cells_bound {A : Type} (cell : A -> Query) (b : A -> value) (l : list A) :
  (forall x, In x l -> cell x = {| text := "?"; params := [b x] |}) ->
  map (fun x => text (cell x)) l = map (fun _ => "?") l
  /\ flat_map (fun x => params (cell x)) l = map b l.
Proof.
  induction l as [| x l IH]; intros H; [split; reflexivity |].
  destruct IH as [IHt IHp]; [intros y Hy; apply H; now right |].
  cbn [map flat_map]. rewrite IHt, IHp, (H x) by now left. split; reflexivity.
Qed.

End KeyFacts.

(** X16. [insertVec0] lists the declared columns that read as a defined value
    from the value map, in the order of the table, with their names escaped,
    and binds their serialized values in the same order. A column whose value
    is [null] is listed and bound as [null]; every value other than an array
    given for a non-vector column is one [?] with one parameter. A column is
    listed when the map holds a defined value under its name, or holds nothing
    under it and the name is that of a member of [Object.prototype], which is
    then the value bound. *)
Theorem X16_insertVec0_renders (table : VirtualTable.Vec0Table) (values : gmap string Drizzle.value) :
  let cols := Dml.presentColumns table values in
  let bound col := Dml.serializeValue (Dml.get values (VirtualTable.name col)) col in
  cols <> [] ->
  (forall col items, In col cols -> Dml.get values (VirtualTable.name col) = Drizzle.VArray items ->
                     Dml.isVectorColumn col = true) ->
  exists stmt,
    Dml.insertVec0 table values = Ok stmt
    /\ Drizzle.toQuery stmt
       = {| Drizzle.text :=
              "INSERT INTO " +:+ Drizzle.escapeName (VirtualTable.table_name table) +:+ " ("
                +:+ join ", " (map (fun col => Drizzle.escapeName (VirtualTable.name col)) cols)
                +:+ ") VALUES (" +:+ join ", " (map (fun _ => "?") cols) +:+ ")";
            Drizzle.params := map bound cols |}
    /\ (forall col, In col (VirtualTable.columns table) ->
                    Dml.get values (VirtualTable.name col) = Drizzle.VNull ->
                    In col cols /\ bound col = Drizzle.VNull)
    /\ (forall col,
          In col cols
          <-> In col (VirtualTable.columns table)
              /\ ((exists v, values !! VirtualTable.name col = Some v /\ v <> Drizzle.VUndefined)
                  \/ (values !! VirtualTable.name col = None
                      /\ Js.inherited (VirtualTable.name col) = true)))
    /\ (forall col, In col (VirtualTable.columns table) ->
                    values !! VirtualTable.name col = None ->
                    Js.inherited (VirtualTable.name col) = true ->
                    In col cols /\ bound col = Drizzle.VInherited (VirtualTable.name col)).
Proof.
  intros cols bound Hne Harr.
  destruct (insertVec0_cases table values) as [[Hnil _] | [_ [stmt Hstmt]]]; [contradiction |].
  exists stmt. split; [exact Hstmt |].
  split; [| split; [| split; [intros col; apply In_presentColumns_iff |]]];
    [| | intros col Hin Hnone Hinh; split;
         [apply In_presentColumns_iff; split; [exact Hin | now right]
         | unfold bound; now rewrite (get_inherited values _ Hnone Hinh)]].
  - rewrite (toQuery_insertVec0 table values stmt Hstmt). fold cols.
    assert (Hcell : forall col, In col cols ->
              Drizzle.buildValue (Dml.serializeValue (Dml.get values (VirtualTable.name col)) col)
              = {| Drizzle.text := "?"; Drizzle.params := [bound col] |}).
    { intros col Hin. apply buildValue_serialized. intros items Hv. exact (Harr col items Hin Hv). }
    destruct (cells_bound _ bound cols Hcell) as [-> ->]. reflexivity.
  - intros col Hin Hnull. split.
    + unfold cols, Dml.presentColumns. apply filter_In. split; [exact Hin |]. now rewrite Hnull.
    + unfold bound. now rewrite Hnull.
Qed.

Lemma X16_witness :
  exists stmt,
    Dml.insertVec0
      (VirtualTable.vec0Table "items_vec"
         [("id", VirtualTable.Vec0ColumnBuilder.primaryKey (VirtualTable.vecInteger "id"));
          ("title", VirtualTable.vecText "title");
          ("embedding", VirtualTable.vecFloat "embedding" 2)])
      {[ "embedding" := Drizzle.VArray [1; 0]%float; "id" := Drizzle.VNull ]} = Ok stmt
    /\ Drizzle.toQuery stmt
       = {| Drizzle.text := "INSERT INTO " +:+ Drizzle.escapeName "items_vec" +:+ " ("
                              +:+ Drizzle.escapeName "id" +:+ ", " +:+ Drizzle.escapeName "embedding"
                              +:+ ") VALUES (?, ?)";
            Drizzle.params := [Drizzle.VNull; Drizzle.VBlob (Vector.serializeVector [1; 0]%float)] |}.
Proof.
  destruct (X16_insertVec0_renders
              (VirtualTable.vec0Table "items_vec"
                 [("id", VirtualTable.Vec0ColumnBuilder.primaryKey (VirtualTable.vecInteger "id"));
                  ("title", VirtualTable.vecText "title");
                  ("embedding", VirtualTable.vecFloat "embedding" 2)])
              {[ "embedding" := Drizzle.VArray [1; 0]%float; "id" := Drizzle.VNull ]})
    as (stmt & Hstmt & Hq & _).
  - vm_compute. discriminate.
  - intros col items Hin Hv. vm_compute in Hin.
    destruct Hin as [<- | [<- | []]]; [vm_compute in Hv; discriminate | reflexivity].
  - exists stmt. split; [exact Hstmt |]. rewrite Hq. vm_compute. reflexivity.
Defined.

(** X17. Keys of the value map that are not declared columns play no part:
    adding such a key changes neither the statement nor the error of
    [insertVec0], [updateVec0] and [insertManyVec0]. *)
Theorem X17_undeclared_keys_ignored (table : VirtualTable.Vec0Table)
        (values : gmap string Drizzle.value) (rows : list (gmap string Drizzle.value))
        (where_ : Dml.Vec0WhereCondition) (key : string) (v : Drizzle.value) :
  (forall col, In col (VirtualTable.columns table) -> VirtualTable.name col <> key) ->
  Dml.insertVec0 table (<[key := v]> values) = Dml.insertVec0 table values
  /\ Dml.updateVec0 table (<[key := v]> values) where_ = Dml.updateVec0 table values where_
  /\ Dml.insertManyVec0 table (map (fun row => <[key := v]> row) rows)
     = Dml.insertManyVec0 table rows.
Proof.
  intros Hno.
  assert (Hget : forall row col, In col (VirtualTable.columns table) ->
            Dml.get (<[key := v]> row) (VirtualTable.name col) = Dml.get row (VirtualTable.name col))
    by (intros row col Hin; apply get_insert_other, Hno, Hin).
  split; [| split].
  - rewrite !insertVec0_columns. cbv zeta.
    rewrite (presentColumns_insert_other table values key v Hno).
    rewrite (map_ext_in
               (fun col => Dml.value_sql (Dml.serializeValue (Dml.get (<[key := v]> values) (VirtualTable.name col)) col))
               (fun col => Dml.value_sql (Dml.serializeValue (Dml.get values (VirtualTable.name col)) col)));
      [reflexivity |].
    intros col Hin. apply In_presentColumns in Hin as [Hin _]. now rewrite Hget.
  - rewrite !updateVec0_columns. cbv zeta.
    rewrite (presentColumns_insert_other table values key v Hno).
    rewrite (map_ext_in
               (fun col => Drizzle.sql [""; " = "; ""]
                             [Drizzle.sql_identifier (VirtualTable.name col);
                              Drizzle.ValueChunk (Dml.serializeValue (Dml.get (<[key := v]> values) (VirtualTable.name col)) col)])
               (fun col => Drizzle.sql [""; " = "; ""]
                             [Drizzle.sql_identifier (VirtualTable.name col);
                              Drizzle.ValueChunk (Dml.serializeValue (Dml.get values (VirtualTable.name col)) col)]));
      [reflexivity |].
    intros col Hin. apply In_presentColumns in Hin as [Hin _]. now rewrite Hget.
  - apply insertManyVec0_ext. clear - Hget.
    induction rows as [| row rows IH]; constructor; [| exact IH].
    intros col Hin. apply Hget, Hin.
Qed.

Lemma X17_witness :
  Dml.insertVec0 (VirtualTable.vec0Table "items_vec" [("embedding", VirtualTable.vecFloat "embedding" 2)])
                 (<["note" := Drizzle.VText "ignored"]> {[ "embedding" := Drizzle.VArray [1; 0]%float ]})
  = Dml.insertVec0 (VirtualTable.vec0Table "items_vec" [("embedding", VirtualTable.vecFloat "embedding" 2)])
                   {[ "embedding" := Drizzle.VArray [1; 0]%float ]}.
Proof.
  refine (proj1 (X17_undeclared_keys_ignored
                   (VirtualTable.vec0Table "items_vec" [("embedding", VirtualTable.vecFloat "embedding" 2)])
                   {[ "embedding" := Drizzle.VArray [1; 0]%float ]} []
                   (Dml.WhereRowid 1) "note" (Drizzle.VText "ignored") _)).
  intros col [<- | []]. discriminate.
Defined.

(** X18. [insertManyVec0] on a single row renders the same text and binds the
    same parameters as [insertVec0] on that row, and the one fails exactly
    when the other does. *)
Theorem X18_insertMany_single_row (table : VirtualTable.Vec0Table) (row : gmap string Drizzle.value) :
  (forall stmt, Dml.insertVec0 table row = Ok stmt ->
     exists stmt', Dml.insertManyVec0 table [row] = Ok stmt'
                   /\ Drizzle.toQuery stmt' = Drizzle.toQuery stmt)
  /\ (Dml.insertVec0 table row = Throw "insertVec0: No values provided for insert"
      <-> Dml.insertManyVec0 table [row] = Throw "insertManyVec0: No values provided for insert").
Proof.
  split.
  - intros stmt Hstmt.
    destruct (insertManyVec0_cases table row []) as [[Hnil _] | [_ [stmt' Hstmt']]].
    + destruct (insertVec0_cases table row) as [[_ Hthrow] | [Hne _]]; [congruence | contradiction].
    + exists stmt'. split; [exact Hstmt' |].
      rewrite (toQuery_insertVec0 table row stmt Hstmt),
        (toQuery_insertManyVec0 table row [] stmt' Hstmt').
      cbn [map join flat_map]. rewrite app_nil_r. f_equal; now rewrite ?append_assoc.
  - destruct (insertVec0_cases table row) as [[Hnil H1] | [Hne [stmt H1]]];
      destruct (insertManyVec0_cases table row []) as [[Hnil' H2] | [Hne' [stmt' H2]]];
      try contradiction; rewrite H1, H2; split; intros H; first [reflexivity | discriminate H].
Qed.

Lemma X18_witness :
  exists stmt',
    Dml.insertManyVec0
      (VirtualTable.vec0Table "items_vec" [("embedding", VirtualTable.vecFloat "embedding" 2)])
      [ {[ "embedding" := Drizzle.VArray [1; 0]%float ]} ] = Ok stmt'
    /\ Drizzle.toQuery stmt'
       = {| Drizzle.text := "INSERT INTO " +:+ Drizzle.escapeName "items_vec" +:+ " ("
                              +:+ Drizzle.escapeName "embedding" +:+ ") VALUES (?)";
            Drizzle.params := [Drizzle.VBlob (Vector.serializeVector [1; 0]%float)] |}.
Proof.
  destruct (Dml.insertVec0
              (VirtualTable.vec0Table "items_vec" [("embedding", VirtualTable.vecFloat "embedding" 2)])
              {[ "embedding" := Drizzle.VArray [1; 0]%float ]}) as [stmt | msg] eqn:Hstmt;
    [| vm_compute in Hstmt; discriminate].
  destruct (proj1 (X18_insertMany_single_row
                     (VirtualTable.vec0Table "items_vec" [("embedding", VirtualTable.vecFloat "embedding" 2)])
                     {[ "embedding" := Drizzle.VArray [1; 0]%float ]}) stmt Hstmt)
    as (stmt' & Hmany & Hq).
  exists stmt'. split; [exact Hmany |]. rewrite Hq.
  vm_compute in Hstmt. injection Hstmt as <-. vm_compute. reflexivity.
Defined.

(** X19. [deleteVec0] never fails and does not look at the columns: a row id
    is bound as the one parameter of [rowid = ?]; an SQL condition is spliced
    with its own text and parameters. *)
Theorem X19_deleteVec0_renders (table : VirtualTable.Vec0Table) (rowid : float) (condition : Drizzle.SQL) :
  Drizzle.toQuery (Dml.deleteVec0 table (Dml.WhereRowid rowid))
  = {| Drizzle.text := "DELETE FROM " +:+ Drizzle.escapeName (VirtualTable.table_name table)
                         +:+ " WHERE rowid = ?";
       Drizzle.params := [Drizzle.VNumber rowid] |}
  /\ Drizzle.toQuery (Dml.deleteVec0 table (Dml.WhereSQL condition))
     = {| Drizzle.text := "DELETE FROM " +:+ Drizzle.escapeName (VirtualTable.table_name table)
                            +:+ " WHERE " +:+ Drizzle.text (Drizzle.toQuery condition);
          Drizzle.params := Drizzle.params (Drizzle.toQuery condition) |}.
Proof.
  rewrite !toQuery_deleteVec0, toQuery_whereClause_rowid. split; reflexivity.
Qed.

(** X20. [updateVec0] assigns the declared columns that read as a defined
    value from the value map, in the order of the table, and binds their
    serialized values first and the parameters of the condition after them. A
    column is assigned when the map holds a defined value under its name, or
    holds nothing under it and the name is that of a member of
    [Object.prototype], which is then the value bound. *)
Theorem X20_updateVec0_renders (table : VirtualTable.Vec0Table) (values : gmap string Drizzle.value)
        (where_ : Dml.Vec0WhereCondition) :
  let cols := Dml.presentColumns table values in
  let bound col := Dml.serializeValue (Dml.get values (VirtualTable.name col)) col in
  let condition := Drizzle.toQuery (Dml.whereClause where_) in
  cols <> [] ->
  (forall col items, In col cols -> Dml.get values (VirtualTable.name col) = Drizzle.VArray items ->
                     Dml.isVectorColumn col = true) ->
  exists stmt,
    Dml.updateVec0 table values where_ = Ok stmt
    /\ Drizzle.toQuery stmt
       = {| Drizzle.text :=
              "UPDATE " +:+ Drizzle.escapeName (VirtualTable.table_name table) +:+ " SET "
                +:+ join ", " (map (fun col => Drizzle.escapeName (VirtualTable.name col) +:+ " = ?") cols)
                +:+ " WHERE " +:+ Drizzle.text condition;
            Drizzle.params := map bound cols ++ Drizzle.params condition |}
    /\ (forall rowid, where_ = Dml.WhereRowid rowid ->
          condition = {| Drizzle.text := "rowid = ?"; Drizzle.params := [Drizzle.VNumber rowid] |})
    /\ (forall col,
          In col cols
          <-> In col (VirtualTable.columns table)
              /\ ((exists v, values !! VirtualTable.name col = Some v /\ v <> Drizzle.VUndefined)
                  \/ (values !! VirtualTable.name col = None
                      /\ Js.inherited (VirtualTable.name col) = true)))
    /\ (forall col, In col (VirtualTable.columns table) ->
                    values !! VirtualTable.name col = None ->
                    Js.inherited (VirtualTable.name col) = true ->
                    In col cols /\ bound col = Drizzle.VInherited (VirtualTable.name col)).
Proof.
  intros cols bound condition Hne Harr.
  destruct (updateVec0_cases table values where_) as [[Hnil _] | [_ [stmt Hstmt]]]; [contradiction |].
  exists stmt. split; [exact Hstmt |].
  split; [| split; [| split; [intros col; apply In_presentColumns_iff |]]];
    [| | intros col Hin Hnone Hinh; split;
         [apply In_presentColumns_iff; split; [exact Hin | now right]
         | unfold bound; now rewrite (get_inherited values _ Hnone Hinh)]].
  - rewrite (toQuery_updateVec0 table values where_ stmt Hstmt). fold cols condition.
    assert (Hcell : forall col, In col cols ->
              Drizzle.buildValue (Dml.serializeValue (Dml.get values (VirtualTable.name col)) col)
              = {| Drizzle.text := "?"; Drizzle.params := [bound col] |}).
    { intros col Hin. apply buildValue_serialized. intros items Hv. exact (Harr col items Hin Hv). }
    destruct (cells_bound _ bound cols Hcell) as [_ ->].
    rewrite (map_ext_in
               (fun col => Drizzle.escapeName (VirtualTable.name col) +:+ " = "
                             +:+ Drizzle.text (Drizzle.buildValue (Dml.serializeValue (Dml.get values (VirtualTable.name col)) col)))
               (fun col => Drizzle.escapeName (VirtualTable.name col) +:+ " = ?"));
      [reflexivity |].
    intros col Hin. now rewrite (Hcell col Hin).
  - intros rowid ->. apply toQuery_whereClause_rowid.
Qed.

Lemma X20_witness :
  exists stmt,
    Dml.updateVec0
      (VirtualTable.vec0Table "items_vec"
         [("title", VirtualTable.vecText "title");
          ("embedding", VirtualTable.vecFloat "embedding" 2)])
      {[ "embedding" := Drizzle.VArray [1; 0]%float; "title" := Drizzle.VText "a" ]}
      (Dml.WhereRowid 7) = Ok stmt
    /\ Drizzle.toQuery stmt
       = {| Drizzle.text := "UPDATE " +:+ Drizzle.escapeName "items_vec" +:+ " SET "
                              +:+ Drizzle.escapeName "title" +:+ " = ?, "
                              +:+ Drizzle.escapeName "embedding" +:+ " = ? WHERE rowid = ?";
            Drizzle.params := [ Drizzle.VText "a";
                                Drizzle.VBlob (Vector.serializeVector [1; 0]%float);
                                Drizzle.VNumber 7 ] |}.
Proof.
  destruct (X20_updateVec0_renders
              (VirtualTable.vec0Table "items_vec"
                 [("title", VirtualTable.vecText "title");
                  ("embedding", VirtualTable.vecFloat "embedding" 2)])
              {[ "embedding" := Drizzle.VArray [1; 0]%float; "title" := Drizzle.VText "a" ]}
              (Dml.WhereRowid 7))
    as (stmt & Hstmt & Hq & Hw & _).
  - vm_compute. discriminate.
  - intros col items Hin Hv. vm_compute in Hin.
    destruct Hin as [<- | [<- | []]]; [vm_compute in Hv; discriminate | reflexivity].
  - exists stmt. split; [exact Hstmt |]. rewrite Hq, (Hw 7%float eq_refl). vm_compute. reflexivity.
Defined.

(** X21. [serializeValue] never hands [undefined] to a statement ([null] and
    [undefined] both become [null]); an array given for a vector column of
    any kind (float, int8 or bit) becomes the float32 blob of [4 * n] bytes
    that decodes to its elements rounded to float32; an array given for any
    other column is passed on as it is; applying it twice changes nothing. *)
Theorem X21_serializeValue_cases (v : Drizzle.value) (config : VirtualTable.Vec0ColumnConfig) :
  Dml.serializeValue v config <> Drizzle.VUndefined
  /\ (Dml.defined v = false \/ v = Drizzle.VNull -> Dml.serializeValue v config = Drizzle.VNull)
  /\ (forall items, v = Drizzle.VArray items ->
        VirtualTable.isVectorType (VirtualTable.type config) = true ->
        exists b, Dml.serializeValue v config = Drizzle.VBlob b
                  /\ Vector.byteLength b = (4 * length items)%nat
                  /\ Vector.deserializeVector b = Ok (map Vector.fround items))
  /\ (forall items, v = Drizzle.VArray items ->
        VirtualTable.isVectorType (VirtualTable.type config) = false ->
        Dml.serializeValue v config = v)
  /\ Dml.serializeValue (Dml.serializeValue v config) config = Dml.serializeValue v config.
Proof.
  split; [| split; [| split; [| split]]].
  - destruct v; try discriminate. simpl. destruct (Dml.isVectorColumn config); discriminate.
  - intros [Hd | ->]; [| reflexivity]. destruct v; try discriminate. reflexivity.
  - intros items -> Hty. exists (Vector.serializeVector items).
    split; [| split].
    + unfold Dml.serializeValue, Dml.isVectorColumn.
      destruct (VirtualTable.type config); try discriminate; reflexivity.
    + unfold Vector.serializeVector, Vector.Buffer_from. cbn [Vector.byteLength].
      apply length_Float32Array_of.
    + apply deserialize_serialize.
  - intros items -> Hty. unfold Dml.serializeValue, Dml.isVectorColumn.
    destruct (VirtualTable.type config); try discriminate; reflexivity.
  - destruct v; try reflexivity. simpl.
    destruct (Dml.isVectorColumn config) eqn:E; simpl; [reflexivity | now rewrite E].
Qed.

Lemma X21_witness :
  exists b,
    Dml.serializeValue (Drizzle.VArray [1; 2; 3]%float) (VirtualTable.vecInt8 "q" 3) = Drizzle.VBlob b
    /\ Vector.byteLength b = 12%nat.
Proof.
  destruct (X21_serializeValue_cases (Drizzle.VArray [1; 2; 3]%float) (VirtualTable.vecInt8 "q" 3))
    as (_ & _ & Harr & _).
  destruct (Harr [1; 2; 3]%float eq_refl eq_refl) as (b & Hb & Hlen & _).
  exists b. split; [exact Hb | exact Hlen].
Defined.

Section PlaceholderFacts.
Import Drizzle VirtualTable Dml.
Local Open Scope list_scope.

Lemma balanced_join {A : Type} (t : A -> string) (p : A -> list value) (l : list A) :
  (forall x, In x l -> count_char "?" (t x) = length (p x)) ->
  count_char "?" (join ", " (map t l)) = length (flat_map p l).
Proof.
  induction l as [| x l IH]; intros H; [reflexivity |].
  cbn [map flat_map]. rewrite length_app, <- IH by (intros y Hy; apply H; now right).
  rewrite <- (H x) by now left.
  destruct l as [| y l]; [cbn; lia |].
  change (join ", " (t x :: map t (y :: l))) with (t x +:+ ", " +:+ join ", " (map t (y :: l))).
  rewrite !count_char_append. cbn. lia.
Qed.

Lemma balanced_buildValue (v : value) : balanced (buildValue v).
Proof.
  unfold balanced. destruct v; try reflexivity.
  cbn [buildValue]. rewrite mergeQueries_cons. unfold merge2. cbn [text params app].
  rewrite count_char_append. cbn [count_char Ascii.eqb Bool.eqb Nat.add].
  clear. induction items as [| x items IH]; [reflexivity |].
  destruct items as [| y items]; [reflexivity |].
  change (list_items (x :: y :: items))
    with (bound (VNumber x) :: {| text := ", "; params := [] |} :: list_items (y :: items)).
  cbn [app]. rewrite !mergeQueries_cons. unfold merge2 at 1 2.
  cbn [text params bound app escapeParam].
  rewrite !count_char_append, IH. cbn. lia.
Qed.

Lemma balanced_whereClause_rowid (rowid : float) :
  balanced (toQuery (whereClause (WhereRowid rowid))).
Proof. rewrite toQuery_whereClause_rowid. reflexivity. Qed.

End PlaceholderFacts.

Section BalancedFacts.
Import Drizzle VirtualTable Dml.
Local Open Scope list_scope.

Lemma count_names (cols : list Vec0ColumnConfig) :
  (forall col, In col cols -> has_char "?" (name col) = false) ->
  count_char "?" (join ", " (map (fun col => escapeName (name col)) cols)) = 0%nat.
Proof.
  intros H.
  rewrite (balanced_join (fun col => escapeName (name col)) (fun _ => []) cols).
  - clear H. induction cols as [| c cols IH]; [reflexivity | exact IH].
  - intros col Hin. rewrite count_char_escapeName. cbn. apply has_char_count, H, Hin.
Qed.

Lemma count_cells (cols : list Vec0ColumnConfig) (row : gmap string value) :
  count_char "?" (join ", " (map (fun col => text (buildValue (serializeValue (get row (name col)) col))) cols))
  = length (flat_map (fun col => params (buildValue (serializeValue (get row (name col)) col))) cols).
Proof. apply balanced_join. intros col _. apply balanced_buildValue. Qed.

End BalancedFacts.

(** X22. Every statement the DML helpers build has as many [?] placeholders as
    bound parameters, provided the table and column names contain no [?] and
    the condition given to [updateVec0] or [deleteVec0] is itself balanced
    (as a row id condition always is). *)
Theorem X22_statements_are_balanced (table : VirtualTable.Vec0Table)
        (values : gmap string Drizzle.value) (rows : list (gmap string Drizzle.value))
        (where_ : Dml.Vec0WhereCondition) :
  has_char "?" (VirtualTable.table_name table) = false ->
  (forall col, In col (VirtualTable.columns table) -> has_char "?" (VirtualTable.name col) = false) ->
  balanced (Drizzle.toQuery (Dml.whereClause where_)) ->
  (forall stmt, Dml.insertVec0 table values = Ok stmt -> balanced (Drizzle.toQuery stmt))
  /\ (forall stmt, Dml.insertManyVec0 table rows = Ok stmt -> balanced (Drizzle.toQuery stmt))
  /\ (forall stmt, Dml.updateVec0 table values where_ = Ok stmt -> balanced (Drizzle.toQuery stmt))
  /\ balanced (Drizzle.toQuery (Dml.deleteVec0 table where_))
  /\ (forall rowid, balanced (Drizzle.toQuery (Dml.whereClause (Dml.WhereRowid rowid)))).
Proof.
  intros Htable Hcols Hwhere.
  assert (Ht : count_char "?" (Drizzle.escapeName (VirtualTable.table_name table)) = 0%nat)
    by (rewrite count_char_escapeName; now apply has_char_count).
  assert (Hnames : forall vals,
            count_char "?" (join ", " (map (fun col => Drizzle.escapeName (VirtualTable.name col))
                                           (Dml.presentColumns table vals))) = 0%nat).
  { intros vals. apply count_names. intros col Hin.
    apply In_presentColumns in Hin as [Hin _]. now apply Hcols. }
  split; [| split; [| split; [| split]]].
  - intros stmt Hstmt. unfold balanced.
    rewrite (toQuery_insertVec0 table values stmt Hstmt). cbn [Drizzle.text Drizzle.params].
    rewrite !count_char_append, Ht, Hnames, count_cells. cbn; lia.
  - intros stmt Hstmt. destruct rows as [| firstRow rest]; [discriminate |]. unfold balanced.
    rewrite (toQuery_insertManyVec0 table firstRow rest stmt Hstmt).
    cbn [Drizzle.text Drizzle.params].
    rewrite !count_char_append, Ht, Hnames.
    rewrite (balanced_join
               (fun row => "(" +:+ join ", " (map (fun col => Drizzle.text (Drizzle.buildValue (Dml.serializeValue (Dml.get row (VirtualTable.name col)) col)))
                                                   (Dml.presentColumns table firstRow)) +:+ ")")
               (fun row => flat_map (fun col => Drizzle.params (Drizzle.buildValue (Dml.serializeValue (Dml.get row (VirtualTable.name col)) col)))
                                    (Dml.presentColumns table firstRow))).
    + cbn; lia.
    + intros row _. rewrite !count_char_append, count_cells. cbn. lia.
  - intros stmt Hstmt. unfold balanced.
    rewrite (toQuery_updateVec0 table values where_ stmt Hstmt). cbn [Drizzle.text Drizzle.params].
    rewrite !count_char_append, Ht, length_app, <- Hwhere.
    rewrite (balanced_join
               (fun col => Drizzle.escapeName (VirtualTable.name col) +:+ " = "
                             +:+ Drizzle.text (Drizzle.buildValue (Dml.serializeValue (Dml.get values (VirtualTable.name col)) col)))
               (fun col => Drizzle.params (Drizzle.buildValue (Dml.serializeValue (Dml.get values (VirtualTable.name col)) col)))).
    + cbn; lia.
    + intros col Hin. apply In_presentColumns in Hin as [Hin _].
      rewrite !count_char_append, count_char_escapeName, (has_char_count _ _ (Hcols col Hin)).
      apply balanced_buildValue.
  - unfold balanced. rewrite toQuery_deleteVec0. cbn [Drizzle.text Drizzle.params].
    rewrite !count_char_append, Ht, <- Hwhere. cbn; lia.
  - intros rowid. apply balanced_whereClause_rowid.
Qed.

Lemma X22_witness :
  balanced
    (Drizzle.toQuery
       (Dml.deleteVec0
          (VirtualTable.vec0Table "items_vec" [("embedding", VirtualTable.vecFloat "embedding" 2)])
          (Dml.WhereRowid 3))).
Proof.
  refine (proj1 (proj2 (proj2 (proj2
            (X22_statements_are_balanced
               (VirtualTable.vec0Table "items_vec" [("embedding", VirtualTable.vecFloat "embedding" 2)])
               ∅ [] (Dml.WhereRowid 3) _ _ _))))).
  - reflexivity.
  - intros col [<- | []]. reflexivity.
  - reflexivity.
Defined.

(** X23. [vectorToSql] is one placeholder bound to the serialized vector, the
    same fragment an array operand of a vector function lowers to; the
    [vector] column type stores with the same bytes, reads them back as the
    vector rounded to float32, and declares the type [BLOB] whatever the
    dimensions. *)
Theorem X23_vectorToSql_binds_the_bytes (vector : list float) :
  Drizzle.toQuery (VectorSql.vectorToSql vector)
  = {| Drizzle.text := "?"; Drizzle.params := [Drizzle.VBlob (Vector.serializeVector vector)] |}
  /\ VectorSql.vectorToSql vector = Query.toVectorSql (Query.OfArray vector)
  /\ Vector.fromDriver Vector.vector (Vector.toDriver Vector.vector vector)
     = Ok (map Vector.fround vector)
  /\ (forall config, Vector.dataType Vector.vector config = "BLOB").
Proof.
  split; [| split; [| split]].
  - unfold VectorSql.vectorToSql. now rewrite toQuery_value.
  - reflexivity.
  - apply deserialize_serialize.
  - reflexivity.
Qed.

Section RoundAgain.
Import Vector.
Local Open Scope Z_scope.

Lemma digits32 (s : bool) (m : positive) (e : Z) :
  valid32 (S754_finite s m e) = true -> Z.pos (digits2_pos m) <= 24.
Proof.
  intros Hv. apply bounded32_cases in Hv.
  pose proof (digits2_pos_bounds m) as [Hlo _].
  destruct (Z_le_gt_dec (Z.pos (digits2_pos m)) 24) as [H | H]; [exact H | exfalso].
  pose proof (Z.pow_le_mono_r 2 24 (Z.pos (digits2_pos m) - 1) ltac:(lia) ltac:(lia)).
  change (2 ^ 23) with 8388608 in Hv. change (2 ^ 24) with 16777216 in *. lia.
Qed.

(** Rounding a binary32 value written with a longer significand gives the
    value back. *)
Lemma fround_SF_widened (s : bool) (m k : positive) (e : Z) :
  valid32 (S754_finite s m e) = true ->
  fround_SF (S754_finite s (Pos.iter xO m k) (e - Z.pos k)) = S754_finite s m e.
Proof.
  intros Hv. unfold valid32, SpecFloat.valid_binary, bounded in Hv.
  apply andb_true_iff in Hv as [Hc He]. unfold canonical_mantissa in Hc.
  apply Z.eqb_eq in Hc. apply Z.leb_le in He. change (128 - 24) with 104 in He.
  unfold fround_SF, binary_round.
  assert (Hdig : Z.pos (digits2_pos (Pos.iter xO m k)) = Z.pos (digits2_pos m) + Z.pos k).
  { change (Z.pos (digits2_pos (Pos.iter xO m k))) with (Zdigits2 (Z.pos (Pos.iter xO m k))).
    rewrite Pos_iter_xO, Zdigits2_mul_pow2 by lia. reflexivity. }
  assert (Hfexp : fexp 24 128 (Z.pos (digits2_pos (Pos.iter xO m k)) + (e - Z.pos k)) = e).
  { rewrite Hdig. replace (Z.pos (digits2_pos m) + Z.pos k + (e - Z.pos k))
      with (Z.pos (digits2_pos m) + e) by lia. exact Hc. }
  destruct (shl_align_spec (Pos.iter xO m k) (e - Z.pos k)) as (mz & ez & -> & _ & Hsame).
  destruct Hsame as [-> ->]; [rewrite Hfexp; lia |].
  change (Z.pos (digits2_pos (Pos.iter xO m k))) with (Zdigits2 (Z.pos (Pos.iter xO m k))) in Hfexp.
  destruct (binary_round_aux_spec s (Z.pos (Pos.iter xO m k)) (e - Z.pos k) loc_Exact
              ltac:(lia) ltac:(rewrite Hfexp; lia))
    as (m2 & _ & _ & Hdown & _ & ->).
  rewrite Hfexp in *. replace (e - (e - Z.pos k)) with (Z.pos k) in * by lia.
  rewrite Pos_iter_xO in Hdown.
  assert (Hm2 : m2 = Z.pos m).
  { rewrite Hdown.
    - apply Z.div_mul. apply Z.pow_nonzero; lia.
    - lia.
    - replace (Z.pos m * 2 ^ Z.pos k) with (Z.pos m * 2 * 2 ^ (Z.pos k - 1)).
      + rewrite Z.div_mul by (apply Z.pow_nonzero; lia).
        rewrite Z.odd_mul. cbn. apply andb_false_r.
      + rewrite <- Z.mul_assoc. f_equal. rewrite <- Z.pow_succ_r by lia. f_equal. lia. }
  subst m2. cbn [Zdigits2]. rewrite Hc, Z.sub_diag. change (2 ^ 0) with 1. rewrite Z.div_1_r.
  destruct (e <=? 104) eqn:Hle; [reflexivity | apply Z.leb_gt in Hle; lia].
Qed.

(** Storing a [number] that was read from a [Float32Array] stores the same
    binary32 value. *)
Lemma fround_SF_fround (x : float) :
  fround_SF (Prim2SF (fround x)) = fround_SF (Prim2SF x).
Proof.
  unfold fround. pose proof (fround_SF_valid (Prim2SF x)) as Hv.
  destruct (fround_SF (Prim2SF x)) as [s | s | | s m e] eqn:Hy.
  - rewrite Prim2SF_SF2Prim by reflexivity. reflexivity.
  - rewrite Prim2SF_SF2Prim by reflexivity. reflexivity.
  - rewrite Prim2SF_SF2Prim by reflexivity. reflexivity.
  - rewrite (Prim2SF_SF2Prim_b32 s m e Hv).
    pose proof (digits32 s m e Hv) as Hd.
    replace (53 - Z.pos (digits2_pos m)) with (Z.pos (Z.to_pos (53 - Z.pos (digits2_pos m))))
      at 2 by (rewrite Z2Pos.id; lia).
    now apply fround_SF_widened.
Qed.

Lemma f32_bytes_fround (x : float) : f32_bytes (fround x) = f32_bytes x.
Proof. unfold f32_bytes. now rewrite fround_SF_fround. Qed.

Lemma fround_fround (x : float) : fround (fround x) = fround x.
Proof. unfold fround at 1. rewrite fround_SF_fround. reflexivity. Qed.

Lemma Float32Array_of_fround (v : list float) :
  Float32Array_of (map fround v) = Float32Array_of v.
Proof.
  unfold Float32Array_of. induction v as [| x v IH]; [reflexivity |].
  cbn [map flat_map]. now rewrite f32_bytes_fround, IH.
Qed.

Lemma serializeVector_fround (v : list float) :
  serializeVector (map fround v) = serializeVector v.
Proof. unfold serializeVector. now rewrite Float32Array_of_fround. Qed.

End RoundAgain.

(** X24. Values read from the codec are stable: encoding a decoded vector gives
    the bytes it was decoded from, so decoding after encoding is idempotent;
    the same holds for the [vector] column type, whose [fromDriver] and
    [toDriver] are these two functions. (NaN is one value, stored as the
    quiet NaN [0x7fc00000].) *)
Theorem X24_decoded_vectors_are_stable (v w : list float) :
  Vector.deserializeVector (Vector.serializeVector v) = Ok w ->
  Vector.serializeVector w = Vector.serializeVector v
  /\ Vector.deserializeVector (Vector.serializeVector w) = Ok w
  /\ Vector.toDriver Vector.vector w = Vector.toDriver Vector.vector v
  /\ Vector.fromDriver Vector.vector (Vector.toDriver Vector.vector w) = Ok w.
Proof.
  rewrite deserialize_serialize. intros [= <-].
  assert (H1 : Vector.serializeVector (map Vector.fround v) = Vector.serializeVector v)
    by apply serializeVector_fround.
  assert (H2 : Vector.deserializeVector (Vector.serializeVector (map Vector.fround v))
               = Ok (map Vector.fround v)).
  { rewrite H1. apply deserialize_serialize. }
  repeat split; assumption.
Qed.

Lemma X24_witness :
  Vector.serializeVector [0x1.99999ap-4; 1]%float = Vector.serializeVector [0x1.999999999999ap-4; 1]%float.
Proof.
  refine (proj1 (X24_decoded_vectors_are_stable [0x1.999999999999ap-4; 1]%float [0x1.99999ap-4; 1]%float _)).
  vm_compute. reflexivity.
Defined.

(** X25. Two vectors are encoded to the same bytes exactly when they have the
    same elements after rounding to float32 (NaN being one value, stored as
    the quiet NaN [0x7fc00000]). *)
Theorem X25_same_bytes_iff_same_float32 (v w : list float) :
  Vector.serializeVector v = Vector.serializeVector w
  <-> map Vector.fround v = map Vector.fround w.
Proof.
  split.
  - intros H. apply (f_equal Vector.deserializeVector) in H.
    rewrite !deserialize_serialize in H. now injection H.
  - intros H. rewrite <- (serializeVector_fround v), <- (serializeVector_fround w). now rewrite H.
Qed.

Lemma X25_witness :
  Vector.serializeVector [0x1.999999999999ap-4]%float = Vector.serializeVector [0x1.99999ap-4]%float.
Proof.
  apply (proj2 (X25_same_bytes_iff_same_float32 [0x1.999999999999ap-4]%float [0x1.99999ap-4]%float)).
  vm_compute. reflexivity.
Defined.

Section SignAndUnderflow.
Import Vector.
Local Open Scope Z_scope.

Lemma binary_round_aux_opp (s : bool) (mx ex : Z) (lx : location) :
  binary_round_aux 24 128 (negb s) mx ex lx = SFopp (binary_round_aux 24 128 s mx ex lx).
Proof.
  unfold binary_round_aux.
  destruct (shr_fexp 24 128 mx ex lx) as [mrs e'].
  destruct (shr_fexp 24 128 _ e' loc_Exact) as [mrs' e''].
  destruct (shr_m mrs'); [reflexivity | | reflexivity].
  destruct (e'' <=? 128 - 24); reflexivity.
Qed.

Lemma fround_SF_opp (x : spec_float) : fround_SF (SFopp x) = SFopp (fround_SF x).
Proof.
  destruct x as [s | s | | s m e]; try reflexivity.
  cbn [SFopp fround_SF]. unfold binary_round.
  destruct (shl_align m e _) as [mz ez]. apply binary_round_aux_opp.
Qed.

Lemma valid32_opp (y : spec_float) : valid32 y = true -> valid32 (SFopp y) = true.
Proof. destruct y; intros H; exact H. Qed.

Lemma Prim2SF_SF2Prim_opp (y : spec_float) :
  valid32 y = true -> Prim2SF (SF2Prim (SFopp y)) = SFopp (Prim2SF (SF2Prim y)).
Proof.
  intros Hv. destruct y as [s | s | | s m e].
  - rewrite !Prim2SF_SF2Prim by reflexivity. reflexivity.
  - rewrite !Prim2SF_SF2Prim by reflexivity. reflexivity.
  - rewrite !Prim2SF_SF2Prim by reflexivity. reflexivity.
  - cbn [SFopp]. rewrite (Prim2SF_SF2Prim_b32 s m e Hv).
    rewrite (Prim2SF_SF2Prim_b32 (negb s) m e (valid32_opp _ Hv)). reflexivity.
Qed.

Lemma fround_opp (x : float) : fround (- x) = (- fround x)%float.
Proof.
  apply Prim2SF_inj. rewrite opp_spec. unfold fround.
  rewrite opp_spec, fround_SF_opp. apply Prim2SF_SF2Prim_opp, fround_SF_valid.
Qed.

(** A binary64 value has at most 53 significant digits. *)
Lemma digits64 (s : bool) (m : positive) (e : Z) :
  SpecFloat.valid_binary 53 1024 (S754_finite s m e) = true ->
  Z.pos (digits2_pos m) <= 53
  /\ (-1074 < e -> Z.pos (digits2_pos m) = 53).
Proof.
  unfold SpecFloat.valid_binary, bounded, canonical_mantissa. intros H.
  apply andb_true_iff in H as [Hc _]. apply Z.eqb_eq in Hc.
  change (fexp 53 1024 (Z.pos (digits2_pos m) + e))
    with (Z.max (Z.pos (digits2_pos m) + e - 53) (-1074)) in Hc. lia.
Qed.

(** Below half of the least positive binary32 value, rounding gives zero. *)
Lemma fround_SF_underflow (s : bool) (m : positive) (e : Z) :
  Z.pos (digits2_pos m) <= 53 -> e <= -203 ->
  fround_SF (S754_finite s m e) = S754_zero s.
Proof.
  intros Hd He. unfold fround_SF, binary_round.
  assert (Hfexp : fexp 24 128 (Z.pos (digits2_pos m) + e) = -149) by (rewrite fexp32; lia).
  destruct (shl_align_spec m e) as (mz & ez & -> & _ & Hsame).
  destruct Hsame as [-> ->]; [lia |].
  change (Z.pos (digits2_pos m)) with (Zdigits2 (Z.pos m)) in *.
  destruct (binary_round_aux_spec s (Z.pos m) e loc_Exact ltac:(lia) ltac:(lia))
    as (m2 & _ & _ & Hdown & _ & ->).
  rewrite Hfexp in *.
  assert (Hm2 : m2 = 0).
  { rewrite Hdown.
    - apply div_pow2_zero; lia.
    - lia.
    - rewrite div_pow2_zero by lia. reflexivity. }
  subst m2. reflexivity.
Qed.

End SignAndUnderflow.

Section UnderflowFacts.
Import Vector.
Local Open Scope float_scope.

Lemma fround_underflow (x : float) :
  (abs x <=? underflow_threshold) = true ->
  fround x = if x =? 0 then x else if x <? 0 then -0 else 0.
Proof.
  rewrite FloatAxioms.leb_spec, FloatAxioms.abs_spec, FloatAxioms.eqb_spec, FloatAxioms.ltb_spec.
  unfold fround.
  replace (Prim2SF underflow_threshold) with (S754_finite false 4503599627370496 (-202))
    by (vm_compute; reflexivity).
  replace (Prim2SF 0) with (S754_zero false) by (vm_compute; reflexivity).
  pose proof (Prim2SF_valid x) as Hv. pose proof (SF2Prim_Prim2SF x) as Hx.
  destruct (Prim2SF x) as [s | s | | s m e].
  - intros _. exact Hx.
  - discriminate.
  - discriminate.
  - intros Hle. apply SFleb_finite in Hle.
    destruct (digits64 s m e Hv) as [Hd Hnormal].
    replace (SFeqb (S754_finite s m e) (S754_zero false)) with false by (now destruct s).
    replace (SFltb (S754_finite s m e) (S754_zero false)) with s by (now destruct s).
    destruct Hle as [He | [-> Hm]].
    + rewrite fround_SF_underflow by lia. now destruct s.
    + assert (Hm52 : m = 4503599627370496%positive).
      { pose proof (digits2_pos_bounds m) as [Hlo _].
        rewrite Hnormal in Hlo by lia. change (2 ^ (53 - 1))%Z with 4503599627370496%Z in Hlo. lia. }
      subst m. now destruct s.
Qed.

End UnderflowFacts.

(** X26. Underflow: a number of magnitude at most [2^-150], half of the least
    positive float32 value, comes back from the codec as the zero of its
    sign (a zero comes back as itself); the bound is sharp, the next number
    above it comes back as [2^-149]. *)
Theorem X26_tiny_values_become_zero (x : float) :
  (abs x <=? Vector.underflow_threshold)%float = true ->
  Vector.deserializeVector (Vector.serializeVector [x])
  = Ok [if (x =? 0)%float then x else if (x <? 0)%float then (-0)%float else 0%float]
  /\ (Vector.fround x =? 0)%float = true
  /\ Vector.fround (next_up Vector.underflow_threshold) = 0x1p-149%float.
Proof.
  intros H. rewrite deserialize_serialize. cbn [map]. rewrite (fround_underflow x H).
  split; [reflexivity |]. split; [| vm_compute; reflexivity].
  destruct (x =? 0)%float eqn:E; [exact E |].
  destruct (x <? 0)%float; reflexivity.
Qed.

Lemma X26_witness :
  Vector.deserializeVector (Vector.serializeVector [(-0x1p-160)%float]) = Ok [(-0)%float].
Proof.
  refine (proj1 (X26_tiny_values_become_zero (-0x1p-160)%float _)). reflexivity.
Defined.

(** X27. Rounding to float32 commutes with negation, so the codec maps the
    negated vector to the negated result. *)
Theorem X27_codec_commutes_with_negation (v : list float) :
  (forall x, Vector.fround (- x) = (- Vector.fround x)%float)
  /\ Vector.deserializeVector (Vector.serializeVector (map opp v))
     = Ok (map opp (map Vector.fround v)).
Proof.
  split; [exact fround_opp |].
  rewrite deserialize_serialize, !map_map. f_equal. apply map_ext. intros x. apply fround_opp.
Qed.

Section DecodedValues.
Import Vector.
Local Open Scope Z_scope.

(** Every 32-bit pattern denotes a binary32 value. *)
Lemma valid32_b32_of_bits (z : Z) : valid32 (b32_of_bits z) = true.
Proof.
  unfold b32_of_bits.
  pose proof (Z.mod_pos_bound (z / 2 ^ 23) 256 ltac:(lia)) as Hex.
  pose proof (Z.mod_pos_bound z (2 ^ 23) ltac:(lia)) as Hmant.
  change (2 ^ 23) with 8388608 in *.
  set (ex := (z / 8388608) mod 256) in *. set (mant := z mod 8388608) in *.
  destruct (Z.eqb_spec ex 0) as [Hz | Hnz].
  - destruct (Z.eqb_spec mant 0) as [Hm0 | Hm0]; [reflexivity |].
    unfold valid32, SpecFloat.valid_binary, bounded, canonical_mantissa.
    apply andb_true_iff. split; [| reflexivity]. apply Z.eqb_eq.
    rewrite fexp32.
    assert (Hd : Z.pos (digits2_pos (Z.to_pos mant)) <= 23).
    { destruct (Z_le_gt_dec (Z.pos (digits2_pos (Z.to_pos mant))) 23) as [H | H]; [exact H | exfalso].
      pose proof (digits2_pos_bounds (Z.to_pos mant)) as [Hlo _].
      rewrite Z2Pos.id in Hlo by lia.
      pose proof (Z.pow_le_mono_r 2 23 (Z.pos (digits2_pos (Z.to_pos mant)) - 1) ltac:(lia) ltac:(lia)).
      change (2 ^ 23) with 8388608 in *. lia. }
    lia.
  - destruct (Z.eqb_spec ex 255) as [H255 | Hn255].
    + destruct (mant =? 0); reflexivity.
    + unfold valid32, SpecFloat.valid_binary, bounded, canonical_mantissa.
      assert (Hd : Z.pos (digits2_pos (Z.to_pos (mant + 8388608))) = 24).
      { change (Z.pos (digits2_pos (Z.to_pos (mant + 8388608))))
          with (Zdigits2 (Z.pos (Z.to_pos (mant + 8388608)))).
        rewrite Z2Pos.id by lia. apply Zdigits2_unique; [lia |].
        change (2 ^ (24 - 1)) with 8388608. change (2 ^ 24) with 16777216. lia. }
      apply andb_true_iff. split.
      * apply Z.eqb_eq. rewrite Hd, fexp32. lia.
      * apply Z.leb_le. change (128 - 24) with 104. lia.
Qed.

(** A binary32 value widened to a [number] is stored as itself. *)
Lemma fround_SF2Prim (y : spec_float) :
  valid32 y = true -> fround (SF2Prim y) = SF2Prim y.
Proof.
  intros Hv. unfold fround. f_equal. destruct y as [s | s | | s m e].
  - rewrite Prim2SF_SF2Prim by reflexivity. reflexivity.
  - rewrite Prim2SF_SF2Prim by reflexivity. reflexivity.
  - rewrite Prim2SF_SF2Prim by reflexivity. reflexivity.
  - rewrite (Prim2SF_SF2Prim_b32 s m e Hv).
    pose proof (digits32 s m e Hv) as Hd.
    replace (53 - Z.pos (digits2_pos m)) with (Z.pos (Z.to_pos (53 - Z.pos (digits2_pos m))))
      at 2 by (rewrite Z2Pos.id; lia).
    now apply fround_SF_widened.
Qed.

Lemma fround_f32_read (b0 b1 b2 b3 : byte) :
  fround (f32_read b0 b1 b2 b3) = f32_read b0 b1 b2 b3.
Proof. unfold f32_read. apply fround_SF2Prim, valid32_b32_of_bits. Qed.

Lemma fround_read_elements (n : nat) (bytes : list byte) :
  map fround (read_elements n bytes) = read_elements n bytes.
Proof.
  revert bytes. induction n as [| n IH]; intros bytes; [reflexivity |].
  destruct bytes as [| b0 [| b1 [| b2 [| b3 rest]]]]; try reflexivity.
  cbn [read_elements map]. now rewrite fround_f32_read, IH.
Qed.

End DecodedValues.

(** X28. Whatever bytes a buffer holds, the numbers decoded from it are float32
    values: encoding them and decoding again returns exactly the same
    numbers, and the encoding has 4 bytes for each of them. *)
Theorem X28_decode_encode_decode (b : Vector.Buffer) (w : list float) :
  Vector.deserializeVector b = Ok w ->
  Vector.deserializeVector (Vector.serializeVector w) = Ok w
  /\ map Vector.fround w = w
  /\ Vector.byteLength (Vector.serializeVector w) = (4 * length w)%nat.
Proof.
  intros Hb.
  assert (Hw : map Vector.fround w = w).
  { unfold Vector.deserializeVector, Vector.Float32Array_view in Hb.
    destruct (negb _); [discriminate |]. destruct (_ <? _)%nat; [discriminate |].
    injection Hb as <-. apply fround_read_elements. }
  split; [| split; [exact Hw |]].
  - rewrite deserialize_serialize. now rewrite Hw.
  - unfold Vector.serializeVector, Vector.Buffer_from. cbn [Vector.byteLength].
    apply length_Float32Array_of.
Qed.

Lemma X28_witness :
  Vector.deserializeVector
    (Vector.serializeVector [1; 0x1.8p+1]%float)
  = Ok [1; 0x1.8p+1]%float.
Proof.
  refine (proj1 (X28_decode_encode_decode
                   {| Vector.buffer := [x00; x00; x80; x3f; x00; x00; x40; x40; xff];
                      Vector.byteOffset := 0; Vector.byteLength := 9 |}
                   [1; 0x1.8p+1]%float _)).
  vm_compute. reflexivity.
Defined.

Section ViewFacts.
Import Vector.
Local Open Scope list_scope.

Lemma read_elements_prefix (u : list float) (rest : list byte) (n : nat) :
  n <= length u -> read_elements n (Float32Array_of u ++ rest) = map fround (firstn n u).
Proof.
  revert n. unfold Float32Array_of.
  induction u as [| x u IH]; intros n Hn.
  - destruct n; [reflexivity | cbn in Hn; lia].
  - destruct n as [| n]; [reflexivity |].
    destruct (f32_read_f32_bytes x) as (b0 & b1 & b2 & b3 & Hb & _ & Hr).
    cbn [flat_map firstn map]. rewrite Hb. cbn [app read_elements].
    rewrite Hr, IH by (cbn in Hn; lia). reflexivity.
Qed.

Lemma skipn_Float32Array_of (i : nat) (v : list float) :
  skipn (4 * i) (Float32Array_of v) = Float32Array_of (skipn i v).
Proof.
  revert v. unfold Float32Array_of. induction i as [| i IH]; intros v; [reflexivity |].
  destruct v as [| x v]; [reflexivity |].
  destruct (f32_read_f32_bytes x) as (b0 & b1 & b2 & b3 & Hb & _ & _).
  cbn [flat_map skipn]. rewrite Hb.
  replace (4 * S i)%nat with (S (S (S (S (4 * i))))) by lia.
  cbn [app skipn]. apply IH.
Qed.

End ViewFacts.

(** X29. The codec works element by element, so it respects concatenation and
    views: the bytes of [v ++ w] are the bytes of [v] followed by those of
    [w], and decoding the view of [4 * n] bytes at byte offset [4 * i] of an
    encoded vector returns its elements [i .. i + n - 1] rounded to float32. *)
Theorem X29_views_decode_slices (v w : list float) (i n : nat) :
  i + n <= length v ->
  Vector.buffer (Vector.serializeVector (v ++ w))
  = (Vector.buffer (Vector.serializeVector v) ++ Vector.buffer (Vector.serializeVector w))%list
  /\ Vector.deserializeVector
       {| Vector.buffer := Vector.buffer (Vector.serializeVector v);
          Vector.byteOffset := 4 * i;
          Vector.byteLength := 4 * n |}
     = Ok (firstn n (skipn i (map Vector.fround v))).
Proof.
  intros Hin. split.
  - unfold Vector.serializeVector, Vector.Buffer_from, Vector.Float32Array_of.
    cbn [Vector.buffer]. apply flat_map_app.
  - unfold Vector.deserializeVector, Vector.Float32Array_view, Vector.BYTES_PER_ELEMENT,
      Vector.serializeVector, Vector.Buffer_from.
    cbn [Vector.buffer Vector.byteOffset Vector.byteLength].
    replace ((4 * i) mod 4)%nat with 0%nat
      by (symmetry; rewrite Nat.mul_comm; apply Nat.Div0.mod_mul).
    replace (4 * n / 4)%nat with n by (symmetry; rewrite Nat.mul_comm; apply Nat.div_mul; lia).
    cbn [Nat.eqb negb]. rewrite length_Float32Array_of.
    replace (4 * length v <? 4 * i + 4 * n)%nat with false by (symmetry; apply Nat.ltb_ge; lia).
    rewrite skipn_Float32Array_of.
    rewrite <- (app_nil_r (Vector.Float32Array_of (skipn i v))).
    rewrite read_elements_prefix by (rewrite length_skipn; lia).
    now rewrite List.skipn_map, List.firstn_map.
Qed.

Lemma X29_witness :
  Vector.deserializeVector
    {| Vector.buffer := Vector.buffer (Vector.serializeVector [1; 2; 3; 4]%float);
       Vector.byteOffset := 4; Vector.byteLength := 8 |}
  = Ok [2; 3]%float.
Proof.
  refine (eq_trans (proj2 (X29_views_decode_slices [1; 2; 3; 4]%float [] 1 2 _)) _).
  - cbn. lia.
  - vm_compute. reflexivity.
Defined.

(** X30. [typedVector] checks the length only: it returns its argument exactly
    when the length equals [dimensions], NaN elements included. On arrays
    without NaN, [validateVector] with the same dimensions succeeds or fails
    as [typedVector] does, with the same message; on an array with a NaN
    element it fails even when [typedVector] accepts. *)
Theorem X30_typedVector_and_validateVector (dimensions : Z) (values : list float) :
  (Types.typedVector dimensions values = Ok values <-> Z.of_nat (length values) = dimensions)
  /\ (Forall (fun x => is_nan x = false) values ->
      Types.validateVector (Types.JArray (map Types.JNumber values)) (Some dimensions)
      = fmap_result (fun _ => true) (Types.typedVector dimensions values))
  /\ (forall x, In x values -> is_nan x = true ->
      Types.validateVector (Types.JArray (map Types.JNumber values)) (Some dimensions)
      = Throw "Vector must contain only valid numbers").
Proof.
  split; [| split].
  - unfold Types.typedVector.
    destruct (Z.eqb_spec (Z.of_nat (length values)) dimensions) as [E | N]; cbn [negb].
    + split; [intros _; exact E | reflexivity].
    + split; [discriminate | contradiction].
  - intros Hall. unfold Types.validateVector, Types.typedVector.
    assert (Hok : forallb Types.valid_number (map Types.JNumber values) = true).
    { apply forallb_forall. intros y Hy. apply in_map_iff in Hy as (x & <- & Hx).
      rewrite List.Forall_forall in Hall. cbn. now rewrite (Hall x Hx). }
    rewrite Hok, length_map. cbn [negb].
    destruct (Z.of_nat (length values) =? dimensions)%Z; reflexivity.
  - intros x Hin Hnan. unfold Types.validateVector.
    rewrite (forallb_invalid (map Types.JNumber values) (Types.JNumber x)).
    + reflexivity.
    + now apply in_map.
    + cbn. now rewrite Hnan.
Qed.

Lemma X30_witness :
  Types.typedVector 2 [nan; 1]%float = Ok [nan; 1]%float
  /\ Types.validateVector (Types.JArray (map Types.JNumber [nan; 1]%float)) (Some 2%Z)
     = Throw "Vector must contain only valid numbers".
Proof.
  destruct (X30_typedVector_and_validateVector 2 [nan; 1]%float) as (Hlen & _ & Hnan).
  split.
  - apply Hlen. reflexivity.
  - apply (Hnan nan); [now left | reflexivity].
Defined.

(** ** The repository's unit tests, replayed on the embedding *)

Example test_l2Distance : Types.l2Distance [0; 0]%float [3; 4]%float = Ok 5%float.
Proof. vm_compute. reflexivity. Qed.

Example test_l2Distance_4d :
  Types.l2Distance [1; 2; 3; 4]%float [5; 6; 7; 8]%float = Ok 8%float.
Proof. vm_compute. reflexivity. Qed.

Example test_dotProduct : Types.dotProduct [2; 3; 4]%float [5; 6; 7]%float = Ok 56%float.
Proof. vm_compute. reflexivity. Qed.

Example test_cosineSimilarity_zero :
  Types.cosineSimilarity [0; 0]%float [1; 0]%float = Ok 0%float.
Proof. vm_compute. reflexivity. Qed.

Example test_normalizeVector_zero :
  Types.normalizeVector [0; 0; 0; 0]%float = [0; 0; 0; 0]%float.
Proof. vm_compute. reflexivity. Qed.

Example test_zeroVector : Types.zeroVector 4 = [0; 0; 0; 0]%float.
Proof. vm_compute. reflexivity. Qed.

Example test_validateVector_empty : Types.validateVector (Types.JArray []) None = Ok true.
Proof. reflexivity. Qed.

Example test_validateVector_NaN :
  Types.validateVector (Types.JArray [Types.JNumber 1; Types.JNumber 2; Types.JNumber nan]) None
  = Throw "Vector must contain only valid numbers".
Proof. vm_compute. reflexivity. Qed.

Example test_roundtrip_integers :
  Vector.deserializeVector (Vector.serializeVector [1; 2; 3; 4; 5]%float)
  = Ok [1; 2; 3; 4; 5]%float.
Proof. vm_compute. reflexivity. Qed.

Example test_roundtrip_empty :
  Vector.byteLength (Vector.serializeVector []) = 0%nat
  /\ Vector.deserializeVector (Vector.serializeVector []) = Ok [].
Proof. split; reflexivity. Qed.

Example test_overflow :
  Vector.deserializeVector
    (Vector.serializeVector [0x1.78287f49c4a1dp+129; -0x1.78287f49c4a1dp+129]%float)
  = Ok [infinity; neg_infinity].
Proof. vm_compute. reflexivity. Qed.

Example test_float32_max_stays_finite :
  Vector.deserializeVector (Vector.serializeVector [0x1.fffffe54daff8p+127]%float)
  = Ok [Vector.FLOAT32_MAX].
Proof. vm_compute. reflexivity. Qed.

Example test_shadow_table :
  VirtualTable.createSQL
    (VirtualTable.shadowVec0Table
       {| VirtualTable.tableName := "documents_vec"; VirtualTable.vectorColumn := "embedding";
          VirtualTable.shadow_dimensions := 4; VirtualTable.idColumn := "doc_id" |})
  = "CREATE VIRTUAL TABLE IF NOT EXISTS documents_vec USING vec0(doc_id integer primary key, embedding float[4])".
Proof. vm_compute. reflexivity. Qed.

Example test_cosine_metric :
  VirtualTable.createSQL
    (VirtualTable.vec0Table "cosine_idx"
       [("embedding",
         VirtualTable.Vec0ColumnBuilder.distanceMetric VirtualTable.cosine
           (VirtualTable.vecFloat "embedding" 4))])
  = "CREATE VIRTUAL TABLE IF NOT EXISTS cosine_idx USING vec0(embedding float[4] distance_metric=cosine)".
Proof. vm_compute. reflexivity. Qed.

Example test_knnWhere_params :
  length (Drizzle.params (Drizzle.toQuery (Query.knnWhere "embedding" [1; 0; 0; 0]%float 10))) = 2%nat
  /\ nth_error (Drizzle.params (Drizzle.toQuery (Query.knnWhere "embedding" [1; 0; 0; 0]%float 10))) 1
     = Some (Drizzle.VNumber 10).
Proof. split; vm_compute; reflexivity. Qed.

Example test_vectorMatch_params :
  Drizzle.toQuery (Query.vectorMatch (Query.ColumnString "embedding") [1; 0; 0; 0]%float 3)
  = {| Drizzle.text := "embedding MATCH ? AND k = ?"; Drizzle.params := [Drizzle.VNumber 3] |}.
Proof. vm_compute. reflexivity. Qed.
